(** * Discovery of photo and video files: a shallow embedding of
      [visual_data_discover.py] and the properties of its three discoverers.

    Conventions of the embedding.
    - A Python [str] is held as the [string] of its UTF-8 bytes, the form in
      which a POSIX file system stores a name and [os.listdir] reads it.
      The separators, the dot and the needles of the filters are ASCII, so
      searching, slicing and joining act on the bytes as they act on the
      characters.  Where the program looks at characters, in
      [filter(str.isdigit, ...)] and [int], the bytes are decoded into code
      points first ([utf8.decode]).
    - [os.path] is [posixpath]: the separator is ['/'].
    - Python [int] is [Z]; the [float] values that the EXIF accessors return
      are rationals ([Q]), and [None] is the [None] of [option].
    - An exception is a value of [exn]; code that may raise returns a
      [result].
    - The file system and the logger form the [World] that every discoverer
      reads and returns. *)

From Stdlib Require Import String Ascii List NArith ZArith QArith Bool Lia.
From Stdlib Require Import Permutation Sorted.
Import ListNotations.

Local Open Scope string_scope.
Local Open Scope Z_scope.

(** ** Exceptions *)

Inductive exn : Type :=
| ValueError
| OSError.

Inductive result (A : Type) : Type :=
| Ok (a : A)
| Raise (e : exn).

Arguments Ok {A} a.
Arguments Raise {A} e.

Definition bind {A B : Type} (r : result A) (k : A -> result B) : result B :=
  match r with
  | Ok a => k a
  | Raise e => Raise e
  end.

Notation "x <- r ;; k" := (bind r (fun x => k))
  (at level 61, r at next level, right associativity).

(** ** The digit characters of Unicode *)

Module unicode.

(** The code point of the digit zero of every run of ten decimal digits
    (the characters with Numeric_Type=Decimal), from the Unicode Character
    Database 14.0.0, the one of Python 3.11: ASCII, Arabic-Indic,
    Devanagari, ..., fullwidth, mathematical. *)
Definition decimal_zeros : list N :=
  [
   0x30; 0x660; 0x6F0; 0x7C0; 0x966; 0x9E6; 0xA66; 0xAE6; 0xB66; 0xBE6;
   0xC66; 0xCE6; 0xD66; 0xDE6; 0xE50; 0xED0; 0xF20; 0x1040; 0x1090; 0x17E0;
   0x1810; 0x1946; 0x19D0; 0x1A80; 0x1A90; 0x1B50; 0x1BB0; 0x1C40; 0x1C50;
   0xA620; 0xA8D0; 0xA900; 0xA9D0; 0xA9F0; 0xAA50; 0xABF0; 0xFF10; 0x104A0;
   0x10D30; 0x11066; 0x110F0; 0x11136; 0x111D0; 0x112F0; 0x11450; 0x114D0;
   0x11650; 0x116C0; 0x11730; 0x118E0; 0x11950; 0x11C50; 0x11D50; 0x11DA0;
   0x16A60; 0x16AC0; 0x16B50; 0x1D7CE; 0x1D7D8; 0x1D7E2; 0x1D7EC; 0x1D7F6;
   0x1E140; 0x1E2F0; 0x1E950; 0x1FBF0
  ]%N.

(** The ranges of the characters with Numeric_Type=Digit that are not
    decimal: superscripts and subscripts, circled and parenthesized digits
    and the like. *)
Definition other_digits : list (N * N) :=
  [
   (0xB2, 0xB3); (0xB9, 0xB9); (0x1369, 0x1371); (0x19DA, 0x19DA);
   (0x2070, 0x2070); (0x2074, 0x2079); (0x2080, 0x2089); (0x2460, 0x2468);
   (0x2474, 0x247C); (0x2488, 0x2490); (0x24EA, 0x24EA); (0x24F5, 0x24FD);
   (0x24FF, 0x24FF); (0x2776, 0x277E); (0x2780, 0x2788); (0x278A, 0x2792);
   (0x10A40, 0x10A43); (0x10E60, 0x10E68); (0x11052, 0x1105A);
   (0x1F100, 0x1F10A)
  ]%N.

Fixpoint decimal_in (zeros : list N) (c : N) : option Z :=
  match zeros with
  | [] => None
  | z :: zeros' =>
      if ((z <=? c) && (c <? z + 10))%N then Some (Z.of_N (c - z))
      else decimal_in zeros' c
  end.

(** [unicodedata.decimal(c, None)]: the value of a decimal digit. *)
Definition decimal (c : N) : option Z := decimal_in decimal_zeros c.

(** [c.isdigit()] for one character: Numeric_Type is Decimal or Digit. *)
Definition isdigit (c : N) : bool :=
  match decimal c with
  | Some _ => true
  | None => existsb (fun r => (fst r <=? c) && (c <=? snd r))%N other_digits
  end.

End unicode.

(** ** UTF-8 *)

Module utf8.

Definition cont (n : N) : bool := ((0x80 <=? n) && (n <=? 0xBF))%N.

(** The first byte, or the first two, of a well-formed sequence of two, three
    and four bytes (no overlong form, no surrogate, nothing above
    U+10FFFF). *)
Definition lead2 (n1 : N) : bool := ((0xC2 <=? n1) && (n1 <=? 0xDF))%N.

Definition lead3 (n1 n2 : N) : bool :=
  ((n1 =? 0xE0) && (0xA0 <=? n2) && (n2 <=? 0xBF)
   || ((0xE1 <=? n1) && (n1 <=? 0xEC) || (0xEE <=? n1) && (n1 <=? 0xEF))
      && cont n2
   || (n1 =? 0xED) && (0x80 <=? n2) && (n2 <=? 0x9F))%N.

Definition lead4 (n1 n2 : N) : bool :=
  ((n1 =? 0xF0) && (0x90 <=? n2) && (n2 <=? 0xBF)
   || (0xF1 <=? n1) && (n1 <=? 0xF3) && cont n2
   || (n1 =? 0xF4) && (0x80 <=? n2) && (n2 <=? 0x8F))%N.

Definition cp2 (n1 n2 : N) : N := ((n1 - 0xC0) * 64 + (n2 - 0x80))%N.

Definition cp3 (n1 n2 n3 : N) : N :=
  ((n1 - 0xE0) * 4096 + (n2 - 0x80) * 64 + (n3 - 0x80))%N.

Definition cp4 (n1 n2 n3 n4 : N) : N :=
  ((n1 - 0xF0) * 262144 + (n2 - 0x80) * 4096 + (n3 - 0x80) * 64
   + (n4 - 0x80))%N.

(** A byte that begins no well-formed sequence becomes the lone surrogate
    U+DC00 + byte, as the [surrogateescape] handler of the file system
    encoding has it, and decoding goes on with the next byte. *)
Definition escape (n : N) : N := (0xDC00 + n)%N.

(** The code points of a byte string. *)
Fixpoint decode (s : string) : list N :=
  match s with
  | EmptyString => []
  | String b1 s1 =>
      let n1 := N_of_ascii b1 in
      if (n1 <? 0x80)%N then n1 :: decode s1
      else
        match s1 with
        | String b2 s2 =>
            let n2 := N_of_ascii b2 in
            if lead2 n1 && cont n2 then cp2 n1 n2 :: decode s2
            else
              match s2 with
              | String b3 s3 =>
                  let n3 := N_of_ascii b3 in
                  if lead3 n1 n2 && cont n3 then cp3 n1 n2 n3 :: decode s3
                  else
                    match s3 with
                    | String b4 s4 =>
                        let n4 := N_of_ascii b4 in
                        if lead4 n1 n2 && cont n3 && cont n4
                        then cp4 n1 n2 n3 n4 :: decode s4
                        else escape n1 :: decode s1
                    | EmptyString => escape n1 :: decode s1
                    end
              | EmptyString => escape n1 :: decode s1
              end
        | EmptyString => escape n1 :: decode s1
        end
  end.

End utf8.

(** ** Python strings *)

Module str.

(** The characters of a string. *)
Definition chars (s : string) : list N := utf8.decode s.

(** [c.isdigit()] for one character. *)
Definition isdigit (c : N) : bool := unicode.isdigit c.

(** [c.lower()] on a byte: a capital ASCII letter becomes small, and every
    other byte stays.  (Python also lowers capital letters outside ASCII;
    of these only U+0130 and U+212A give an ASCII letter, [i] and [k],
    neither of which is a letter of the one needle, [thumb], searched in the
    lowered name.) *)
Definition lower_char (c : ascii) : ascii :=
  let n := nat_of_ascii c in
  if (65 <=? n)%nat && (n <=? 90)%nat then ascii_of_nat (n + 32) else c.

(** [s.lower()] *)
Fixpoint lower (s : string) : string :=
  match s with
  | EmptyString => EmptyString
  | String c s' => String (lower_char c) (lower s')
  end.

(** [s.startswith(p)] *)
Fixpoint startswith (s p : string) : bool :=
  match p, s with
  | EmptyString, _ => true
  | String _ _, EmptyString => false
  | String a p', String b s' => Ascii.eqb a b && startswith s' p'
  end.

(** [s.endswith(String c "")] for a one-character suffix. *)
Fixpoint endswith_char (s : string) (c : ascii) : bool :=
  match s with
  | EmptyString => false
  | String a EmptyString => Ascii.eqb a c
  | String _ s' => endswith_char s' c
  end.

(** [sub in s] *)
Fixpoint contains (sub s : string) : bool :=
  startswith s sub ||
  match s with
  | EmptyString => false
  | String _ s' => contains sub s'
  end.

(** ["".join(filter(f, s))], as the list of its characters. *)
Definition filter (f : N -> bool) (s : string) : list N :=
  List.filter f (chars s).

Fixpoint rfind_from (s : string) (c : ascii) (i last : Z) : Z :=
  match s with
  | EmptyString => last
  | String a s' => rfind_from s' c (i + 1) (if Ascii.eqb a c then i else last)
  end.

(** [s.rfind(c)] for a one-character needle: the last position of [c],
    or [-1]. *)
Definition rfind (s : string) (c : ascii) : Z := rfind_from s c 0 (-1).

Fixpoint take (n : nat) (s : string) : string :=
  match n, s with
  | S n', String c s' => String c (take n' s')
  | _, _ => EmptyString
  end.

Fixpoint drop (n : nat) (s : string) : string :=
  match n, s with
  | S n', String _ s' => drop n' s'
  | _, _ => s
  end.

(** The slices [s[:j]], [s[i:]] and [s[i:j]] for [0 <= i] and [0 <= j],
    the only ones the program takes. *)
Definition slice_to (s : string) (j : Z) : string := take (Z.to_nat j) s.
Definition slice_from (s : string) (i : Z) : string := drop (Z.to_nat i) s.
Definition slice (s : string) (i j : Z) : string :=
  take (Z.to_nat (j - i)) (drop (Z.to_nat i) s).

Fixpoint int_from (s : list N) (acc : Z) : result Z :=
  match s with
  | [] => Ok acc
  | c :: s' =>
      match unicode.decimal c with
      | Some v => int_from s' (10 * acc + v)
      | None => Raise ValueError
      end
  end.

(** [int(s)] on a string of digit characters: the decimal digits of any
    script are read in base ten; the empty string and a character that is no
    decimal digit raise [ValueError].  (Signs, blanks and underscores, which
    [int] also reads, never reach it here: its argument went through
    [filter(str.isdigit, ...)].  Recent interpreters refuse a string of more
    digits than a limit that the caller may set or lift, 4300 by default; the
    digits of a file name, which is 255 bytes long at most, stay below it,
    and [int] is modelled without it.) *)
Definition int (s : list N) : result Z :=
  match s with
  | [] => Raise ValueError
  | _ => int_from s 0
  end.

End str.

(** ** [os.path] (posixpath) *)

Module os_path.

Definition sep : ascii := "/"%char.
Definition extsep : ascii := "."%char.

(** [os.path.join(a, b)] *)
Definition join (a b : string) : string :=
  if str.startswith b (String sep "") then b
  else if String.eqb a "" || str.endswith_char a sep then a ++ b
  else a ++ String sep b.

(** [os.path.basename(p)]: [p[p.rfind('/') + 1:]] *)
Definition basename (p : string) : string :=
  str.slice_from p (str.rfind p sep + 1).

(** The loop of [genericpath._splitext] that skips the leading dots of the
    last component; [n] is the number of iterations left, that is
    [dotIndex - filenameIndex]. *)
Fixpoint splitext_loop (p : string) (dotIndex : Z) (n : nat)
    (filenameIndex : Z) : option (string * string) :=
  match n with
  | O => None
  | S n' =>
      if negb (String.eqb (str.slice p filenameIndex (filenameIndex + 1))
                          (String extsep ""))
      then Some (str.slice_to p dotIndex, str.slice_from p dotIndex)
      else splitext_loop p dotIndex n' (filenameIndex + 1)
  end.

(** [os.path.splitext(p)] *)
Definition splitext (p : string) : string * string :=
  let sepIndex := str.rfind p sep in
  let dotIndex := str.rfind p extsep in
  let whole := (p, str.slice_to p 0) in
  if sepIndex <? dotIndex then
    let filenameIndex := sepIndex + 1 in
    match splitext_loop p dotIndex (Z.to_nat (dotIndex - filenameIndex))
                        filenameIndex with
    | Some r => r
    | None => whole
    end
  else whole.

End os_path.

(** ** The record types of [osc_models] *)

Module osc_models.

(** Modelled from the spec: [osc_models.VisualData], the base of the
    records, is not among the sources.  It stores [path] and [index];
    [index] is unset ([None]) until a discoverer assigns it. *)
Record VisualData : Type := mkVisualData {
  path : string;
  index : option Z
}.

(** Modelled from the spec: [osc_models.Photo], a [VisualData] with the
    optional metadata fields, all unset by its constructor. *)
Record Photo : Type := mkPhoto {
  visual_data :> VisualData;
  gps_timestamp : option Q;
  latitude : option Q;
  longitude : option Q;
  exif_timestamp : option Q;
  gps_speed : option Q;
  gps_altitude : option Q;
  gps_compass : option Q
}.

(** Modelled from the spec: [osc_models.Video], a [VisualData] without
    further fields. *)
Record Video : Type := mkVideo {
  video_data :> VisualData
}.

(** [Photo(path)] *)
Definition new_Photo (p : string) : Photo :=
  mkPhoto (mkVisualData p None) None None None None None None None.

(** [Video(path)] *)
Definition new_Video (p : string) : Video :=
  mkVideo (mkVisualData p None).

(** The attribute assignments [photo.x = v]. *)
Definition set_index (d : VisualData) (i : Z) : VisualData :=
  mkVisualData (path d) (Some i).

Definition photo_set_index (p : Photo) (i : Z) : Photo :=
  mkPhoto (set_index p i) (gps_timestamp p) (latitude p) (longitude p)
          (exif_timestamp p) (gps_speed p) (gps_altitude p) (gps_compass p).

Definition video_set_index (v : Video) (i : Z) : Video :=
  mkVideo (set_index v i).

Definition set_gps_timestamp (p : Photo) (v : option Q) : Photo :=
  mkPhoto p v (latitude p) (longitude p)
          (exif_timestamp p) (gps_speed p) (gps_altitude p) (gps_compass p).

Definition set_latitude (p : Photo) (v : option Q) : Photo :=
  mkPhoto p (gps_timestamp p) v (longitude p)
          (exif_timestamp p) (gps_speed p) (gps_altitude p) (gps_compass p).

Definition set_longitude (p : Photo) (v : option Q) : Photo :=
  mkPhoto p (gps_timestamp p) (latitude p) v
          (exif_timestamp p) (gps_speed p) (gps_altitude p) (gps_compass p).

Definition set_exif_timestamp (p : Photo) (v : option Q) : Photo :=
  mkPhoto p (gps_timestamp p) (latitude p) (longitude p)
          v (gps_speed p) (gps_altitude p) (gps_compass p).

Definition set_gps_speed (p : Photo) (v : option Q) : Photo :=
  mkPhoto p (gps_timestamp p) (latitude p) (longitude p)
          (exif_timestamp p) v (gps_altitude p) (gps_compass p).

Definition set_gps_altitude (p : Photo) (v : option Q) : Photo :=
  mkPhoto p (gps_timestamp p) (latitude p) (longitude p)
          (exif_timestamp p) (gps_speed p) v (gps_compass p).

Definition set_gps_compass (p : Photo) (v : option Q) : Photo :=
  mkPhoto p (gps_timestamp p) (latitude p) (longitude p)
          (exif_timestamp p) (gps_speed p) (gps_altitude p) v.

End osc_models.

Import osc_models.

(** ** The EXIF reader *)

Module exif_processing.

(** Modelled from the spec: the module [exif_processing] is not among the
    sources.  [all_tags] maps a file path to a tag mapping, and each
    accessor derives one value from the mapping or yields [None]. *)
Class ExifProcessing : Type := {
  tags_data : Type;
  all_tags : string -> tags_data;
  timestamp : tags_data -> option Q;
  gps_timestamp : tags_data -> option Q;
  gps_latitude : tags_data -> option Q;
  gps_longitude : tags_data -> option Q;
  gps_speed : tags_data -> option Q;
  gps_altitude : tags_data -> option Q;
  gps_compass : tags_data -> option Q
}.

End exif_processing.

(** ** Truth values and sorting *)

(** [bool(v)] for a value that is a [float] or [None]: [None] and zero are
    false, every other number is true. *)
Definition truthy (v : option Q) : bool :=
  match v with
  | None => false
  | Some q => negb (Qeq_bool q 0)
  end.

(** The [<] of two [float] keys.  A key that is [None] cannot be compared
    ([TypeError] in Python); the timestamp comparator only meets keys that
    passed [truthy], so the case is given the value [false] and never
    decides an order. *)
Definition float_lt (a b : option Q) : bool :=
  match a, b with
  | Some x, Some y => negb (Qle_bool y x)
  | _, _ => false
  end.

Section Sort.

Context {A K : Type}.
Variable lt : K -> K -> bool.

(** The keys are computed first, from left to right; the first key that
    raises aborts the sort. *)
Fixpoint decorate (key : A -> result K) (l : list A) : result (list (K * A)) :=
  match l with
  | [] => Ok []
  | a :: l' =>
      k <- key a ;;
      kl <- decorate key l' ;;
      Ok ((k, a) :: kl)
  end.

(** Insertion in front of the first element whose key is not strictly
    smaller: equal keys keep the order in which they came. *)
Fixpoint insert (x : K * A) (l : list (K * A)) : list (K * A) :=
  match l with
  | [] => [x]
  | y :: l' => if lt (fst y) (fst x) then y :: insert x l' else x :: y :: l'
  end.

Fixpoint sort_decorated (l : list (K * A)) : list (K * A) :=
  match l with
  | [] => []
  | x :: l' => insert x (sort_decorated l')
  end.

(** [l.sort(key=key)]: a stable sort that compares keys with [<] only.  On
    keys that [<] orders, as integers and rationals are, every stable sort
    returns the same list, so the insertion sort stands for Python's. *)
Definition list_sort (key : A -> result K) (l : list A) : result (list A) :=
  kl <- decorate key l ;;
  Ok (map snd (sort_decorated kl)).

End Sort.

(** ** The world: file system and logger *)

Record World : Type := mkWorld {
  (** [os.path.isdir] *)
  isdir : string -> bool;
  (** [os.listdir]: the entry names of a directory in the order the file
      system gives them, or an [OSError] *)
  listdir : string -> result (list string);
  (** what [LOGGER.debug] has written so far *)
  debug_log : list string
}.

(** [LOGGER.debug(fmt, arg)] with [fmt] ending in [%s]. *)
Definition LOGGER_debug (msg arg : string) (w : World) : World :=
  mkWorld (isdir w) (listdir w) (debug_log w ++ [msg ++ arg]).

(** ** The discoverers *)

(** The two methods that [PhotoDiscovery.discover] calls through [cls]. *)
Record PhotoCls : Type := mkPhotoCls {
  cls_photo_from_path : string -> option Photo;
  cls_sort_photo_list : list Photo -> result (list Photo)
}.

(** The sort key of plain photo and of video discovery:
    [int("".join(filter(str.isdigit, os.path.basename(path))))]. *)
Definition digit_key (d : VisualData) : result Z :=
  str.int (str.filter str.isdigit (os_path.basename (path d))).

Module PhotoDiscovery.

Definition _photo_from_path (path : string) : option Photo :=
  let photo := new_Photo path in
  Some photo.

Definition _sort_photo_list (photos : list Photo) : result (list Photo) :=
  list_sort Z.ltb (fun p : Photo => digit_key p) photos.

Definition cls : PhotoCls := mkPhotoCls _photo_from_path _sort_photo_list.

(** The test of the [if] in the loop of [discover]. *)
Definition is_candidate (file_path : string) : bool :=
  let (file_name, file_extension) := os_path.splitext file_path in
  (str.contains "jpg" file_extension || str.contains "jpeg" file_extension)
  && negb (str.contains "thumb" (str.lower file_name)).

(** One turn of [for file_path in files].  The test [if photo:] fails for
    [None] only: a [Photo] object is true. *)
Definition scan_step (cls : PhotoCls) (path : string)
    (photos : list Photo) (file_path : string) : list Photo :=
  if is_candidate file_path then
    match cls_photo_from_path cls (os_path.join path file_path) with
    | Some photo => photos ++ [photo]
    | None => photos
    end
  else photos.

(** [for photo in photos: photo.index = index; index += 1] *)
Fixpoint assign_index (photos : list Photo) (index : Z) : list Photo :=
  match photos with
  | [] => []
  | photo :: rest => photo_set_index photo index :: assign_index rest (index + 1)
  end.

Definition discover (cls : PhotoCls) (path : string) (w : World)
    : result (list Photo * string) * World :=
  let w := LOGGER_debug "searching for photos " path w in
  if negb (isdir w path) then (Ok ([], "photo"), w)
  else
    (files <- listdir w path ;;
     let photos := fold_left (scan_step cls path) files [] in
     photos <- cls_sort_photo_list cls photos ;;
     let photos := assign_index photos 0 in
     Ok (photos, "photo"),
     w).

End PhotoDiscovery.

Module ExifPhotoDiscoverer.

Section WithExif.

Context {E : exif_processing.ExifProcessing}.

Definition _photo_from_path (path : string) : option Photo :=
  let photo := new_Photo path in
  let tags_data := exif_processing.all_tags (osc_models.path photo) in
  let photo := set_gps_timestamp photo (exif_processing.gps_timestamp tags_data) in
  let photo := set_latitude photo (exif_processing.gps_latitude tags_data) in
  let photo := set_longitude photo (exif_processing.gps_longitude tags_data) in
  if negb (truthy (latitude photo))
     || negb (truthy (longitude photo))
     || negb (truthy (osc_models.gps_timestamp photo))
  then None
  else
    let photo := set_exif_timestamp photo (exif_processing.timestamp tags_data) in
    let photo := set_gps_speed photo (exif_processing.gps_speed tags_data) in
    let photo := set_gps_altitude photo (exif_processing.gps_altitude tags_data) in
    let photo := set_gps_compass photo (exif_processing.gps_compass tags_data) in
    Some photo.

Definition _sort_photo_list (photos : list Photo) : result (list Photo) :=
  list_sort float_lt (fun p : Photo => Ok (osc_models.gps_timestamp p)) photos.

Definition cls : PhotoCls := mkPhotoCls _photo_from_path _sort_photo_list.

(** Inherited from [PhotoDiscovery]. *)
Definition discover (path : string) (w : World)
    : result (list Photo * string) * World :=
  PhotoDiscovery.discover cls path w.

End WithExif.

End ExifPhotoDiscoverer.

Module VideoDiscoverer.

Definition _sort_list (videos : list Video) : result (list Video) :=
  list_sort Z.ltb (fun v : Video => digit_key v) videos.

Definition is_candidate (file_path : string) : bool :=
  let (_, file_extension) := os_path.splitext file_path in
  str.contains "mp4" file_extension.

Definition scan_step (path : string) (videos : list Video)
    (file_path : string) : list Video :=
  if is_candidate file_path then
    let video := new_Video (os_path.join path file_path) in
    videos ++ [video]
  else videos.

Fixpoint assign_index (videos : list Video) (index : Z) : list Video :=
  match videos with
  | [] => []
  | video :: rest => video_set_index video index :: assign_index rest (index + 1)
  end.

Definition discover (path : string) (w : World)
    : result (list Video * string) * World :=
  if negb (isdir w path) then (Ok ([], "video"), w)
  else
    (files <- listdir w path ;;
     let videos := fold_left (scan_step path) files [] in
     videos <- _sort_list videos ;;
     let videos := assign_index videos 0 in
     Ok (videos, "video"),
     w).

End VideoDiscoverer.

Module VisualDataDiscoverer.

(** The two methods of the abstract class: the body of each is [pass], so a
    call returns [None] and touches nothing.  [discover] is overridden by
    the three discoverers, [discover_using_type] by none. *)
Definition discover (path : string) (w : World)
    : option (list VisualData * string) * World :=
  (None, w).

Definition discover_using_type (path osc_type : string) (w : World)
    : option (list VisualData * string) * World :=
  (None, w).

End VisualDataDiscoverer.

(** The plain photo discoverer is [PhotoDiscovery.discover] called on the
    class itself. *)
Definition PhotoDiscovery_discover : string -> World -> result (list Photo * string) * World :=
  PhotoDiscovery.discover PhotoDiscovery.cls.

(** * The loops as list functions *)

(** The list of what an optional value holds. *)
Definition option_list {A : Type} (o : option A) : list A :=
  match o with
  | Some a => [a]
  | None => []
  end.

(** The photos that the loop of [PhotoDiscovery.discover] collects from a
    listing, in the order of the listing. *)
Definition photo_scan (cls : PhotoCls) (path : string) (files : list string)
    : list Photo :=
  flat_map (fun file_path =>
              option_list (cls_photo_from_path cls (os_path.join path file_path)))
           (filter PhotoDiscovery.is_candidate files).

(** The videos that the loop of [VideoDiscoverer.discover] collects from a
    listing, in the order of the listing. *)
Definition video_scan (path : string) (files : list string) : list Video :=
  map (fun file_path => new_Video (os_path.join path file_path))
      (filter VideoDiscoverer.is_candidate files).

(** The positions [i, i+1, ..., i+n-1] as index values. *)
Fixpoint index_range (i : Z) (n : nat) : list (option Z) :=
  match n with
  | O => []
  | S n' => Some i :: index_range (i + 1) n'
  end.

Section ExifVocabulary.

Context {E : exif_processing.ExifProcessing}.

(** The record that the builder fills for a path. *)
Definition exif_photo (p : string) : Photo :=
  let tags_data := exif_processing.all_tags p in
  mkPhoto (mkVisualData p None)
          (exif_processing.gps_timestamp tags_data)
          (exif_processing.gps_latitude tags_data)
          (exif_processing.gps_longitude tags_data)
          (exif_processing.timestamp tags_data)
          (exif_processing.gps_speed tags_data)
          (exif_processing.gps_altitude tags_data)
          (exif_processing.gps_compass tags_data).

(** The three mandatory derivations all pass the truth test. *)
Definition mandatory_truthy (p : string) : bool :=
  truthy (exif_processing.gps_latitude (exif_processing.all_tags p))
  && truthy (exif_processing.gps_longitude (exif_processing.all_tags p))
  && truthy (exif_processing.gps_timestamp (exif_processing.all_tags p)).

End ExifVocabulary.

(** * Vocabulary of the properties *)

(** [sub] occurs in [s]. *)
Definition substring_of (sub s : string) : Prop :=
  exists pre post, s = pre ++ sub ++ post.

(** The filter of the photo policies, as a proposition on the two parts that
    [os.path.splitext] gives. *)
Definition photo_candidate (file_path : string) : Prop :=
  (substring_of "jpg" (snd (os_path.splitext file_path)) \/
   substring_of "jpeg" (snd (os_path.splitext file_path))) /\
  ~ substring_of "thumb" (str.lower (fst (os_path.splitext file_path))).

(** The filter of the video policy, as a proposition. *)
Definition video_candidate (file_path : string) : Prop :=
  substring_of "mp4" (snd (os_path.splitext file_path)).

(** An entry name as [os.listdir] gives it: it holds no separator. *)
Definition is_entry_name (name : string) : bool :=
  negb (str.contains (String os_path.sep "") name).

(** The name holds at least one digit character. *)
Definition has_digit (name : string) : bool :=
  match str.filter str.isdigit name with
  | [] => false
  | _ :: _ => true
  end.

(** The character is a decimal digit. *)
Definition is_decimal (c : N) : bool :=
  match unicode.decimal c with
  | Some _ => true
  | None => false
  end.

(** Every digit character of the name is a decimal digit. *)
Definition decimal_digits (name : string) : bool :=
  forallb is_decimal (str.filter str.isdigit name).

(** The digit characters of the name spell a number: there is at least one
    of them, and all of them are decimal digits. *)
Definition spells_number (name : string) : bool :=
  has_digit name && decimal_digits name.

(** The entries of a listing are names, and the digit characters of those
    that pass [candidate] spell a number. *)
Definition digits_in_candidates (candidate : string -> bool)
    (files : list string) : Prop :=
  Forall (fun f => is_entry_name f = true /\
                   (candidate f = true -> spells_number f = true)) files.

(** The entries of a listing are names, and every digit character of those
    that pass [candidate] is a decimal digit. *)
Definition decimal_in_candidates (candidate : string -> bool)
    (files : list string) : Prop :=
  Forall (fun f => is_entry_name f = true /\
                   (candidate f = true -> decimal_digits f = true)) files.

(** The derivation gave a number other than zero. *)
Definition present_nonzero (v : option Q) : Prop :=
  exists q, v = Some q /\ ~ q == 0.

(** The derivation gave nothing, or gave zero. *)
Definition absent_or_zero (v : option Q) : Prop :=
  v = None \/ exists q, v = Some q /\ q == 0.

(** The record has the timestamp [t]. *)
Definition has_timestamp (t : Q) (p : Photo) : bool :=
  match osc_models.gps_timestamp p with
  | Some x => Qeq_bool x t
  | None => false
  end.

(** The key is the timestamp [t]. *)
Definition timestamp_is (t : Q) (k : option Q) : bool :=
  match k with
  | Some x => Qeq_bool x t
  | None => false
  end.

(** [x] may stand in front of [y] in a list sorted with [lt]. *)
Definition key_le {A K : Type} (lt : K -> K -> bool) (x y : K * A) : Prop :=
  lt (fst y) (fst x) = false.

(** The test [p] of a key, carried to the elements. *)
Definition key_passes {A K : Type} (key : A -> result K) (p : K -> bool)
    (a : A) : bool :=
  match key a with
  | Ok k => p k
  | Raise _ => false
  end.

(** The returned records as (path, index) pairs. *)
Definition photo_summary (r : result (list Photo * string))
    : result (list (string * option Z) * string) :=
  x <- r ;; Ok (map (fun p : Photo => (path p, index p)) (fst x), snd x).

(** The same for videos. *)
Definition video_summary (r : result (list Video * string))
    : result (list (string * option Z) * string) :=
  x <- r ;; Ok (map (fun v : Video => (path v, index v)) (fst x), snd x).

(** * Concrete worlds and EXIF readers, for the examples *)

(** The first value that a table gives for a key. *)
Fixpoint lookup {V : Type} (k : string) (table : list (string * V)) : option V :=
  match table with
  | [] => None
  | (k', v) :: rest => if String.eqb k k' then Some v else lookup k rest
  end.

(** A world given by the listing of each of its directories; any other path
    is not a directory and listing it is an [OSError]. *)
Definition world_of (dirs : list (string * list string)) : World :=
  mkWorld (fun p => match lookup p dirs with Some _ => true | None => false end)
          (fun p => match lookup p dirs with
                    | Some files => Ok files
                    | None => Raise OSError
                    end)
          [].

(** The values derived from the tags of one file. *)
Record Derived : Type := mkDerived {
  d_gps_timestamp : option Q;
  d_latitude : option Q;
  d_longitude : option Q;
  d_timestamp : option Q;
  d_speed : option Q;
  d_altitude : option Q;
  d_compass : option Q
}.

(** The derived values of a file without tags. *)
Definition no_tags : Derived := mkDerived None None None None None None None.

(** An EXIF reader given by the derived values of each file; a file that is
    not in the table has no tags. *)
Definition exif_of (table : list (string * Derived)) : exif_processing.ExifProcessing :=
  {| exif_processing.tags_data := Derived;
     exif_processing.all_tags := fun p =>
       match lookup p table with Some d => d | None => no_tags end;
     exif_processing.timestamp := d_timestamp;
     exif_processing.gps_timestamp := d_gps_timestamp;
     exif_processing.gps_latitude := d_latitude;
     exif_processing.gps_longitude := d_longitude;
     exif_processing.gps_speed := d_speed;
     exif_processing.gps_altitude := d_altitude;
     exif_processing.gps_compass := d_compass |}.

(** A directory of three photos, one video and a thumbnail, and the tags of
    its photos. *)
Definition trip_world : World :=
  world_of [("/trip_2019",
             ["img_2.jpg"; "clip_3.mp4"; "img_10.jpg"; "thumb_5.jpg"; "img_1.jpg"])].

(** The tags of the photos of [trip_world]: [img_1.jpg] has no latitude. *)
Definition trip_exif : exif_processing.ExifProcessing :=
  exif_of
    [("/trip_2019/img_2.jpg",
      mkDerived (Some (1500 # 1)) (Some (45 # 1)) (Some (9 # 2)) None None None None);
     ("/trip_2019/img_10.jpg",
      mkDerived (Some (1200 # 1)) (Some (46 # 1)) (Some (7 # 2)) None None None None);
     ("/trip_2019/img_1.jpg",
      mkDerived (Some (1500 # 1)) None (Some (5 # 2)) None None None None)].

(** A directory with a photo whose name has no digit. *)
Definition album_world : World :=
  world_of [("/album", ["holiday.jpg"; "clip.mp4"; "dir1.jpg"; "dir2.mp4"]);
            ("/album/dir1.jpg", []);
            ("/album/dir2.mp4", [])].

(** A directory two of whose entries are directories themselves. *)
Definition shelf_world : World :=
  world_of [("/shelf", ["dir1.jpg"; "a2.jpg"; "dir2.mp4"]);
            ("/shelf/dir1.jpg", []);
            ("/shelf/dir2.mp4", ["inner.txt"])].

(** A directory with a video, a photo of the same name, thumbnails and an
    upper-case extension. *)
Definition mixed_world : World :=
  world_of [("/mixed", ["clip_3.mp4"; "thumb_5.jpg"; "clip_3.jpg"; "IMG_7.JPG";
                        "Thumb_8.jpeg"; "notes_9.txt"])].

(** A directory whose names have [jpg], [mp4] and [thumb] in the part where
    the filters do not look for them, and two names that begin with dots. *)
Definition quirk_world : World :=
  world_of [("/quirks", ["jpg_notes.txt"; "b_2.jpge"; "mp4_list.txt";
                         "a_1.thumbjpg"; "THUMB_3.jpg"; "c_5.xmp4"; ".jpg";
                         "..mp4"])].

(** The tags of the photos of [mixed_world]. *)
Definition mixed_exif : exif_processing.ExifProcessing :=
  exif_of
    [("/mixed/clip_3.jpg",
      mkDerived (Some (900 # 1)) (Some (45 # 1)) (Some (9 # 1)) None None None None);
     ("/mixed/thumb_5.jpg",
      mkDerived (Some (800 # 1)) (Some (45 # 1)) (Some (9 # 1)) None None None None)].

(** A photo taken on the equator, with every mandatory tag present. *)
Definition equator_world : World :=
  world_of [("/equator", ["shot_1.jpg"])].

(** The tags of [equator_world]: the latitude is present and is 0. *)
Definition equator_exif : exif_processing.ExifProcessing :=
  exif_of
    [("/equator/shot_1.jpg",
      mkDerived (Some (1000 # 1)) (Some (0 # 1)) (Some (10 # 1))
                None None None None)].

(** Two photos, the later one listed first. *)
Definition pair_world : World :=
  world_of [("/pair", ["late.jpg"; "early.jpg"])].

(** The tags of [pair_world]. *)
Definition pair_exif : exif_processing.ExifProcessing :=
  exif_of
    [("/pair/late.jpg",
      mkDerived (Some (200 # 1)) (Some (45 # 1)) (Some (9 # 1)) None None None None);
     ("/pair/early.jpg",
      mkDerived (Some (100 # 1)) (Some (45 # 1)) (Some (9 # 1)) None None None None)].

(** * Vocabulary of the further properties *)

(** The digit characters of some listed candidate spell no number: the name
    has none, or one of them is not a decimal digit. *)
Definition numberless_candidate (candidate : string -> bool)
    (files : list string) : Prop :=
  exists f, In f files /\ candidate f = true /\ spells_number f = false.

(** Some digit character of some listed candidate is not a decimal digit. *)
Definition undecimal_candidate (candidate : string -> bool)
    (files : list string) : Prop :=
  exists f, In f files /\ candidate f = true /\ decimal_digits f = false.

(** A directory that cannot be listed. *)
Definition locked_world : World :=
  mkWorld (fun p => String.eqb p "/locked") (fun _ => Raise OSError) [].

(** The record has the digit key [k]. *)
Definition has_digit_key (k : Z) (d : VisualData) : bool :=
  key_passes digit_key (fun k' => Z.eqb k' k) d.

(** The digit characters of the name spell the integer [k]. *)
Definition name_spells (k : Z) (name : string) : bool :=
  match str.int (str.filter str.isdigit name) with
  | Ok k' => Z.eqb k' k
  | Raise _ => false
  end.

(** Three photos whose names spell the same integer, and two videos that do. *)
Definition tie_world : World :=
  world_of [("/ties", ["b_01.jpg"; "clip_7.mp4"; "a_1.jpg"; "c_001.jpg";
                       "clip_07.mp4"; "z_2.jpg"])].

Section ExifRecords.

Context {E : exif_processing.ExifProcessing}.

(** The metadata of the record is what the EXIF reader derives from the
    tags of the record's own path, and its mandatory trio is present and
    not zero. *)
Definition matches_tags (r : Photo) : Prop :=
  let tags_data := exif_processing.all_tags (osc_models.path r) in
  osc_models.gps_timestamp r = exif_processing.gps_timestamp tags_data /\
  latitude r = exif_processing.gps_latitude tags_data /\
  longitude r = exif_processing.gps_longitude tags_data /\
  exif_timestamp r = exif_processing.timestamp tags_data /\
  osc_models.gps_speed r = exif_processing.gps_speed tags_data /\
  osc_models.gps_altitude r = exif_processing.gps_altitude tags_data /\
  osc_models.gps_compass r = exif_processing.gps_compass tags_data /\
  present_nonzero (osc_models.gps_timestamp r) /\
  present_nonzero (latitude r) /\
  present_nonzero (longitude r).

End ExifRecords.

(** No metadata field of the record is set. *)
Definition no_metadata (r : Photo) : Prop :=
  osc_models.gps_timestamp r = None /\ latitude r = None /\ longitude r = None /\
  exif_timestamp r = None /\ osc_models.gps_speed r = None /\
  osc_models.gps_altitude r = None /\ osc_models.gps_compass r = None.

(** The character [c] does not occur in [s]. *)
Definition lacks_char (c : ascii) (s : string) : bool :=
  negb (str.contains (String c "") s).

(** A run of [n] dots. *)
Fixpoint dots (n : nat) : string :=
  match n with
  | O => EmptyString
  | S n' => String os_path.extsep (dots n')
  end.

(** The order of two elements by a projection [proj] that lands, through
    [inj], in keys ordered by [le]. *)
Definition ordered_by {A K K' : Type} (proj : A -> K') (inj : K -> K')
    (le : K -> K -> Prop) (a b : A) : Prop :=
  exists x y, proj a = inj x /\ proj b = inj y /\ le x y.

(** No two candidates of the listing spell the same integer. *)
Definition distinct_numbers (candidate : string -> bool)
    (files : list string) : Prop :=
  forall f g,
    In f files -> In g files ->
    candidate f = true -> candidate g = true ->
    str.int (str.filter str.isdigit f) = str.int (str.filter str.isdigit g) ->
    f = g.

(** The directory of [trip_world] as another file system lists it. *)
Definition trip_world_reversed : World :=
  world_of [("/trip_2019",
             ["img_1.jpg"; "thumb_5.jpg"; "img_10.jpg"; "clip_3.mp4"; "img_2.jpg"])].

Section ExifOrder.

Context {E : exif_processing.ExifProcessing}.

(** No two candidates of the listing whose records are built have equal GPS
    timestamps. *)
Definition distinct_timestamps (path : string) (files : list string) : Prop :=
  forall f g x y,
    In f files -> In g files ->
    PhotoDiscovery.is_candidate f = true ->
    PhotoDiscovery.is_candidate g = true ->
    ExifPhotoDiscoverer._photo_from_path (os_path.join path f) <> None ->
    ExifPhotoDiscoverer._photo_from_path (os_path.join path g) <> None ->
    exif_processing.gps_timestamp
      (exif_processing.all_tags (os_path.join path f)) = Some x ->
    exif_processing.gps_timestamp
      (exif_processing.all_tags (os_path.join path g)) = Some y ->
    x == y ->
    f = g.

End ExifOrder.

(** The index of [a] is smaller than the index of [b]. *)
Definition index_before {A : Type} (idx : A -> option Z) (a b : A) : Prop :=
  exists i j, idx a = Some i /\ idx b = Some j /\ i < j.

(** The paths with the indices [i], [i + 1], ... in this order. *)
Fixpoint numbered (paths : list string) (i : Z) : list (string * option Z) :=
  match paths with
  | [] => []
  | p :: rest => (p, Some i) :: numbered rest (i + 1)
  end.

(** A directory one of whose photos has no digit in its name, and one with a
    photo whose name has the superscript two beside a decimal digit. *)
Definition scans_world : World :=
  world_of [("/scans", ["page_2.jpg"; "cover.jpg"; "page_1.jpg"]);
            ("/powers", ["img_²1.jpg"; "img_3.jpg"])].

(** A directory whose path has a digit. *)
Definition d1_world : World :=
  world_of [("/d1", ["9.jpg"; "01.jpg"; "9.mp4"; "01.mp4"])].

(** A directory with a video whose name has the superscript two, and a
    subdirectory named as a video. *)
Definition reel_world : World :=
  world_of [("/reel", ["clip².mp4"; "dir2.mp4"]);
            ("/reel/dir2.mp4", [])].

(** * Properties *)

(** ** The model on concrete inputs *)

Example splitext_1 : os_path.splitext "img_10.jpg" = ("img_10", ".jpg").
Proof. reflexivity. Qed.
Example splitext_2 : os_path.splitext ".jpg" = (".jpg", "").
Proof. reflexivity. Qed.
Example splitext_3 : os_path.splitext "a.tar.jpeg" = ("a.tar", ".jpeg").
Proof. reflexivity. Qed.
Example splitext_4 : os_path.splitext "..jpg" = ("..jpg", "").
Proof. reflexivity. Qed.
Example splitext_5 : os_path.splitext "a.b/c" = ("a.b/c", "").
Proof. reflexivity. Qed.
Example join_1 : os_path.join "/d" "x.jpg" = "/d/x.jpg".
Proof. reflexivity. Qed.
Example join_2 : os_path.join "/d/" "x.jpg" = "/d/x.jpg".
Proof. reflexivity. Qed.
Example basename_1 : os_path.basename "/d9/x1.jpg" = "x1.jpg".
Proof. reflexivity. Qed.
Example int_1 : str.int (str.filter str.isdigit "img_007b1.jpg") = Ok 71.
Proof. reflexivity. Qed.
Example int_2 : str.int (str.filter str.isdigit "photo.jpg") = Raise ValueError.
Proof. reflexivity. Qed.
Example chars_1 : str.chars "²a٣１" = [178; 97; 1635; 65297]%N.
Proof. reflexivity. Qed.
Example int_3 : str.int (str.filter str.isdigit "a٣1.mp4") = Ok 314.
Proof. reflexivity. Qed.
Example int_4 : str.int (str.filter str.isdigit "x１２.jpg") = Ok 12.
Proof. reflexivity. Qed.
Example int_5 : str.int (str.filter str.isdigit "img_²1.jpg") = Raise ValueError.
Proof. reflexivity. Qed.
Example splitext_6 : os_path.splitext "...a.b" = ("...a", ".b").
Proof. reflexivity. Qed.

Example plain_three :
  photo_summary (fst (PhotoDiscovery_discover "/trip_2019"
    (world_of [("/trip_2019", ["img_2.jpg"; "img_10.jpg"; "img_1.jpg"])]))) =
  Ok ([("/trip_2019/img_1.jpg", Some 0); ("/trip_2019/img_2.jpg", Some 1);
       ("/trip_2019/img_10.jpg", Some 2)], "photo").
Proof. vm_compute. reflexivity. Qed.

Example video_keys :
  map (fun v : Video => digit_key v)
      [new_Video "/trip_2019/clip_3.mp4"; new_Video "/album/clip.mp4"] =
  [Ok 34; Ok 4].
Proof. reflexivity. Qed.

Example exif_trip :
  photo_summary (fst (@ExifPhotoDiscoverer.discover trip_exif "/trip_2019" trip_world)) =
  Ok ([("/trip_2019/img_10.jpg", Some 0); ("/trip_2019/img_2.jpg", Some 1)], "photo").
Proof. vm_compute. reflexivity. Qed.

Example video_trip :
  video_summary (fst (VideoDiscoverer.discover "/trip_2019" trip_world)) =
  Ok ([("/trip_2019/clip_3.mp4", Some 0)], "video").
Proof. vm_compute. reflexivity. Qed.

Example listing_fails :
  fst (PhotoDiscovery_discover "/locked"
         (mkWorld (fun _ => true) (fun _ => Raise OSError) [])) = Raise OSError.
Proof. reflexivity. Qed.

(** ** Facts on [result] *)

Lemma bind_Ok_inv {A B : Type} (r : result A) (k : A -> result B) (b : B) :
  bind r k = Ok b -> exists a, r = Ok a /\ k a = Ok b.
Proof.
  destruct r as [a|e]; simpl; intros H.
  - exists a. split; [reflexivity | exact H].
  - discriminate H.
Qed.

(** ** Facts on the sort *)

Section SortFacts.

Context {A K : Type}.
Variable lt : K -> K -> bool.
Variable key : A -> result K.

Lemma decorate_snd (l : list A) (kl : list (K * A)) :
  decorate key l = Ok kl -> map snd kl = l.
Proof.
  revert kl. induction l as [|a l IH]; simpl; intros kl H.
  - injection H as <-. reflexivity.
  - apply bind_Ok_inv in H. destruct H as (k & _ & H).
    apply bind_Ok_inv in H. destruct H as (kl' & Hkl' & H).
    injection H as <-. simpl. f_equal. apply IH. exact Hkl'.
Qed.

Lemma decorate_keys (l : list A) (kl : list (K * A)) :
  decorate key l = Ok kl -> Forall (fun x => key (snd x) = Ok (fst x)) kl.
Proof.
  revert kl. induction l as [|a l IH]; simpl; intros kl H.
  - injection H as <-. constructor.
  - apply bind_Ok_inv in H. destruct H as (k & Hk & H).
    apply bind_Ok_inv in H. destruct H as (kl' & Hkl' & H).
    injection H as <-. constructor; [exact Hk | apply IH; exact Hkl'].
Qed.

Lemma decorate_total (l : list A) :
  Forall (fun a => exists k, key a = Ok k) l ->
  exists kl, decorate key l = Ok kl.
Proof.
  induction 1 as [|a l [k Hk] _ [kl Hkl]]; simpl.
  - exists []. reflexivity.
  - exists ((k, a) :: kl). rewrite Hk, Hkl. reflexivity.
Qed.

Lemma decorate_raises (l : list A) (a : A) (e : exn) :
  In a l -> key a = Raise e -> exists e', decorate key l = Raise e'.
Proof.
  induction l as [|b l IH]; simpl; intros Hin Ha.
  - contradiction.
  - destruct (key b) as [k|e0] eqn:Hb; simpl.
    + destruct Hin as [-> | Hin].
      * rewrite Ha in Hb. discriminate Hb.
      * destruct (IH Hin Ha) as [e' ->]. exists e'. reflexivity.
    + exists e0. reflexivity.
Qed.

Lemma insert_perm (x : K * A) (l : list (K * A)) :
  Permutation (insert lt x l) (x :: l).
Proof.
  induction l as [|y l IH]; simpl.
  - apply Permutation_refl.
  - destruct (lt (fst y) (fst x)).
    + apply perm_trans with (y :: x :: l).
      * apply perm_skip. exact IH.
      * apply perm_swap.
    + apply Permutation_refl.
Qed.

Lemma sort_decorated_perm (l : list (K * A)) :
  Permutation (sort_decorated lt l) l.
Proof.
  induction l as [|x l IH]; simpl.
  - apply perm_nil.
  - apply perm_trans with (x :: sort_decorated lt l).
    + apply insert_perm.
    + apply perm_skip. exact IH.
Qed.

Hypothesis lt_asym : forall a b, lt a b = true -> lt b a = false.

Lemma insert_HdRel (x y : K * A) (l : list (K * A)) :
  (key_le lt) y x -> HdRel (key_le lt) y l -> HdRel (key_le lt) y (insert lt x l).
Proof.
  intros Hyx Hl. destruct l as [|z l]; simpl.
  - constructor. exact Hyx.
  - destruct (lt (fst z) (fst x)).
    + constructor. inversion Hl; assumption.
    + constructor. exact Hyx.
Qed.

Lemma insert_sorted (x : K * A) (l : list (K * A)) :
  Sorted (key_le lt) l -> Sorted (key_le lt) (insert lt x l).
Proof.
  induction 1 as [|y l Hl IH Hy]; simpl.
  - repeat constructor.
  - destruct (lt (fst y) (fst x)) eqn:Hlt.
    + constructor; [exact IH |].
      apply insert_HdRel; [| exact Hy].
      unfold key_le. apply lt_asym. exact Hlt.
    + constructor.
      * constructor; assumption.
      * constructor. exact Hlt.
Qed.

Lemma sort_decorated_sorted (l : list (K * A)) :
  Sorted (key_le lt) (sort_decorated lt l).
Proof.
  induction l as [|x l IH]; simpl.
  - constructor.
  - apply insert_sorted. exact IH.
Qed.

(** Stability: the elements picked by a test [p] on keys that no strictly
    smaller key passes (such as "the key equals [k]") keep their order. *)
Variable p : K -> bool.
Hypothesis p_class : forall a b, lt a b = true -> p b = true -> p a = false.

Lemma insert_filter (x : K * A) (l : list (K * A)) :
  filter (fun y => p (fst y)) (insert lt x l) =
  filter (fun y => p (fst y)) (x :: l).
Proof.
  induction l as [|y l IH].
  - reflexivity.
  - cbn [insert]. destruct (lt (fst y) (fst x)) eqn:Hlt; [| reflexivity].
    cbn [filter] in *. rewrite IH.
    destruct (p (fst x)) eqn:Hx; [| reflexivity].
    rewrite (p_class _ _ Hlt Hx). reflexivity.
Qed.

Lemma sort_decorated_stable (l : list (K * A)) :
  filter (fun y => p (fst y)) (sort_decorated lt l) =
  filter (fun y => p (fst y)) l.
Proof.
  induction l as [|x l IH].
  - reflexivity.
  - cbn [sort_decorated]. rewrite insert_filter. cbn [filter].
    rewrite IH. reflexivity.
Qed.

End SortFacts.

(** ** Facts on the scan of the directory entries *)

Lemma photo_fold_scan (cls : PhotoCls) (path : string) (files : list string)
    (acc : list Photo) :
  fold_left (PhotoDiscovery.scan_step cls path) files acc =
  (acc ++ photo_scan cls path files)%list.
Proof.
  unfold photo_scan. revert acc.
  induction files as [|f files IH]; intros acc; simpl.
  - rewrite app_nil_r. reflexivity.
  - rewrite IH. unfold PhotoDiscovery.scan_step.
    destruct (PhotoDiscovery.is_candidate f); [| reflexivity].
    simpl.
    destruct (cls_photo_from_path cls (os_path.join path f)); simpl.
    + rewrite <- app_assoc. reflexivity.
    + reflexivity.
Qed.

Lemma video_fold_scan (path : string) (files : list string) (acc : list Video) :
  fold_left (VideoDiscoverer.scan_step path) files acc =
  (acc ++ video_scan path files)%list.
Proof.
  unfold video_scan. revert acc.
  induction files as [|f files IH]; intros acc; simpl.
  - rewrite app_nil_r. reflexivity.
  - rewrite IH. unfold VideoDiscoverer.scan_step.
    destruct (VideoDiscoverer.is_candidate f); [| reflexivity].
    simpl. rewrite <- app_assoc. reflexivity.
Qed.

Lemma plain_photo_scan (path : string) (files : list string) :
  photo_scan PhotoDiscovery.cls path files =
  map (fun file_path => new_Photo (os_path.join path file_path))
      (filter PhotoDiscovery.is_candidate files).
Proof.
  unfold photo_scan.
  induction (filter PhotoDiscovery.is_candidate files) as [|f l IH].
  - reflexivity.
  - cbn [flat_map map]. rewrite IH. reflexivity.
Qed.

(** What [discover] computes on a directory whose listing succeeds. *)
Lemma photo_discover_listed (cls : PhotoCls) (path : string) (w : World)
    (files : list string) :
  isdir w path = true ->
  listdir w path = Ok files ->
  fst (PhotoDiscovery.discover cls path w) =
  (photos <- cls_sort_photo_list cls (photo_scan cls path files) ;;
   Ok (PhotoDiscovery.assign_index photos 0, "photo")).
Proof.
  intros Hdir Hls. unfold PhotoDiscovery.discover. simpl.
  rewrite Hdir, Hls. simpl. rewrite photo_fold_scan. reflexivity.
Qed.

Lemma video_discover_listed (path : string) (w : World) (files : list string) :
  isdir w path = true ->
  listdir w path = Ok files ->
  fst (VideoDiscoverer.discover path w) =
  (videos <- VideoDiscoverer._sort_list (video_scan path files) ;;
   Ok (VideoDiscoverer.assign_index videos 0, "video")).
Proof.
  intros Hdir Hls. unfold VideoDiscoverer.discover.
  rewrite Hdir, Hls. simpl. rewrite video_fold_scan. reflexivity.
Qed.

(** ** Facts on the index assignment *)

Lemma photo_assign_index_path (photos : list Photo) (i : Z) :
  map (fun p : Photo => path p) (PhotoDiscovery.assign_index photos i) =
  map (fun p : Photo => path p) photos.
Proof.
  revert i. induction photos as [|p l IH]; intros i; simpl.
  - reflexivity.
  - rewrite IH. reflexivity.
Qed.

Lemma photo_assign_index_timestamp (photos : list Photo) (i : Z) :
  map osc_models.gps_timestamp (PhotoDiscovery.assign_index photos i) =
  map osc_models.gps_timestamp photos.
Proof.
  revert i. induction photos as [|p l IH]; intros i; simpl.
  - reflexivity.
  - rewrite IH. reflexivity.
Qed.

Lemma photo_assign_index_length (photos : list Photo) (i : Z) :
  length (PhotoDiscovery.assign_index photos i) = length photos.
Proof.
  revert i. induction photos as [|p l IH]; intros i; simpl.
  - reflexivity.
  - rewrite IH. reflexivity.
Qed.

Lemma photo_assign_index_index (photos : list Photo) (i : Z) :
  map (fun p : Photo => index p) (PhotoDiscovery.assign_index photos i) =
  index_range i (length photos).
Proof.
  revert i. induction photos as [|p l IH]; intros i; simpl.
  - reflexivity.
  - rewrite IH. reflexivity.
Qed.

Lemma video_assign_index_path (videos : list Video) (i : Z) :
  map (fun v : Video => path v) (VideoDiscoverer.assign_index videos i) =
  map (fun v : Video => path v) videos.
Proof.
  revert i. induction videos as [|v l IH]; intros i; simpl.
  - reflexivity.
  - rewrite IH. reflexivity.
Qed.

Lemma video_assign_index_length (videos : list Video) (i : Z) :
  length (VideoDiscoverer.assign_index videos i) = length videos.
Proof.
  revert i. induction videos as [|v l IH]; intros i; simpl.
  - reflexivity.
  - rewrite IH. reflexivity.
Qed.

Lemma video_assign_index_index (videos : list Video) (i : Z) :
  map (fun v : Video => index v) (VideoDiscoverer.assign_index videos i) =
  index_range i (length videos).
Proof.
  revert i. induction videos as [|v l IH]; intros i; simpl.
  - reflexivity.
  - rewrite IH. reflexivity.
Qed.

Lemma index_range_nth (n : nat) (i : Z) (k : nat) :
  (k < n)%nat -> nth_error (index_range i n) k = Some (Some (i + Z.of_nat k)).
Proof.
  revert i k. induction n as [|n IH]; intros i k Hk.
  - lia.
  - destruct k as [|k]; simpl.
    + do 2 f_equal. lia.
    + rewrite IH by lia. do 2 f_equal. lia.
Qed.

Lemma index_range_length (n : nat) (i : Z) : length (index_range i n) = n.
Proof.
  revert i. induction n as [|n IH]; intros i; simpl.
  - reflexivity.
  - rewrite IH. reflexivity.
Qed.

(** ** What [list.sort] returns *)

Section ListSortFacts.

Context {A K : Type}.
Variable lt : K -> K -> bool.
Variable key : A -> result K.

Lemma list_sort_total (l : list A) :
  Forall (fun a => exists k, key a = Ok k) l ->
  exists s, list_sort lt key l = Ok s.
Proof.
  intros H. destruct (decorate_total key l H) as [kl Hkl].
  unfold list_sort. rewrite Hkl. simpl. eexists. reflexivity.
Qed.

Lemma list_sort_raises (l : list A) (a : A) (e : exn) :
  In a l -> key a = Raise e -> exists e', list_sort lt key l = Raise e'.
Proof.
  intros Hin Ha. destruct (decorate_raises key l a e Hin Ha) as [e' He'].
  unfold list_sort. rewrite He'. exists e'. reflexivity.
Qed.

Lemma list_sort_perm (l s : list A) :
  list_sort lt key l = Ok s -> Permutation s l.
Proof.
  unfold list_sort. intros H.
  apply bind_Ok_inv in H. destruct H as (kl & Hkl & H).
  injection H as <-.
  rewrite <- (decorate_snd key l kl Hkl).
  apply Permutation_map. apply sort_decorated_perm.
Qed.

Lemma Sorted_key_le_fst (kl : list (K * A)) :
  Sorted (key_le lt) kl ->
  Sorted (fun a b => lt b a = false) (map fst kl).
Proof.
  induction 1 as [|x kl Hs IH Hx]; simpl.
  - constructor.
  - constructor; [exact IH |].
    destruct Hx; simpl; constructor. assumption.
Qed.

Lemma list_sort_keys (l s : list A) :
  (forall a b, lt a b = true -> lt b a = false) ->
  list_sort lt key l = Ok s ->
  exists ks, map key s = map Ok ks /\ Sorted (fun a b => lt b a = false) ks.
Proof.
  unfold list_sort. intros Hasym H.
  apply bind_Ok_inv in H. destruct H as (kl & Hkl & H).
  injection H as <-.
  exists (map fst (sort_decorated lt kl)). split.
  - assert (HF : Forall (fun x => key (snd x) = Ok (fst x)) (sort_decorated lt kl)).
    { apply Forall_forall. intros x Hx.
      pose proof (decorate_keys key l kl Hkl) as HF.
      rewrite Forall_forall in HF. apply HF.
      apply (Permutation_in x (sort_decorated_perm lt kl)). exact Hx. }
    induction HF as [|x kl' Hx _ IH]; simpl.
    + reflexivity.
    + rewrite Hx, IH. reflexivity.
  - apply Sorted_key_le_fst. apply sort_decorated_sorted. exact Hasym.
Qed.

Lemma filter_decorated (p : K -> bool) (kl : list (K * A)) :
  Forall (fun x => key (snd x) = Ok (fst x)) kl ->
  map snd (filter (fun y => p (fst y)) kl) =
  filter (key_passes key p) (map snd kl).
Proof.
  induction 1 as [|x kl Hx _ IH]; simpl.
  - reflexivity.
  - unfold key_passes at 1. rewrite Hx.
    destruct (p (fst x)); simpl; rewrite IH; reflexivity.
Qed.

Lemma list_sort_stable (p : K -> bool) (l s : list A) :
  (forall a b, lt a b = true -> p b = true -> p a = false) ->
  list_sort lt key l = Ok s ->
  filter (key_passes key p) s = filter (key_passes key p) l.
Proof.
  unfold list_sort. intros Hp H.
  apply bind_Ok_inv in H. destruct H as (kl & Hkl & H).
  injection H as <-.
  pose proof (decorate_keys key l kl Hkl) as HF.
  assert (HF' : Forall (fun x => key (snd x) = Ok (fst x)) (sort_decorated lt kl)).
  { apply Forall_forall. intros x Hx.
    rewrite Forall_forall in HF. apply HF.
    apply (Permutation_in x (sort_decorated_perm lt kl)). exact Hx. }
  rewrite <- (filter_decorated p _ HF').
  rewrite (sort_decorated_stable lt p Hp).
  rewrite (filter_decorated p _ HF).
  rewrite (decorate_snd key l kl Hkl). reflexivity.
Qed.

End ListSortFacts.

Lemma Sorted_impl {A : Type} (R S : A -> A -> Prop) (l : list A) :
  (forall a b, R a b -> S a b) -> Sorted R l -> Sorted S l.
Proof.
  intros HRS. induction 1 as [|x l Hs IH Hx].
  - constructor.
  - constructor; [exact IH |].
    destruct Hx; constructor. apply HRS. assumption.
Qed.

Lemma Zltb_asym (a b : Z) : (a <? b) = true -> (b <? a) = false.
Proof. intros H. apply Z.ltb_lt in H. apply Z.ltb_ge. lia. Qed.

(** The digit sort of both plain discoverers, on any record type. *)
Lemma digit_sort_keys {A : Type} (key : A -> result Z) (l s : list A) :
  list_sort Z.ltb key l = Ok s ->
  exists ks, map key s = map Ok ks /\ Sorted Z.le ks.
Proof.
  intros H. destruct (list_sort_keys Z.ltb key l s Zltb_asym H) as (ks & Hks & Hs).
  exists ks. split; [exact Hks |].
  apply Sorted_impl with (2 := Hs).
  intros a b Hab. apply Z.ltb_ge in Hab. exact Hab.
Qed.

(** ** What a call of [discover] that returns has done *)

Lemma photo_discover_Ok_inv (cls : PhotoCls) (path : string) (w : World)
    (rs : list Photo) (tag : string) :
  fst (PhotoDiscovery.discover cls path w) = Ok (rs, tag) ->
  tag = "photo" /\
  ((isdir w path = false /\ rs = []) \/
   (isdir w path = true /\
    exists files sorted,
      listdir w path = Ok files /\
      cls_sort_photo_list cls (photo_scan cls path files) = Ok sorted /\
      rs = PhotoDiscovery.assign_index sorted 0)).
Proof.
  destruct (isdir w path) eqn:Hdir.
  - destruct (listdir w path) as [files|e] eqn:Hls.
    + rewrite (photo_discover_listed cls path w files Hdir Hls).
      intros H. apply bind_Ok_inv in H. destruct H as (sorted & Hsorted & H).
      injection H as <- <-. split; [reflexivity |].
      right. split; [reflexivity |].
      exists files, sorted. repeat split; assumption.
    + unfold PhotoDiscovery.discover. simpl. rewrite Hdir, Hls. simpl.
      discriminate.
  - unfold PhotoDiscovery.discover. simpl. rewrite Hdir. simpl.
    intros H. injection H as <- <-. split; [reflexivity |].
    left. split; reflexivity.
Qed.

Lemma video_discover_Ok_inv (path : string) (w : World)
    (rs : list Video) (tag : string) :
  fst (VideoDiscoverer.discover path w) = Ok (rs, tag) ->
  tag = "video" /\
  ((isdir w path = false /\ rs = []) \/
   (isdir w path = true /\
    exists files sorted,
      listdir w path = Ok files /\
      VideoDiscoverer._sort_list (video_scan path files) = Ok sorted /\
      rs = VideoDiscoverer.assign_index sorted 0)).
Proof.
  destruct (isdir w path) eqn:Hdir.
  - destruct (listdir w path) as [files|e] eqn:Hls.
    + rewrite (video_discover_listed path w files Hdir Hls).
      intros H. apply bind_Ok_inv in H. destruct H as (sorted & Hsorted & H).
      injection H as <- <-. split; [reflexivity |].
      right. split; [reflexivity |].
      exists files, sorted. repeat split; assumption.
    + unfold VideoDiscoverer.discover. rewrite Hdir, Hls. simpl.
      discriminate.
  - unfold VideoDiscoverer.discover. rewrite Hdir. simpl.
    intros H. injection H as <- <-. split; [reflexivity |].
    left. split; reflexivity.
Qed.

Lemma index_range_seq (m n : nat) :
  index_range (Z.of_nat m) n = map (fun k => Some (Z.of_nat k)) (seq m n).
Proof.
  revert m. induction n as [|n IH]; intros m; simpl.
  - reflexivity.
  - f_equal. rewrite <- IH. f_equal. lia.
Qed.

(** ** Facts on strings and paths *)

Lemma startswith_spec (s p : string) :
  str.startswith s p = true <-> exists post, s = p ++ post.
Proof.
  revert s. induction p as [|a p IH]; intros s.
  - split; [intros _; exists s; reflexivity | intros _; destruct s; reflexivity].
  - destruct s as [|b s]; cbn [str.startswith].
    + split; [discriminate | intros [post H]; discriminate H].
    + rewrite andb_true_iff, Ascii.eqb_eq, IH. split.
      * intros [-> [post ->]]. exists post. reflexivity.
      * intros [post H]. injection H as -> ->. split; [reflexivity |].
        exists post. reflexivity.
Qed.

Lemma contains_spec (sub s : string) :
  str.contains sub s = true <-> substring_of sub s.
Proof.
  unfold substring_of. induction s as [|c s IH].
  - cbn [str.contains]. rewrite orb_false_r, startswith_spec. split.
    + intros [post H]. exists "", post. exact H.
    + intros (pre & post & H). destruct pre as [|a pre]; [| discriminate H].
      exists post. exact H.
  - cbn [str.contains]. rewrite orb_true_iff, startswith_spec, IH. split.
    + intros [[post H] | (pre & post & H)].
      * exists "", post. exact H.
      * exists (String c pre), post. simpl. rewrite H. reflexivity.
    + intros (pre & post & H). destruct pre as [|a pre].
      * left. exists post. exact H.
      * right. injection H as -> ->. exists pre, post. reflexivity.
Qed.

Lemma append_inv_head (a s t : string) : a ++ s = a ++ t -> s = t.
Proof.
  induction a as [|c a IH]; simpl; intros H.
  - exact H.
  - injection H as H. apply IH. exact H.
Qed.

Lemma entry_name_not_absolute (name : string) :
  is_entry_name name = true ->
  str.startswith name (String os_path.sep "") = false.
Proof.
  unfold is_entry_name. rewrite negb_true_iff.
  destruct name as [|c name]; simpl.
  - reflexivity.
  - intros H. apply orb_false_iff in H. apply H.
Qed.

Lemma join_inj (a f g : string) :
  is_entry_name f = true -> is_entry_name g = true ->
  os_path.join a f = os_path.join a g -> f = g.
Proof.
  intros Hf Hg. unfold os_path.join.
  rewrite (entry_name_not_absolute f Hf), (entry_name_not_absolute g Hg).
  destruct (String.eqb a "" || str.endswith_char a os_path.sep); intros H.
  - apply append_inv_head in H. exact H.
  - apply append_inv_head in H. injection H as H. exact H.
Qed.

Lemma int_from_decimal (l : list N) (acc : Z) :
  forallb is_decimal l = true -> exists k, str.int_from l acc = Ok k.
Proof.
  revert acc. induction l as [|c l IH]; intros acc H; cbn [str.int_from].
  - exists acc. reflexivity.
  - cbn [forallb] in H. apply andb_true_iff in H. destruct H as [Hc Hl].
    unfold is_decimal in Hc.
    destruct (unicode.decimal c) as [v|]; [| discriminate Hc].
    apply IH. exact Hl.
Qed.

Lemma int_from_undecimal (l : list N) (acc : Z) :
  forallb is_decimal l = false -> str.int_from l acc = Raise ValueError.
Proof.
  revert acc. induction l as [|c l IH]; intros acc H; cbn [str.int_from].
  - discriminate H.
  - cbn [forallb] in H. unfold is_decimal in H at 1.
    destruct (unicode.decimal c) as [v|]; [| reflexivity].
    apply IH. exact H.
Qed.

Lemma int_digits_Ok (name : string) :
  spells_number name = true ->
  exists k, str.int (str.filter str.isdigit name) = Ok k.
Proof.
  unfold spells_number, has_digit, decimal_digits, str.int. intros H.
  apply andb_true_iff in H. destruct H as [Hd Hdec].
  destruct (str.filter str.isdigit name) as [|c l] eqn:Hf.
  - discriminate Hd.
  - apply int_from_decimal. exact Hdec.
Qed.

Lemma int_digits_Raise (name : string) :
  spells_number name = false ->
  str.int (str.filter str.isdigit name) = Raise ValueError.
Proof.
  unfold spells_number, has_digit, decimal_digits, str.int. intros H.
  destruct (str.filter str.isdigit name) as [|c l] eqn:Hf.
  - reflexivity.
  - apply int_from_undecimal. exact H.
Qed.

Lemma append_assoc (a b c : string) : (a ++ b) ++ c = a ++ (b ++ c).
Proof.
  induction a as [|x a IH]; simpl.
  - reflexivity.
  - rewrite IH. reflexivity.
Qed.

Lemma rfind_from_app (s t : string) (c : ascii) (i last : Z) :
  str.rfind_from (s ++ t) c i last =
  str.rfind_from t c (i + Z.of_nat (String.length s)) (str.rfind_from s c i last).
Proof.
  revert i last. induction s as [|a s IH]; intros i last.
  - simpl. f_equal. lia.
  - cbn [append str.rfind_from String.length]. rewrite IH. f_equal. lia.
Qed.

Lemma entry_name_cons (a : ascii) (name : string) :
  is_entry_name (String a name) = true ->
  Ascii.eqb a os_path.sep = false /\ is_entry_name name = true.
Proof.
  unfold is_entry_name. rewrite !negb_true_iff.
  cbn [str.contains str.startswith]. intros H.
  apply orb_false_iff in H. destruct H as [H1 H2]. split; [| exact H2].
  rewrite Ascii.eqb_sym.
  destruct (Ascii.eqb os_path.sep a); [| reflexivity].
  destruct name; discriminate H1.
Qed.

Lemma rfind_from_entry_name (name : string) (i last : Z) :
  is_entry_name name = true ->
  str.rfind_from name os_path.sep i last = last.
Proof.
  revert i last. induction name as [|a name IH]; intros i last H.
  - reflexivity.
  - apply entry_name_cons in H. destruct H as [Ha Hname].
    cbn [str.rfind_from]. rewrite Ha. apply IH. exact Hname.
Qed.

Lemma drop_app_length (pre s : string) :
  str.drop (String.length pre) (pre ++ s) = s.
Proof.
  induction pre as [|a pre IH]; simpl.
  - destruct s; reflexivity.
  - exact IH.
Qed.

Lemma endswith_char_spec (s : string) (c : ascii) :
  str.endswith_char s c = true -> exists q, s = q ++ String c "".
Proof.
  induction s as [|a s IH]; cbn [str.endswith_char].
  - discriminate.
  - destruct s as [|b s].
    + intros H. apply Ascii.eqb_eq in H. subst a. exists "". reflexivity.
    + intros H. destruct (IH H) as [q Hq]. exists (String a q).
      simpl. rewrite <- Hq. reflexivity.
Qed.

(** [os.path.join] puts in front of an entry name a prefix that is empty or
    ends with the separator. *)
Lemma join_entry_name (a name : string) :
  is_entry_name name = true ->
  exists pre, os_path.join a name = pre ++ name /\
              (pre = "" \/ exists q, pre = q ++ String os_path.sep "").
Proof.
  intros Hname. unfold os_path.join.
  rewrite (entry_name_not_absolute name Hname).
  destruct (String.eqb a "") eqn:Ha; simpl.
  - apply String.eqb_eq in Ha. subst a. exists "". split; [reflexivity |].
    left. reflexivity.
  - destruct (str.endswith_char a os_path.sep) eqn:He.
    + exists a. split; [reflexivity |]. right.
      apply endswith_char_spec. exact He.
    + exists (a ++ String os_path.sep ""). split.
      * rewrite append_assoc. reflexivity.
      * right. exists a. reflexivity.
Qed.

(** The filename of a record is the entry name it was built from. *)
Lemma basename_join (a name : string) :
  is_entry_name name = true ->
  os_path.basename (os_path.join a name) = name.
Proof.
  intros Hname.
  destruct (join_entry_name a name Hname) as (pre & -> & [-> | [q ->]]).
  - unfold os_path.basename, str.rfind, str.slice_from. simpl append.
    rewrite rfind_from_entry_name by exact Hname.
    simpl. destruct name; reflexivity.
  - unfold os_path.basename, str.rfind, str.slice_from.
    rewrite rfind_from_app, rfind_from_entry_name by exact Hname.
    rewrite rfind_from_app. cbn [str.rfind_from].
    rewrite Ascii.eqb_refl.
    replace (Z.to_nat (0 + Z.of_nat (String.length q) + 1))
      with (String.length (q ++ String os_path.sep "")).
    + apply drop_app_length.
    + clear. induction q as [|x q IH]; simpl String.length.
      * reflexivity.
      * rewrite IH. lia.
Qed.

Lemma digit_key_join (a name : string) (i : option Z) :
  is_entry_name name = true ->
  digit_key (mkVisualData (os_path.join a name) i) =
  str.int (str.filter str.isdigit name).
Proof.
  intros Hname. unfold digit_key. simpl path.
  rewrite basename_join by exact Hname. reflexivity.
Qed.

(** * The claims, each after the lemmas it rests on *)

(** C3: for a path that is not an existing directory, every discoverer
    returns the empty list with its type tag, [([], "photo")] for the two
    photo policies and [([], "video")] for the video policy, and raises
    nothing. *)
Theorem C3_not_a_directory {E : exif_processing.ExifProcessing}
    (path : string) (w : World) :
  isdir w path = false ->
  fst (PhotoDiscovery_discover path w) = Ok ([], "photo") /\
  fst (ExifPhotoDiscoverer.discover path w) = Ok ([], "photo") /\
  fst (VideoDiscoverer.discover path w) = Ok ([], "video").
Proof.
  intros Hdir.
  unfold PhotoDiscovery_discover, ExifPhotoDiscoverer.discover,
    PhotoDiscovery.discover, VideoDiscoverer.discover.
  simpl. rewrite Hdir. simpl. repeat split.
Qed.

Lemma C3_not_a_directory_witness :
  isdir trip_world "/nowhere" = false /\
  fst (PhotoDiscovery_discover "/nowhere" trip_world) = Ok ([], "photo") /\
  fst (@ExifPhotoDiscoverer.discover trip_exif "/nowhere" trip_world) = Ok ([], "photo") /\
  fst (VideoDiscoverer.discover "/nowhere" trip_world) = Ok ([], "video").
Proof.
  split.
  - reflexivity.
  - apply (@C3_not_a_directory trip_exif "/nowhere" trip_world). reflexivity.
Defined.

(** C6: whenever a discovery call returns N records, their [index] fields
    are, in the order of the returned list, exactly 0, 1, ..., N-1: the
    first record has index 0 and there is neither a gap nor a duplicate.
    This holds for the plain and the metadata-validated photo discoverer and
    for the video discoverer. *)
Theorem C6_contiguous_indices {E : exif_processing.ExifProcessing}
    (path : string) (w : World) :
  (forall rs tag,
     fst (PhotoDiscovery_discover path w) = Ok (rs, tag) ->
     map (fun p : Photo => index p) rs =
     map (fun k => Some (Z.of_nat k)) (seq 0 (length rs))) /\
  (forall rs tag,
     fst (ExifPhotoDiscoverer.discover path w) = Ok (rs, tag) ->
     map (fun p : Photo => index p) rs =
     map (fun k => Some (Z.of_nat k)) (seq 0 (length rs))) /\
  (forall rs tag,
     fst (VideoDiscoverer.discover path w) = Ok (rs, tag) ->
     map (fun v : Video => index v) rs =
     map (fun k => Some (Z.of_nat k)) (seq 0 (length rs))).
Proof.
  assert (HP : forall cls rs tag,
             fst (PhotoDiscovery.discover cls path w) = Ok (rs, tag) ->
             map (fun p : Photo => index p) rs =
             map (fun k => Some (Z.of_nat k)) (seq 0 (length rs))).
  { intros cls rs tag H.
    apply photo_discover_Ok_inv in H.
    destruct H as [_ [[_ ->] | [_ (files & sorted & _ & _ & ->)]]].
    - reflexivity.
    - rewrite photo_assign_index_index, photo_assign_index_length.
      apply (index_range_seq 0). }
  split; [| split].
  - apply HP.
  - apply HP.
  - intros rs tag H.
    apply video_discover_Ok_inv in H.
    destruct H as [_ [[_ ->] | [_ (files & sorted & _ & _ & ->)]]].
    + reflexivity.
    + rewrite video_assign_index_index, video_assign_index_length.
      apply (index_range_seq 0).
Qed.

Lemma C6_contiguous_indices_witness :
  exists rs,
    fst (PhotoDiscovery_discover "/trip_2019" trip_world) = Ok (rs, "photo") /\
    length rs = 3%nat /\
    map (fun p : Photo => index p) rs = [Some 0; Some 1; Some 2].
Proof.
  eexists. split; [vm_compute; reflexivity |]. split; [reflexivity |].
  refine (proj1 (@C6_contiguous_indices trip_exif "/trip_2019" trip_world) _ "photo" _).
  vm_compute. reflexivity.
Defined.

(** ** A video candidate always has a digit character: the 4 of its extension *)

Lemma take_drop (n : nat) (s : string) : str.take n s ++ str.drop n s = s.
Proof.
  revert s. induction n as [|n IH]; intros s.
  - destruct s; reflexivity.
  - destruct s as [|c s]; simpl.
    + reflexivity.
    + rewrite IH. reflexivity.
Qed.

Lemma append_nil_r (s : string) : s ++ "" = s.
Proof.
  induction s as [|c s IH]; simpl.
  - reflexivity.
  - rewrite IH. reflexivity.
Qed.

Lemma splitext_loop_Some (p : string) (dotIndex : Z) (n : nat)
    (filenameIndex : Z) (r : string * string) :
  os_path.splitext_loop p dotIndex n filenameIndex = Some r ->
  r = (str.slice_to p dotIndex, str.slice_from p dotIndex).
Proof.
  revert filenameIndex. induction n as [|n IH]; intros i; simpl.
  - discriminate.
  - destruct (negb _).
    + intros H. injection H as <-. reflexivity.
    + apply IH.
Qed.

(** [root + ext == p] for [(root, ext) = os.path.splitext(p)]. *)
Lemma splitext_append (p : string) :
  fst (os_path.splitext p) ++ snd (os_path.splitext p) = p.
Proof.
  unfold os_path.splitext.
  assert (Hwhole : fst (p, str.slice_to p 0) ++ snd (p, str.slice_to p 0) = p).
  { simpl. unfold str.slice_to. simpl. destruct p; simpl.
    - reflexivity.
    - rewrite append_nil_r. reflexivity. }
  destruct (_ <? _); [| exact Hwhole].
  destruct (os_path.splitext_loop _ _ _ _) as [r|] eqn:Hl; [| exact Hwhole].
  apply splitext_loop_Some in Hl. subst r. simpl.
  apply take_drop.
Qed.

(** ** Decoding around an ASCII byte *)

Lemma cont_ascii (n : N) : (n < 0x80)%N -> utf8.cont n = false.
Proof.
  intros H. unfold utf8.cont. apply andb_false_iff. left.
  apply N.leb_gt. exact H.
Qed.

Lemma lead3_ascii (n1 n2 : N) : (n2 < 0x80)%N -> utf8.lead3 n1 n2 = false.
Proof.
  intros H. unfold utf8.lead3. rewrite (cont_ascii n2 H).
  replace (0xA0 <=? n2)%N with false by (symmetry; apply N.leb_gt; lia).
  replace (0x80 <=? n2)%N with false by (symmetry; apply N.leb_gt; lia).
  rewrite !andb_false_r. reflexivity.
Qed.

Lemma lead4_ascii (n1 n2 : N) : (n2 < 0x80)%N -> utf8.lead4 n1 n2 = false.
Proof.
  intros H. unfold utf8.lead4. rewrite (cont_ascii n2 H).
  replace (0x90 <=? n2)%N with false by (symmetry; apply N.leb_gt; lia).
  replace (0x80 <=? n2)%N with false by (symmetry; apply N.leb_gt; lia).
  rewrite !andb_false_r. reflexivity.
Qed.

Lemma decode_ascii_head (a : ascii) (s : string) :
  (N_of_ascii a < 0x80)%N ->
  utf8.decode (String a s) = N_of_ascii a :: utf8.decode s.
Proof.
  intros H. cbn [utf8.decode]. apply N.ltb_lt in H. rewrite H. reflexivity.
Qed.

(** An ASCII byte ends whatever sequence was under way: the bytes before it
    and the bytes after it decode apart. *)
Lemma decode_app_ascii_le (n : nat) (pre : string) (a : ascii) (post : string) :
  (String.length pre <= n)%nat ->
  (N_of_ascii a < 0x80)%N ->
  utf8.decode (pre ++ String a post) =
  (utf8.decode pre ++ N_of_ascii a :: utf8.decode post)%list.
Proof.
  revert pre. induction n as [|n IH]; intros pre Hlen Ha.
  - destruct pre; [| simpl in Hlen; lia].
    apply decode_ascii_head. exact Ha.
  - destruct pre as [|b1 p1]; [apply decode_ascii_head; exact Ha |].
    simpl String.length in Hlen.
    change (String b1 p1 ++ String a post) with (String b1 (p1 ++ String a post)).
    assert (IH1 := IH p1 ltac:(lia) Ha).
    cbn [utf8.decode].
    destruct (N_of_ascii b1 <? 0x80)%N; [cbn [app]; f_equal; exact IH1 |].
    destruct p1 as [|b2 p2].
    { (* the sequence is cut after one byte *)
      cbn [append app] in *. rewrite (cont_ascii _ Ha), andb_false_r.
      rewrite (lead3_ascii _ _ Ha), (lead4_ascii _ _ Ha).
      cbn [andb]. rewrite (decode_ascii_head a post Ha).
      destruct post as [|b3 [|b4 s4]]; reflexivity. }
    simpl String.length in Hlen.
    change (String b2 p2 ++ String a post) with (String b2 (p2 ++ String a post)) in *.
    cbv beta match zeta.
    destruct (utf8.lead2 (N_of_ascii b1) && utf8.cont (N_of_ascii b2)).
    { cbn [app]. f_equal. apply IH; [lia | exact Ha]. }
    destruct p2 as [|b3 p3].
    { (* cut after two bytes *)
      cbn [append app] in *. rewrite (cont_ascii _ Ha), !andb_false_r.
      rewrite IH1.
      destruct post as [|b4 s4]; reflexivity. }
    simpl String.length in Hlen.
    change (String b3 p3 ++ String a post) with (String b3 (p3 ++ String a post)) in *.
    cbv beta match zeta.
    destruct (utf8.lead3 (N_of_ascii b1) (N_of_ascii b2) && utf8.cont (N_of_ascii b3)).
    { cbn [app]. f_equal. apply IH; [lia | exact Ha]. }
    destruct p3 as [|b4 p4].
    { (* cut after three bytes *)
      cbn [append app] in *. rewrite (cont_ascii _ Ha), !andb_false_r.
      rewrite IH1. reflexivity. }
    simpl String.length in Hlen.
    change (String b4 p4 ++ String a post) with (String b4 (p4 ++ String a post)) in *.
    cbv beta match zeta.
    destruct (utf8.lead4 (N_of_ascii b1) (N_of_ascii b2) && utf8.cont (N_of_ascii b3)
              && utf8.cont (N_of_ascii b4)).
    { cbn [app]. f_equal. apply IH; [lia | exact Ha]. }
    cbn [app]. f_equal. exact IH1.
Qed.

Lemma decode_app_ascii (pre : string) (a : ascii) (post : string) :
  (N_of_ascii a < 0x80)%N ->
  utf8.decode (pre ++ String a post) =
  (utf8.decode pre ++ N_of_ascii a :: utf8.decode post)%list.
Proof. apply (decode_app_ascii_le (String.length pre)). apply Nat.le_refl. Qed.

Lemma filter_app_ascii (f : N -> bool) (pre : string) (a : ascii) (post : string) :
  (N_of_ascii a < 0x80)%N ->
  str.filter f (pre ++ String a post) =
  (str.filter f pre ++ List.filter f [N_of_ascii a] ++ str.filter f post)%list.
Proof.
  intros Ha. unfold str.filter, str.chars.
  rewrite (decode_app_ascii pre a post Ha).
  rewrite filter_app. cbn [List.filter].
  destruct (f (N_of_ascii a)); reflexivity.
Qed.

Lemma video_candidate_has_digit (name : string) :
  VideoDiscoverer.is_candidate name = true -> has_digit name = true.
Proof.
  unfold VideoDiscoverer.is_candidate. intros H.
  pose proof (splitext_append name) as Hname.
  destruct (os_path.splitext name) as [root ext]. simpl in Hname.
  apply contains_spec in H. destruct H as (pre & post & ->).
  unfold has_digit. rewrite <- Hname.
  replace (root ++ pre ++ "mp4" ++ post)
    with ((root ++ pre ++ "mp") ++ String "4" post)
    by (rewrite !append_assoc; reflexivity).
  rewrite filter_app_ascii by reflexivity.
  change (List.filter str.isdigit [N_of_ascii "4"]) with [52%N].
  destruct (str.filter str.isdigit (root ++ pre ++ "mp")); reflexivity.
Qed.

Lemma video_digits_in_candidates (files : list string) :
  decimal_in_candidates VideoDiscoverer.is_candidate files ->
  digits_in_candidates VideoDiscoverer.is_candidate files.
Proof.
  unfold decimal_in_candidates, digits_in_candidates. apply Forall_impl.
  intros f [Hf Hdec]. split; [exact Hf |]. intros Hc.
  unfold spells_number.
  rewrite (video_candidate_has_digit f Hc), (Hdec Hc). reflexivity.
Qed.

(** ** The plain discoverers on a directory whose candidates all have digits *)

Lemma digit_key_new_Photo (a name : string) :
  is_entry_name name = true ->
  digit_key (new_Photo (os_path.join a name)) =
  str.int (str.filter str.isdigit name).
Proof. intros H. unfold new_Photo. cbn [visual_data]. apply digit_key_join, H. Qed.

Lemma digit_key_new_Video (a name : string) :
  is_entry_name name = true ->
  digit_key (new_Video (os_path.join a name)) =
  str.int (str.filter str.isdigit name).
Proof. intros H. unfold new_Video. cbn [video_data]. apply digit_key_join, H. Qed.

Lemma photo_assign_index_digit_key (photos : list Photo) (i : Z) :
  map (fun p : Photo => digit_key p) (PhotoDiscovery.assign_index photos i) =
  map (fun p : Photo => digit_key p) photos.
Proof.
  revert i. induction photos as [|p l IH]; intros i; simpl.
  - reflexivity.
  - rewrite IH. reflexivity.
Qed.

Lemma video_assign_index_digit_key (videos : list Video) (i : Z) :
  map (fun v : Video => digit_key v) (VideoDiscoverer.assign_index videos i) =
  map (fun v : Video => digit_key v) videos.
Proof.
  revert i. induction videos as [|v l IH]; intros i; simpl.
  - reflexivity.
  - rewrite IH. reflexivity.
Qed.

Lemma plain_photo_keys_total (path : string) (files : list string) :
  digits_in_candidates PhotoDiscovery.is_candidate files ->
  Forall (fun p : Photo => exists k, digit_key p = Ok k)
         (photo_scan PhotoDiscovery.cls path files).
Proof.
  rewrite plain_photo_scan. unfold digits_in_candidates.
  induction 1 as [|f files [Hname Hdigit] _ IH]; simpl.
  - constructor.
  - destruct (PhotoDiscovery.is_candidate f) eqn:Hc; [| exact IH].
    simpl. constructor; [| exact IH].
    rewrite digit_key_new_Photo by exact Hname.
    apply int_digits_Ok. apply Hdigit. reflexivity.
Qed.

Lemma video_keys_total (path : string) (files : list string) :
  digits_in_candidates VideoDiscoverer.is_candidate files ->
  Forall (fun v : Video => exists k, digit_key v = Ok k)
         (video_scan path files).
Proof.
  unfold video_scan, digits_in_candidates.
  induction 1 as [|f files [Hname Hdigit] _ IH]; simpl.
  - constructor.
  - destruct (VideoDiscoverer.is_candidate f) eqn:Hc; [| exact IH].
    simpl. constructor; [| exact IH].
    rewrite digit_key_new_Video by exact Hname.
    apply int_digits_Ok. apply Hdigit. reflexivity.
Qed.

Lemma plain_photo_returns (path : string) (w : World) (files : list string) :
  isdir w path = true ->
  listdir w path = Ok files ->
  digits_in_candidates PhotoDiscovery.is_candidate files ->
  exists sorted,
    PhotoDiscovery._sort_photo_list (photo_scan PhotoDiscovery.cls path files)
      = Ok sorted /\
    fst (PhotoDiscovery_discover path w) =
      Ok (PhotoDiscovery.assign_index sorted 0, "photo").
Proof.
  intros Hdir Hls Hd.
  destruct (list_sort_total Z.ltb (fun p : Photo => digit_key p) _
              (plain_photo_keys_total path files Hd)) as [sorted Hs].
  exists sorted. split; [exact Hs |].
  unfold PhotoDiscovery_discover.
  rewrite (photo_discover_listed _ path w files Hdir Hls).
  cbn [cls_sort_photo_list PhotoDiscovery.cls].
  unfold PhotoDiscovery._sort_photo_list. rewrite Hs. reflexivity.
Qed.

Lemma video_returns (path : string) (w : World) (files : list string) :
  isdir w path = true ->
  listdir w path = Ok files ->
  digits_in_candidates VideoDiscoverer.is_candidate files ->
  exists sorted,
    VideoDiscoverer._sort_list (video_scan path files) = Ok sorted /\
    fst (VideoDiscoverer.discover path w) =
      Ok (VideoDiscoverer.assign_index sorted 0, "video").
Proof.
  intros Hdir Hls Hd.
  destruct (list_sort_total Z.ltb (fun v : Video => digit_key v) _
              (video_keys_total path files Hd)) as [sorted Hs].
  exists sorted. split; [exact Hs |].
  rewrite (video_discover_listed path w files Hdir Hls).
  unfold VideoDiscoverer._sort_list. rewrite Hs. reflexivity.
Qed.

Lemma Permutation_three {A : Type} (a b c : A) (l : list A) :
  NoDup [a; b; c] ->
  Permutation l [a; b; c] ->
  In l [[a; b; c]; [a; c; b]; [b; a; c]; [b; c; a]; [c; a; b]; [c; b; a]].
Proof.
  intros Hnd Hp.
  pose proof (Permutation_length Hp) as Hlen.
  destruct l as [|x [|y [|z [|? ?]]]]; try discriminate Hlen.
  assert (Hnd' : NoDup [x; y; z]).
  { apply (Permutation_NoDup (Permutation_sym Hp)). exact Hnd. }
  assert (Hx : In x [a; b; c]) by (apply (Permutation_in _ Hp); simpl; auto).
  assert (Hy : In y [a; b; c]) by (apply (Permutation_in _ Hp); simpl; auto).
  assert (Hz : In z [a; b; c]) by (apply (Permutation_in _ Hp); simpl; auto).
  inversion Hnd' as [|? ? Hx' Hnd'']; subst.
  inversion Hnd'' as [|? ? Hy' _]; subst.
  simpl in Hx, Hy, Hz, Hx', Hy'.
  destruct Hx as [<- | [<- | [<- | []]]];
  destruct Hy as [<- | [<- | [<- | []]]];
  destruct Hz as [<- | [<- | [<- | []]]];
  simpl; tauto.
Qed.

Lemma photo_summary_assigned (sorted : list Photo) (tag : string) :
  photo_summary (Ok (PhotoDiscovery.assign_index sorted 0, tag)) =
  Ok (numbered (map (fun p : Photo => osc_models.path p) sorted) 0, tag).
Proof.
  unfold photo_summary. cbn [bind fst snd]. f_equal. f_equal.
  generalize 0. induction sorted as [|p l IH]; intros i; simpl.
  - reflexivity.
  - rewrite IH. reflexivity.
Qed.

Lemma video_summary_assigned (sorted : list Video) (tag : string) :
  video_summary (Ok (VideoDiscoverer.assign_index sorted 0, tag)) =
  Ok (numbered (map (fun v : Video => osc_models.path v) sorted) 0, tag).
Proof.
  unfold video_summary. cbn [bind fst snd]. f_equal. f_equal.
  generalize 0. induction sorted as [|v l IH]; intros i; simpl.
  - reflexivity.
  - rewrite IH. reflexivity.
Qed.

(** The digit sort of the records built from entry names puts the names in
    the ascending order of the integers that the names themselves spell. *)
Lemma sorted_by_names {A : Type} (build : string -> A) (data : A -> VisualData)
    (path : string) (cands : list string) (sorted : list A) :
  (forall f, osc_models.path (data (build (os_path.join path f))) =
             os_path.join path f) ->
  Forall (fun f => is_entry_name f = true) cands ->
  list_sort Z.ltb (fun a => digit_key (data a))
            (map (fun f => build (os_path.join path f)) cands) = Ok sorted ->
  exists names keys,
    sorted = map (fun f => build (os_path.join path f)) names /\
    Permutation names cands /\
    map (fun f => str.int (str.filter str.isdigit f)) names = map Ok keys /\
    Sorted Z.le keys.
Proof.
  intros Hpath Hnames Hs.
  destruct (digit_sort_keys _ _ _ Hs) as (keys & Hk & Hsorted).
  destruct (Permutation_map_inv _ _ (list_sort_perm _ _ _ _ Hs))
    as (names & Heq & Hperm).
  exists names, keys. split; [exact Heq |].
  split; [apply Permutation_sym; exact Hperm |].
  split; [| exact Hsorted].
  rewrite <- Hk, Heq, map_map. apply map_ext_in. intros f Hf.
  unfold digit_key. rewrite Hpath, basename_join; [reflexivity |].
  rewrite Forall_forall in Hnames. apply Hnames.
  apply (Permutation_in _ (Permutation_sym Hperm)). exact Hf.
Qed.

Lemma candidates_are_names (candidate : string -> bool) (files : list string) :
  Forall (fun f => is_entry_name f = true) files ->
  Forall (fun f => is_entry_name f = true) (filter candidate files).
Proof.
  rewrite !Forall_forall. intros H f Hf. apply filter_In in Hf. apply H, Hf.
Qed.

Lemma digits_in_candidates_names (candidate : string -> bool)
    (files : list string) :
  digits_in_candidates candidate files ->
  Forall (fun f => is_entry_name f = true) files.
Proof.
  unfold digits_in_candidates. apply Forall_impl. intros f [H _]. exact H.
Qed.

(** C2, as the claim states it, fails: it promises sorted records for every
    directory, and for the key reads the decimal digits only.  The listing of
    [/scans] succeeds and plain photo discovery returns no record at all: it
    raises [ValueError] for [cover.jpg], whose name has no digit.  In
    [/powers] every name has a decimal digit, yet discovery raises
    [ValueError] as well: the filter keeps the superscript two of
    [img_²1.jpg], which is a digit character that [int] does not read. *)
Lemma C2_counterexample :
  listdir scans_world "/scans" = Ok ["page_2.jpg"; "cover.jpg"; "page_1.jpg"] /\
  fst (PhotoDiscovery_discover "/scans" scans_world) = Raise ValueError /\
  listdir scans_world "/powers" = Ok ["img_²1.jpg"; "img_3.jpg"] /\
  str.filter str.isdigit "img_²1.jpg" = [178%N; 49%N] /\
  fst (PhotoDiscovery_discover "/powers" scans_world) = Raise ValueError.
Proof. repeat split; vm_compute; reflexivity. Qed.

(** C2 (amended): for every directory in which the digit characters of
    every candidate's filename spell a number (at least one digit character
    for a photo, all of them decimal digits), plain photo discovery and
    video discovery return the records of exactly the candidates, sorted
    ascending by the integer obtained by concatenating, in order, every
    digit character of the record's filename: the entry name, not the full
    path.  Whatever list either discoverer returns, for any path, has
    ascending keys.  A directory that holds exactly img_2.jpg, img_10.jpg
    and img_1.jpg, listed in any order, yields them in the order 1, 2, 10
    with the indices 0, 1, 2; and in the directory [/d1] the entry [01.jpg]
    comes before [9.jpg], the digit of the directory playing no part. *)
Theorem C2_digit_order :
  (forall path w files,
     isdir w path = true ->
     listdir w path = Ok files ->
     digits_in_candidates PhotoDiscovery.is_candidate files ->
     exists names keys,
       Permutation names (filter PhotoDiscovery.is_candidate files) /\
       map (fun f => str.int (str.filter str.isdigit f)) names = map Ok keys /\
       Sorted Z.le keys /\
       photo_summary (fst (PhotoDiscovery_discover path w)) =
       Ok (numbered (map (os_path.join path) names) 0, "photo")) /\
  (forall path w files,
     isdir w path = true ->
     listdir w path = Ok files ->
     decimal_in_candidates VideoDiscoverer.is_candidate files ->
     exists names keys,
       Permutation names (filter VideoDiscoverer.is_candidate files) /\
       map (fun f => str.int (str.filter str.isdigit f)) names = map Ok keys /\
       Sorted Z.le keys /\
       video_summary (fst (VideoDiscoverer.discover path w)) =
       Ok (numbered (map (os_path.join path) names) 0, "video")) /\
  (forall path w photos tag,
     fst (PhotoDiscovery_discover path w) = Ok (photos, tag) ->
     exists keys,
       map (fun p : Photo => digit_key p) photos = map Ok keys /\
       Sorted Z.le keys) /\
  (forall path w videos tag,
     fst (VideoDiscoverer.discover path w) = Ok (videos, tag) ->
     exists keys,
       map (fun v : Video => digit_key v) videos = map Ok keys /\
       Sorted Z.le keys) /\
  (forall path w files,
     isdir w path = true ->
     listdir w path = Ok files ->
     Permutation files ["img_2.jpg"; "img_10.jpg"; "img_1.jpg"] ->
     photo_summary (fst (PhotoDiscovery_discover path w)) =
     Ok ([(os_path.join path "img_1.jpg", Some 0);
          (os_path.join path "img_2.jpg", Some 1);
          (os_path.join path "img_10.jpg", Some 2)], "photo")) /\
  (photo_summary (fst (PhotoDiscovery_discover "/d1" d1_world)) =
     Ok ([("/d1/01.jpg", Some 0); ("/d1/9.jpg", Some 1)], "photo") /\
   video_summary (fst (VideoDiscoverer.discover "/d1" d1_world)) =
     Ok ([("/d1/01.mp4", Some 0); ("/d1/9.mp4", Some 1)], "video")).
Proof.
  split; [| split; [| split; [| split; [| split]]]].
  - intros path w files Hdir Hls Hd.
    destruct (plain_photo_returns path w files Hdir Hls Hd) as (sorted & Hs & Hr).
    unfold PhotoDiscovery._sort_photo_list in Hs. rewrite plain_photo_scan in Hs.
    destruct (sorted_by_names new_Photo (fun p : Photo => visual_data p) path
                (filter PhotoDiscovery.is_candidate files) sorted
                (fun f => eq_refl)
                (candidates_are_names _ _ (digits_in_candidates_names _ _ Hd)) Hs)
      as (names & keys & -> & Hperm & Hkeys & Hsorted).
    exists names, keys. repeat split; try assumption.
    rewrite Hr, photo_summary_assigned, map_map. reflexivity.
  - intros path w files Hdir Hls Hd.
    pose proof (video_digits_in_candidates files Hd) as Hd'.
    destruct (video_returns path w files Hdir Hls Hd') as (sorted & Hs & Hr).
    unfold VideoDiscoverer._sort_list, video_scan in Hs.
    destruct (sorted_by_names new_Video (fun v : Video => video_data v) path
                (filter VideoDiscoverer.is_candidate files) sorted
                (fun f => eq_refl)
                (candidates_are_names _ _ (digits_in_candidates_names _ _ Hd')) Hs)
      as (names & keys & -> & Hperm & Hkeys & Hsorted).
    exists names, keys. repeat split; try assumption.
    rewrite Hr, video_summary_assigned, map_map. reflexivity.
  - intros path w photos tag H.
    apply photo_discover_Ok_inv in H.
    destruct H as [_ [[_ ->] | [_ (files & sorted & _ & Hs & ->)]]].
    + exists []. split; [reflexivity | constructor].
    + destruct (digit_sort_keys _ _ _ Hs) as (keys & Hk & Hsorted).
      exists keys. rewrite photo_assign_index_digit_key.
      split; assumption.
  - intros path w videos tag H.
    apply video_discover_Ok_inv in H.
    destruct H as [_ [[_ ->] | [_ (files & sorted & _ & Hs & ->)]]].
    + exists []. split; [reflexivity | constructor].
    + destruct (digit_sort_keys _ _ _ Hs) as (keys & Hk & Hsorted).
      exists keys. rewrite video_assign_index_digit_key.
      split; assumption.
  - intros path w files Hdir Hls Hp.
    unfold PhotoDiscovery_discover.
    rewrite (photo_discover_listed _ path w files Hdir Hls), plain_photo_scan.
    cbn [cls_sort_photo_list PhotoDiscovery.cls].
    unfold PhotoDiscovery._sort_photo_list, list_sort.
    apply Permutation_three in Hp.
    + simpl in Hp.
      destruct Hp as [<- | [<- | [<- | [<- | [<- | [<- | []]]]]]];
        cbn [filter map decorate];
        repeat match goal with
        | |- context [PhotoDiscovery.is_candidate ?f] =>
            let b := eval vm_compute in (PhotoDiscovery.is_candidate f) in
            change (PhotoDiscovery.is_candidate f) with b
        end;
        cbn [filter map decorate];
        rewrite !digit_key_new_Photo by reflexivity;
        vm_compute; reflexivity.
    + repeat constructor; simpl; intros H;
        repeat (destruct H as [H | H]; [discriminate H |]); exact H.
  - split; vm_compute; reflexivity.
Qed.

Lemma C2_digit_order_witness :
  exists names keys,
    Permutation names ["img_2.jpg"; "img_10.jpg"; "img_1.jpg"] /\
    map (fun f => str.int (str.filter str.isdigit f)) names = map Ok keys /\
    Sorted Z.le keys /\
    photo_summary (fst (PhotoDiscovery_discover "/trip_2019" trip_world)) =
    Ok (numbered (map (os_path.join "/trip_2019") names) 0, "photo").
Proof.
  refine (proj1 C2_digit_order "/trip_2019" trip_world
            ["img_2.jpg"; "clip_3.mp4"; "img_10.jpg"; "thumb_5.jpg"; "img_1.jpg"]
            _ _ _).
  - reflexivity.
  - reflexivity.
  - repeat (constructor; [split; [reflexivity | intros _; reflexivity] |]).
    constructor.
Defined.

(** ** The metadata-validated discoverer always returns *)

Lemma exif_sort_total {E : exif_processing.ExifProcessing} (photos : list Photo) :
  exists sorted, ExifPhotoDiscoverer._sort_photo_list photos = Ok sorted.
Proof.
  apply list_sort_total. apply Forall_forall. intros p _.
  exists (osc_models.gps_timestamp p). reflexivity.
Qed.

Lemma exif_returns {E : exif_processing.ExifProcessing}
    (path : string) (w : World) (files : list string) :
  isdir w path = true ->
  listdir w path = Ok files ->
  exists sorted,
    ExifPhotoDiscoverer._sort_photo_list
      (photo_scan ExifPhotoDiscoverer.cls path files) = Ok sorted /\
    fst (ExifPhotoDiscoverer.discover path w) =
      Ok (PhotoDiscovery.assign_index sorted 0, "photo").
Proof.
  intros Hdir Hls.
  destruct (exif_sort_total (photo_scan ExifPhotoDiscoverer.cls path files))
    as [sorted Hs].
  exists sorted. split; [exact Hs |].
  unfold ExifPhotoDiscoverer.discover.
  rewrite (photo_discover_listed _ path w files Hdir Hls).
  cbn [cls_sort_photo_list ExifPhotoDiscoverer.cls].
  rewrite Hs. reflexivity.
Qed.

(** C7, as the claim states it, fails: the listing of [/album] succeeds, and
    the candidate [holiday.jpg], whose name has no digit, makes plain photo
    discovery raise [ValueError].  Video discovery raises it over [/reel],
    whose listing succeeds too, for the candidate [clip².mp4]: the superscript
    two is a digit character that [int] does not read. *)
Lemma C7_counterexample :
  listdir album_world "/album" =
    Ok ["holiday.jpg"; "clip.mp4"; "dir1.jpg"; "dir2.mp4"] /\
  PhotoDiscovery.is_candidate "holiday.jpg" = true /\
  fst (PhotoDiscovery_discover "/album" album_world) = Raise ValueError /\
  listdir reel_world "/reel" = Ok ["clip².mp4"; "dir2.mp4"] /\
  VideoDiscoverer.is_candidate "clip².mp4" = true /\
  fst (VideoDiscoverer.discover "/reel" reel_world) = Raise ValueError.
Proof. repeat split; vm_compute; reflexivity. Qed.

(** C7 (amended): over a directory whose listing succeeds, plain photo
    discovery completes and returns a result when the digit characters of
    every candidate filename spell a number (there is at least one, and all
    of them are decimal digits), and video discovery completes and returns a
    result when every digit character of every candidate filename is a
    decimal digit (a video candidate always has the digit 4 of its
    extension). *)
Theorem C7_returns_with_digits (path : string) (w : World) (files : list string) :
  isdir w path = true ->
  listdir w path = Ok files ->
  (digits_in_candidates PhotoDiscovery.is_candidate files ->
   exists rs, fst (PhotoDiscovery_discover path w) = Ok (rs, "photo")) /\
  (decimal_in_candidates VideoDiscoverer.is_candidate files ->
   exists rs, fst (VideoDiscoverer.discover path w) = Ok (rs, "video")).
Proof.
  intros Hdir Hls. split.
  - intros Hd.
    destruct (plain_photo_returns path w files Hdir Hls Hd) as (sorted & _ & Hr).
    eexists. exact Hr.
  - intros Hd.
    destruct (video_returns path w files Hdir Hls
                (video_digits_in_candidates files Hd)) as (sorted & _ & Hr).
    eexists. exact Hr.
Qed.

Lemma C7_returns_with_digits_witness :
  isdir trip_world "/trip_2019" = true /\
  (exists rs, fst (PhotoDiscovery_discover "/trip_2019" trip_world) = Ok (rs, "photo")) /\
  (exists rs, fst (VideoDiscoverer.discover "/trip_2019" trip_world) = Ok (rs, "video")).
Proof.
  split; [reflexivity |].
  pose proof (C7_returns_with_digits "/trip_2019" trip_world
                ["img_2.jpg"; "clip_3.mp4"; "img_10.jpg"; "thumb_5.jpg"; "img_1.jpg"]
                eq_refl eq_refl) as (H1 & H2).
  split.
  - apply H1.
    repeat (constructor; [split; [reflexivity | intros _; reflexivity] |]).
    constructor.
  - apply H2.
    repeat (constructor; [split; [reflexivity | intros _; reflexivity] |]).
    constructor.
Defined.

(** ** The paths of the returned records *)

Lemma photo_result_paths (cls : PhotoCls) (path : string) (w : World)
    (files : list string) (rs : list Photo) (tag : string) :
  (forall l s, cls_sort_photo_list cls l = Ok s -> Permutation s l) ->
  isdir w path = true ->
  listdir w path = Ok files ->
  fst (PhotoDiscovery.discover cls path w) = Ok (rs, tag) ->
  Permutation (map (fun p : Photo => osc_models.path p) rs)
              (map (fun p : Photo => osc_models.path p) (photo_scan cls path files)).
Proof.
  intros Hsort Hdir Hls H.
  rewrite (photo_discover_listed cls path w files Hdir Hls) in H.
  apply bind_Ok_inv in H. destruct H as (sorted & Hs & H).
  injection H as <- _.
  rewrite photo_assign_index_path.
  apply Permutation_map. apply Hsort. exact Hs.
Qed.

Lemma plain_sort_perm (l s : list Photo) :
  cls_sort_photo_list PhotoDiscovery.cls l = Ok s -> Permutation s l.
Proof. apply list_sort_perm. Qed.

Lemma exif_sort_perm {E : exif_processing.ExifProcessing} (l s : list Photo) :
  cls_sort_photo_list ExifPhotoDiscoverer.cls l = Ok s -> Permutation s l.
Proof. apply list_sort_perm. Qed.

Lemma video_result_paths (path : string) (w : World)
    (files : list string) (rs : list Video) (tag : string) :
  isdir w path = true ->
  listdir w path = Ok files ->
  fst (VideoDiscoverer.discover path w) = Ok (rs, tag) ->
  Permutation (map (fun v : Video => osc_models.path v) rs)
              (map (os_path.join path) (filter VideoDiscoverer.is_candidate files)).
Proof.
  intros Hdir Hls H.
  rewrite (video_discover_listed path w files Hdir Hls) in H.
  apply bind_Ok_inv in H. destruct H as (sorted & Hs & H).
  injection H as <- _.
  rewrite video_assign_index_path.
  apply list_sort_perm in Hs. unfold video_scan in Hs.
  apply (Permutation_map (fun v : Video => osc_models.path v)) in Hs.
  rewrite map_map in Hs. exact Hs.
Qed.

Lemma plain_photo_result_paths (path : string) (w : World)
    (files : list string) (rs : list Photo) (tag : string) :
  isdir w path = true ->
  listdir w path = Ok files ->
  fst (PhotoDiscovery_discover path w) = Ok (rs, tag) ->
  Permutation (map (fun p : Photo => osc_models.path p) rs)
              (map (os_path.join path) (filter PhotoDiscovery.is_candidate files)).
Proof.
  intros Hdir Hls H.
  pose proof (photo_result_paths _ path w files rs tag plain_sort_perm Hdir Hls H)
    as Hp.
  rewrite plain_photo_scan, map_map in Hp. exact Hp.
Qed.

(** C10, as the claim states it, fails: [/album] holds the subdirectory
    [dir1.jpg], whose name passes the photo filter, and plain photo discovery
    returns no list at all, since [holiday.jpg] beside it makes the digit
    sort raise; [/reel] holds the subdirectory [dir2.mp4], whose name passes
    the video filter, and video discovery raises for the superscript two of
    [clip².mp4]. *)
Lemma C10_counterexample :
  listdir album_world "/album" =
    Ok ["holiday.jpg"; "clip.mp4"; "dir1.jpg"; "dir2.mp4"] /\
  isdir album_world (os_path.join "/album" "dir1.jpg") = true /\
  PhotoDiscovery.is_candidate "dir1.jpg" = true /\
  fst (PhotoDiscovery_discover "/album" album_world) = Raise ValueError /\
  listdir reel_world "/reel" = Ok ["clip².mp4"; "dir2.mp4"] /\
  isdir reel_world (os_path.join "/reel" "dir2.mp4") = true /\
  VideoDiscoverer.is_candidate "dir2.mp4" = true /\
  fst (VideoDiscoverer.discover "/reel" reel_world) = Raise ValueError.
Proof. repeat split; vm_compute; reflexivity. Qed.

(** C10 (amended): candidate filtering is by entry name only and never
    checks that the entry is a regular file: for every directory containing
    a subdirectory whose name passes the extension/name filter, for example
    a subdirectory named dir1.jpg, every list that plain photo discovery or
    video discovery returns includes a record for it; and discovery does
    return a list when the digit characters of every candidate filename
    spell a number (for a photo at least one digit character, and all of
    them decimal digits). *)
Theorem C10_entry_kind_unchecked (path : string) (w : World)
    (files : list string) (name : string) :
  isdir w path = true ->
  listdir w path = Ok files ->
  In name files ->
  isdir w (os_path.join path name) = true ->
  (PhotoDiscovery.is_candidate name = true ->
   (forall rs tag,
      fst (PhotoDiscovery_discover path w) = Ok (rs, tag) ->
      In (os_path.join path name) (map (fun p : Photo => osc_models.path p) rs)) /\
   (digits_in_candidates PhotoDiscovery.is_candidate files ->
    exists rs,
      fst (PhotoDiscovery_discover path w) = Ok (rs, "photo") /\
      In (os_path.join path name) (map (fun p : Photo => osc_models.path p) rs))) /\
  (VideoDiscoverer.is_candidate name = true ->
   (forall rs tag,
      fst (VideoDiscoverer.discover path w) = Ok (rs, tag) ->
      In (os_path.join path name) (map (fun v : Video => osc_models.path v) rs)) /\
   (decimal_in_candidates VideoDiscoverer.is_candidate files ->
    exists rs,
      fst (VideoDiscoverer.discover path w) = Ok (rs, "video") /\
      In (os_path.join path name) (map (fun v : Video => osc_models.path v) rs))).
Proof.
  intros Hdir Hls Hin _. split.
  - intros Hc.
    assert (Hall : forall rs tag,
               fst (PhotoDiscovery_discover path w) = Ok (rs, tag) ->
               In (os_path.join path name)
                  (map (fun p : Photo => osc_models.path p) rs)).
    { intros rs tag Hr.
      apply (Permutation_in _
               (Permutation_sym (plain_photo_result_paths _ _ _ _ _ Hdir Hls Hr))).
      apply in_map. apply filter_In. split; assumption. }
    split; [exact Hall |].
    intros Hd.
    destruct (plain_photo_returns path w files Hdir Hls Hd) as (sorted & _ & Hr).
    eexists. split; [exact Hr |]. exact (Hall _ _ Hr).
  - intros Hc.
    assert (Hall : forall rs tag,
               fst (VideoDiscoverer.discover path w) = Ok (rs, tag) ->
               In (os_path.join path name)
                  (map (fun v : Video => osc_models.path v) rs)).
    { intros rs tag Hr.
      apply (Permutation_in _
               (Permutation_sym (video_result_paths _ _ _ _ _ Hdir Hls Hr))).
      apply in_map. apply filter_In. split; assumption. }
    split; [exact Hall |].
    intros Hd.
    destruct (video_returns path w files Hdir Hls
                (video_digits_in_candidates files Hd)) as (sorted & _ & Hr).
    eexists. split; [exact Hr |]. exact (Hall _ _ Hr).
Qed.

Lemma C10_entry_kind_unchecked_witness :
  isdir shelf_world "/shelf/dir1.jpg" = true /\
  isdir shelf_world "/shelf/dir2.mp4" = true /\
  (exists rs,
     fst (PhotoDiscovery_discover "/shelf" shelf_world) = Ok (rs, "photo") /\
     In "/shelf/dir1.jpg" (map (fun p : Photo => osc_models.path p) rs)) /\
  (exists rs,
     fst (VideoDiscoverer.discover "/shelf" shelf_world) = Ok (rs, "video") /\
     In "/shelf/dir2.mp4" (map (fun v : Video => osc_models.path v) rs)).
Proof.
  split; [reflexivity |]. split; [reflexivity |]. split.
  - refine (proj2 (proj1 (C10_entry_kind_unchecked "/shelf" shelf_world
                            ["dir1.jpg"; "a2.jpg"; "dir2.mp4"] "dir1.jpg"
                            eq_refl eq_refl _ eq_refl) eq_refl) _).
    + simpl. auto.
    + repeat (constructor; [split; [reflexivity | intros _; reflexivity] |]).
      constructor.
  - refine (proj2 (proj2 (C10_entry_kind_unchecked "/shelf" shelf_world
                            ["dir1.jpg"; "a2.jpg"; "dir2.mp4"] "dir2.mp4"
                            eq_refl eq_refl _ eq_refl) eq_refl) _).
    + simpl. auto.
    + repeat (constructor; [split; [reflexivity | intros _; reflexivity] |]).
      constructor.
Defined.

(** ** The two parts of an entry name *)

Lemma lacks_char_cons (c a : ascii) (s : string) :
  lacks_char c (String a s) = true ->
  Ascii.eqb a c = false /\ lacks_char c s = true.
Proof.
  unfold lacks_char. rewrite !negb_true_iff.
  cbn [str.contains str.startswith]. intros H.
  apply orb_false_iff in H. destruct H as [H1 H2]. split; [| exact H2].
  rewrite Ascii.eqb_sym.
  destruct (Ascii.eqb c a); [| reflexivity].
  destruct s; discriminate H1.
Qed.

Lemma rfind_from_lacks (c : ascii) (s : string) (i last : Z) :
  lacks_char c s = true -> str.rfind_from s c i last = last.
Proof.
  revert i last. induction s as [|a s IH]; intros i last H.
  - reflexivity.
  - apply lacks_char_cons in H. destruct H as [Ha Hs].
    cbn [str.rfind_from]. rewrite Ha. apply IH. exact Hs.
Qed.

Lemma rfind_from_ge (c : ascii) (s : string) (i last : Z) :
  last <= i -> last <= str.rfind_from s c i last.
Proof.
  revert i last. induction s as [|a s IH]; intros i last H.
  - simpl. lia.
  - cbn [str.rfind_from]. destruct (Ascii.eqb a c).
    + apply Z.le_trans with i; [exact H | apply IH; lia].
    + apply IH. lia.
Qed.

Lemma splitext_no_dot (name : string) :
  lacks_char os_path.extsep name = true ->
  os_path.splitext name = (name, "").
Proof.
  intros H. unfold os_path.splitext, str.rfind.
  rewrite (rfind_from_lacks os_path.extsep name 0 (-1) H).
  pose proof (rfind_from_ge os_path.sep name 0 (-1)) as Hge.
  replace (str.rfind_from name os_path.sep 0 (-1) <? -1) with false
    by (symmetry; apply Z.ltb_ge; apply Hge; lia).
  destruct name; reflexivity.
Qed.

Lemma rfind_from_dots_sep (n : nat) (i last : Z) :
  str.rfind_from (dots n) os_path.sep i last = last.
Proof.
  revert i last. induction n as [|n IH]; intros i last; simpl.
  - reflexivity.
  - apply IH.
Qed.

Lemma rfind_from_dots (n : nat) (i last : Z) :
  str.rfind_from (dots (S n)) os_path.extsep i last = i + Z.of_nat n.
Proof.
  revert i last. induction n as [|n IH]; intros i last.
  - simpl. lia.
  - change (dots (S (S n))) with (String os_path.extsep (dots (S n))).
    cbn [str.rfind_from]. rewrite IH. lia.
Qed.

Lemma length_dots (n : nat) : String.length (dots n) = n.
Proof.
  induction n as [|n IH]; simpl.
  - reflexivity.
  - rewrite IH. reflexivity.
Qed.

Lemma drop_dots (i n : nat) (s : string) :
  str.drop i (dots (i + S n) ++ s) = String os_path.extsep (dots n ++ s).
Proof.
  induction i as [|i IH]; simpl.
  - reflexivity.
  - exact IH.
Qed.

Lemma splitext_loop_dots (k : nat) (s : string) (d : Z) (n i : nat) :
  (i + n <= k)%nat ->
  os_path.splitext_loop (dots (S k) ++ s) d n (Z.of_nat i) = None.
Proof.
  revert i. induction n as [|n IH]; intros i H.
  - reflexivity.
  - cbn [os_path.splitext_loop]. unfold str.slice.
    replace (Z.to_nat (Z.of_nat i + 1 - Z.of_nat i)) with 1%nat by lia.
    rewrite Nat2Z.id.
    replace (S k) with (i + S (k - i))%nat by lia.
    rewrite drop_dots. cbn.
    replace (Z.of_nat i + 1) with (Z.of_nat (S i)) by lia.
    replace (i + S (k - i))%nat with (S k) by lia.
    apply IH. lia.
Qed.

Lemma splitext_hidden (k : nat) (s : string) :
  lacks_char os_path.extsep s = true ->
  lacks_char os_path.sep s = true ->
  os_path.splitext (dots (S k) ++ s) = (dots (S k) ++ s, "").
Proof.
  intros Hdot Hsep. unfold os_path.splitext, str.rfind.
  rewrite !rfind_from_app.
  rewrite rfind_from_dots_sep, (rfind_from_lacks _ s _ _ Hsep).
  rewrite rfind_from_dots, (rfind_from_lacks _ s _ _ Hdot).
  replace (-1 <? 0 + Z.of_nat k) with true by (symmetry; apply Z.ltb_lt; lia).
  replace (Z.to_nat (0 + Z.of_nat k - (-1 + 1))) with k by lia.
  change (-1 + 1) with (Z.of_nat 0).
  rewrite (splitext_loop_dots k s _ k 0) by lia.
  reflexivity.
Qed.

Lemma take_app_length (a b : string) :
  str.take (String.length a) (a ++ b) = a.
Proof.
  induction a as [|c a IH]; simpl.
  - destruct b; reflexivity.
  - rewrite IH. reflexivity.
Qed.

Lemma splitext_plain (c : ascii) (root ext : string) :
  Ascii.eqb c os_path.extsep = false ->
  lacks_char os_path.sep (String c root) = true ->
  lacks_char os_path.extsep ext = true ->
  lacks_char os_path.sep ext = true ->
  os_path.splitext (String c root ++ String os_path.extsep ext) =
  (String c root, String os_path.extsep ext).
Proof.
  intros Hc Hroot Hext Hsep.
  set (r := String c root).
  assert (Hdot : str.rfind (r ++ String os_path.extsep ext) os_path.extsep =
                 Z.of_nat (String.length r)).
  { unfold str.rfind. rewrite rfind_from_app. cbn [str.rfind_from].
    rewrite Ascii.eqb_refl. rewrite (rfind_from_lacks _ ext _ _ Hext). lia. }
  assert (Hslash : str.rfind (r ++ String os_path.extsep ext) os_path.sep = -1).
  { unfold str.rfind. rewrite rfind_from_app. cbn [str.rfind_from].
    change (Ascii.eqb os_path.extsep os_path.sep) with false.
    rewrite (rfind_from_lacks _ ext _ _ Hsep).
    apply (rfind_from_lacks _ r _ _ Hroot). }
  unfold os_path.splitext. rewrite Hdot, Hslash.
  replace (-1 <? Z.of_nat (String.length r)) with true
    by (symmetry; apply Z.ltb_lt; lia).
  replace (Z.to_nat (Z.of_nat (String.length r) - (-1 + 1)))
    with (S (String.length root)) by (subst r; simpl String.length; lia).
  cbn [os_path.splitext_loop].
  replace (str.slice (r ++ String os_path.extsep ext) (-1 + 1) (-1 + 1 + 1))
    with (String c "") by (subst r; destruct root; reflexivity).
  replace (String.eqb (String c "") (String os_path.extsep ""))
    with false by (simpl; rewrite Hc; reflexivity).
  cbn [negb]. unfold str.slice_to, str.slice_from. rewrite Nat2Z.id.
  rewrite take_app_length, drop_app_length. reflexivity.
Qed.

Lemma lacks_char_app (c : ascii) (a b : string) :
  lacks_char c (a ++ b) = lacks_char c a && lacks_char c b.
Proof.
  unfold lacks_char. induction a as [|x a IH].
  - change ("" ++ b) with b.
    change (str.contains (String c "") "") with false. reflexivity.
  - change (String x a ++ b) with (String x (a ++ b)).
    cbn [str.contains str.startswith].
    rewrite !negb_orb, IH.
    replace (str.startswith (a ++ b) "") with true by (destruct (a ++ b); reflexivity).
    replace (str.startswith a "") with true by (destruct a; reflexivity).
    rewrite andb_assoc. reflexivity.
Qed.

Lemma drop_all_dots (k : nat) (s : string) : str.drop k (dots k ++ s) = s.
Proof.
  induction k as [|k IH]; simpl.
  - destruct s; reflexivity.
  - exact IH.
Qed.

Lemma splitext_loop_found (k : nat) (c : ascii) (rest : string) (d : Z)
    (n i : nat) :
  Ascii.eqb c os_path.extsep = false ->
  (i <= k)%nat -> (k - i < n)%nat ->
  os_path.splitext_loop (dots k ++ String c rest) d n (Z.of_nat i) =
  Some (str.slice_to (dots k ++ String c rest) d,
        str.slice_from (dots k ++ String c rest) d).
Proof.
  intros Hc. revert i. induction n as [|n IH]; intros i Hi Hn; [lia |].
  cbn [os_path.splitext_loop]. unfold str.slice.
  replace (Z.to_nat (Z.of_nat i + 1 - Z.of_nat i)) with 1%nat by lia.
  rewrite Nat2Z.id.
  destruct (Nat.eq_dec i k) as [-> | Hne].
  - rewrite drop_all_dots. cbn [str.take String.eqb].
    rewrite Hc. reflexivity.
  - replace k with (i + S (k - i - 1))%nat at 1 by lia.
    rewrite drop_dots. cbn.
    replace (Z.of_nat i + 1) with (Z.of_nat (S i)) by lia.
    apply IH; lia.
Qed.

Lemma length_app (a b : string) :
  String.length (a ++ b) = (String.length a + String.length b)%nat.
Proof. induction a as [|x a IH]; simpl; [reflexivity | rewrite IH; reflexivity]. Qed.

Lemma splitext_dotted (k : nat) (c : ascii) (root ext : string) :
  Ascii.eqb c os_path.extsep = false ->
  lacks_char os_path.sep (String c root) = true ->
  lacks_char os_path.extsep ext = true ->
  lacks_char os_path.sep ext = true ->
  os_path.splitext ((dots k ++ String c root) ++ String os_path.extsep ext) =
  (dots k ++ String c root, String os_path.extsep ext).
Proof.
  intros Hc Hroot Hext Hsep.
  set (r := dots k ++ String c root).
  assert (Hdot : str.rfind (r ++ String os_path.extsep ext) os_path.extsep =
                 Z.of_nat (String.length r)).
  { unfold str.rfind. rewrite rfind_from_app. cbn [str.rfind_from].
    rewrite Ascii.eqb_refl. rewrite (rfind_from_lacks _ ext _ _ Hext). lia. }
  assert (Hslash : str.rfind (r ++ String os_path.extsep ext) os_path.sep = -1).
  { unfold str.rfind. rewrite rfind_from_app. cbn [str.rfind_from].
    change (Ascii.eqb os_path.extsep os_path.sep) with false.
    rewrite (rfind_from_lacks _ ext _ _ Hsep).
    subst r. rewrite rfind_from_app, rfind_from_dots_sep.
    apply (rfind_from_lacks _ _ _ _ Hroot). }
  unfold os_path.splitext. rewrite Hdot, Hslash.
  replace (-1 <? Z.of_nat (String.length r)) with true
    by (symmetry; apply Z.ltb_lt; subst r; rewrite length_app; simpl String.length; lia).
  change (-1 + 1) with (Z.of_nat 0).
  replace (r ++ String os_path.extsep ext)
    with (dots k ++ String c (root ++ String os_path.extsep ext))
    by (subst r; rewrite append_assoc; reflexivity).
  rewrite (splitext_loop_found k c _ _ _ 0 Hc).
  - replace (dots k ++ String c (root ++ String os_path.extsep ext))
      with (r ++ String os_path.extsep ext)
      by (subst r; rewrite append_assoc; reflexivity).
    unfold str.slice_to, str.slice_from. rewrite Nat2Z.id.
    rewrite take_app_length, drop_app_length. reflexivity.
  - lia.
  - subst r. rewrite length_app, length_dots. simpl String.length. lia.
Qed.

Lemma last_dot (s : string) :
  lacks_char os_path.extsep s = true \/
  exists pre ext,
    s = pre ++ String os_path.extsep ext /\ lacks_char os_path.extsep ext = true.
Proof.
  induction s as [|a s IH].
  - left. reflexivity.
  - destruct IH as [Hs | (pre & ext & -> & Hext)].
    + destruct (Ascii.eqb a os_path.extsep) eqn:Ha.
      * right. apply Ascii.eqb_eq in Ha. subst a.
        exists "", s. split; [reflexivity | exact Hs].
      * left. change (String a s) with (String a "" ++ s).
        rewrite lacks_char_app, Hs, andb_true_r.
        unfold lacks_char. cbn [str.contains str.startswith].
        rewrite Ascii.eqb_sym, Ha. reflexivity.
    + right. exists (String a pre), ext. split; [reflexivity | exact Hext].
Qed.

Lemma leading_dots (s : string) :
  (exists j, s = dots j) \/
  exists k c root, s = dots k ++ String c root /\ Ascii.eqb c os_path.extsep = false.
Proof.
  induction s as [|a s IH].
  - left. exists 0%nat. reflexivity.
  - destruct (Ascii.eqb a os_path.extsep) eqn:Ha.
    + apply Ascii.eqb_eq in Ha. subst a.
      destruct IH as [[j ->] | (k & c & root & -> & Hc)].
      * left. exists (S j). reflexivity.
      * right. exists (S k), c, root. split; [reflexivity | exact Hc].
    + right. exists 0%nat, a, s. split; [reflexivity | exact Ha].
Qed.

(** Every entry name is a run of dots followed by text without a dot, or
    has a last dot with some other character in front of it. *)
Lemma entry_name_parts (name : string) :
  is_entry_name name = true ->
  (exists k s,
     name = dots k ++ s /\
     lacks_char os_path.extsep s = true /\ lacks_char os_path.sep s = true) \/
  (exists k c root ext,
     name = (dots k ++ String c root) ++ String os_path.extsep ext /\
     Ascii.eqb c os_path.extsep = false /\
     lacks_char os_path.sep (String c root) = true /\
     lacks_char os_path.extsep ext = true /\
     lacks_char os_path.sep ext = true).
Proof.
  intros Hname. change (lacks_char os_path.sep name = true) in Hname.
  destruct (last_dot name) as [Hdot | (pre & ext & -> & Hext)].
  - left. exists 0%nat, name. repeat split; assumption.
  - rewrite lacks_char_app in Hname. apply andb_true_iff in Hname.
    destruct Hname as [Hpre Hsep].
    change (String os_path.extsep ext) with (String os_path.extsep "" ++ ext) in Hsep.
    rewrite lacks_char_app in Hsep. apply andb_true_iff in Hsep.
    destruct Hsep as [_ Hsep].
    destruct (leading_dots pre) as [[j ->] | (k & c & root & -> & Hc)].
    + left. exists (S j), ext. split; [| split; assumption].
      clear. induction j as [|j IH]; [reflexivity |].
      change (dots (S j) ++ String os_path.extsep ext)
        with (String os_path.extsep (dots j ++ String os_path.extsep ext)).
      rewrite IH. reflexivity.
    + right. exists k, c, root, ext. split; [reflexivity |].
      rewrite lacks_char_app in Hpre. apply andb_true_iff in Hpre.
      repeat split; try assumption. apply Hpre.
Qed.

(** ** Which entries become records *)

Lemma photo_is_candidate_spec (f : string) :
  PhotoDiscovery.is_candidate f = true <-> photo_candidate f.
Proof.
  unfold PhotoDiscovery.is_candidate, photo_candidate.
  destruct (os_path.splitext f) as [file_name file_extension]. simpl.
  rewrite andb_true_iff, orb_true_iff, negb_true_iff, !contains_spec.
  rewrite <- (contains_spec "thumb"). 
  destruct (str.contains "thumb" (str.lower file_name)); split.
  - intros [_ H]. discriminate H.
  - intros [_ H]. exfalso. apply H. reflexivity.
  - intros [H _]. split; [exact H | discriminate].
  - intros [H _]. split; [exact H | reflexivity].
Qed.

Lemma video_is_candidate_spec (f : string) :
  VideoDiscoverer.is_candidate f = true <-> video_candidate f.
Proof.
  unfold VideoDiscoverer.is_candidate, video_candidate.
  destruct (os_path.splitext f) as [file_name file_extension]. simpl.
  apply contains_spec.
Qed.

Lemma photo_scan_paths (cls : PhotoCls) (path : string) (files : list string)
    (x : string) :
  (forall p ph, cls_photo_from_path cls p = Some ph -> osc_models.path ph = p) ->
  In x (map (fun p : Photo => osc_models.path p) (photo_scan cls path files)) <->
  exists g, In g files /\ PhotoDiscovery.is_candidate g = true /\
            cls_photo_from_path cls (os_path.join path g) <> None /\
            x = os_path.join path g.
Proof.
  intros Hpath. unfold photo_scan. rewrite in_map_iff. split.
  - intros (ph & <- & Hin). apply in_flat_map in Hin.
    destruct Hin as (g & Hg & Hph). apply filter_In in Hg.
    destruct Hg as [Hg Hc]. exists g.
    destruct (cls_photo_from_path cls (os_path.join path g)) as [ph'|] eqn:Hb;
      simpl in Hph; [| contradiction].
    destruct Hph as [-> | []].
    repeat split; try assumption.
    + discriminate.
    + apply Hpath. exact Hb.
  - intros (g & Hg & Hc & Hb & ->).
    destruct (cls_photo_from_path cls (os_path.join path g)) as [ph|] eqn:Hph;
      [| contradiction].
    exists ph. split; [apply Hpath; exact Hph |].
    apply in_flat_map. exists g. split.
    + apply filter_In. split; assumption.
    + rewrite Hph. simpl. auto.
Qed.

Lemma plain_photo_path (p : string) (ph : Photo) :
  cls_photo_from_path PhotoDiscovery.cls p = Some ph -> osc_models.path ph = p.
Proof. simpl. unfold PhotoDiscovery._photo_from_path. intros H. injection H as <-. reflexivity. Qed.

Lemma exif_photo_path {E : exif_processing.ExifProcessing} (p : string) (ph : Photo) :
  cls_photo_from_path ExifPhotoDiscoverer.cls p = Some ph -> osc_models.path ph = p.
Proof.
  simpl. unfold ExifPhotoDiscoverer._photo_from_path.
  destruct (_ || _); [discriminate |].
  intros H. injection H as <-. reflexivity.
Qed.

(** An entry name has a record in the result of a photo policy exactly when
    it is listed, passes the filter and its record is built. *)
Lemma photo_result_entry (cls : PhotoCls) (path : string) (w : World)
    (files : list string) (rs : list Photo) (tag : string) (f : string) :
  (forall l s, cls_sort_photo_list cls l = Ok s -> Permutation s l) ->
  (forall p ph, cls_photo_from_path cls p = Some ph -> osc_models.path ph = p) ->
  isdir w path = true ->
  listdir w path = Ok files ->
  Forall (fun g => is_entry_name g = true) files ->
  is_entry_name f = true ->
  fst (PhotoDiscovery.discover cls path w) = Ok (rs, tag) ->
  In (os_path.join path f) (map (fun p : Photo => osc_models.path p) rs) <->
  In f files /\ photo_candidate f /\
  cls_photo_from_path cls (os_path.join path f) <> None.
Proof.
  intros Hsort Hpath Hdir Hls Hnames Hf H.
  pose proof (photo_result_paths cls path w files rs tag Hsort Hdir Hls H) as Hp.
  rewrite <- photo_is_candidate_spec. split.
  - intros Hin. apply (Permutation_in _ Hp) in Hin.
    apply (photo_scan_paths cls path files _ Hpath) in Hin.
    destruct Hin as (g & Hg & Hc & Hb & Heq).
    assert (f = g) as ->.
    { apply (join_inj path); [exact Hf | | exact Heq].
      rewrite Forall_forall in Hnames. apply Hnames. exact Hg. }
    repeat split; assumption.
  - intros (Hin & Hc & Hb).
    apply (Permutation_in _ (Permutation_sym Hp)).
    apply (photo_scan_paths cls path files _ Hpath).
    exists f. repeat split; assumption.
Qed.

Lemma video_result_entry (path : string) (w : World)
    (files : list string) (rs : list Video) (tag : string) (f : string) :
  isdir w path = true ->
  listdir w path = Ok files ->
  Forall (fun g => is_entry_name g = true) files ->
  is_entry_name f = true ->
  fst (VideoDiscoverer.discover path w) = Ok (rs, tag) ->
  In (os_path.join path f) (map (fun v : Video => osc_models.path v) rs) <->
  In f files /\ video_candidate f.
Proof.
  intros Hdir Hls Hnames Hf H.
  pose proof (video_result_paths path w files rs tag Hdir Hls H) as Hp.
  rewrite <- video_is_candidate_spec. split.
  - intros Hin. apply (Permutation_in _ Hp) in Hin.
    apply in_map_iff in Hin. destruct Hin as (g & Heq & Hg).
    apply filter_In in Hg. destruct Hg as [Hg Hc].
    assert (f = g) as ->.
    { apply (join_inj path); [exact Hf | | symmetry; exact Heq].
      rewrite Forall_forall in Hnames. apply Hnames. exact Hg. }
    split; assumption.
  - intros [Hin Hc].
    apply (Permutation_in _ (Permutation_sym Hp)).
    apply in_map. apply filter_In. split; assumption.
Qed.

(** C4: an entry of the listed directory is a candidate of the photo
    policies exactly when its extension holds [jpg] or [jpeg] as a
    substring, compared case-sensitively, and its name without the
    extension, in lower case, does not hold [thumb]; it is a candidate of the
    video policy exactly when its extension holds [mp4].  The extension of
    an entry name is the text from its last dot on, when a character other
    than a dot stands somewhere in front of that dot, and the name without
    the extension is the text in front of that dot; any other entry name (no
    dot at all, or dots at its beginning only) has the empty extension and is
    no candidate; and every entry name is of one of these two forms.  A
    candidate gets a record in the result of plain photo discovery and of
    video discovery, and in the result of metadata-validated discovery when
    its record is built; no other entry gets one.  So [thumb_5.jpg] never
    appears in the output of either photo policy, [clip_3.mp4] appears in
    video output only and [clip_3.jpg] in photo output only; [jpg_notes.txt]
    and [mp4_list.txt] are no candidates, and [a_1.thumbjpg] is a photo
    candidate. *)
Theorem C4_candidates {E : exif_processing.ExifProcessing} :
  (forall f, PhotoDiscovery.is_candidate f = true <-> photo_candidate f) /\
  (forall f, VideoDiscoverer.is_candidate f = true <-> video_candidate f) /\
  (forall k c root ext,
     Ascii.eqb c os_path.extsep = false ->
     lacks_char os_path.sep (String c root) = true ->
     lacks_char os_path.extsep ext = true ->
     lacks_char os_path.sep ext = true ->
     let name := (dots k ++ String c root) ++ String os_path.extsep ext in
     os_path.splitext name = (dots k ++ String c root, String os_path.extsep ext) /\
     (PhotoDiscovery.is_candidate name = true <->
      (substring_of "jpg" ext \/ substring_of "jpeg" ext) /\
      ~ substring_of "thumb" (str.lower (dots k ++ String c root))) /\
     (VideoDiscoverer.is_candidate name = true <-> substring_of "mp4" ext)) /\
  (forall k s,
     lacks_char os_path.extsep s = true ->
     lacks_char os_path.sep s = true ->
     os_path.splitext (dots k ++ s) = (dots k ++ s, "") /\
     PhotoDiscovery.is_candidate (dots k ++ s) = false /\
     VideoDiscoverer.is_candidate (dots k ++ s) = false) /\
  (forall name,
     is_entry_name name = true ->
     (exists k s,
        name = dots k ++ s /\
        lacks_char os_path.extsep s = true /\ lacks_char os_path.sep s = true) \/
     (exists k c root ext,
        name = (dots k ++ String c root) ++ String os_path.extsep ext /\
        Ascii.eqb c os_path.extsep = false /\
        lacks_char os_path.sep (String c root) = true /\
        lacks_char os_path.extsep ext = true /\
        lacks_char os_path.sep ext = true)) /\
  (forall path w files f,
     isdir w path = true ->
     listdir w path = Ok files ->
     Forall (fun g => is_entry_name g = true) files ->
     is_entry_name f = true ->
     (forall rs tag,
        fst (PhotoDiscovery_discover path w) = Ok (rs, tag) ->
        (In (os_path.join path f) (map (fun p : Photo => osc_models.path p) rs) <->
         In f files /\ photo_candidate f)) /\
     (forall rs tag,
        fst (ExifPhotoDiscoverer.discover path w) = Ok (rs, tag) ->
        (In (os_path.join path f) (map (fun p : Photo => osc_models.path p) rs) <->
         In f files /\ photo_candidate f /\
         ExifPhotoDiscoverer._photo_from_path (os_path.join path f) <> None)) /\
     (forall rs tag,
        fst (VideoDiscoverer.discover path w) = Ok (rs, tag) ->
        (In (os_path.join path f) (map (fun v : Video => osc_models.path v) rs) <->
         In f files /\ video_candidate f))) /\
  (~ photo_candidate "thumb_5.jpg" /\ ~ video_candidate "thumb_5.jpg" /\
   ~ photo_candidate "clip_3.mp4" /\ video_candidate "clip_3.mp4" /\
   photo_candidate "clip_3.jpg" /\ ~ video_candidate "clip_3.jpg" /\
   ~ photo_candidate "IMG_7.JPG" /\ ~ photo_candidate "Thumb_8.jpeg") /\
  (os_path.splitext "jpg_notes.txt" = ("jpg_notes", ".txt") /\
   ~ photo_candidate "jpg_notes.txt" /\
   os_path.splitext "mp4_list.txt" = ("mp4_list", ".txt") /\
   ~ video_candidate "mp4_list.txt" /\
   os_path.splitext "a_1.thumbjpg" = ("a_1", ".thumbjpg") /\
   photo_candidate "a_1.thumbjpg" /\
   photo_candidate "b_2.jpge" /\ video_candidate "c_5.xmp4" /\
   ~ photo_candidate "THUMB_3.jpg" /\
   ~ photo_candidate ".jpg" /\ ~ video_candidate "..mp4") /\
  (photo_summary (fst (PhotoDiscovery_discover "/mixed" mixed_world)) =
     Ok ([("/mixed/clip_3.jpg", Some 0)], "photo") /\
   video_summary (fst (VideoDiscoverer.discover "/mixed" mixed_world)) =
     Ok ([("/mixed/clip_3.mp4", Some 0)], "video") /\
   photo_summary (fst (PhotoDiscovery_discover "/quirks" quirk_world)) =
     Ok ([("/quirks/a_1.thumbjpg", Some 0); ("/quirks/b_2.jpge", Some 1)],
         "photo") /\
   video_summary (fst (VideoDiscoverer.discover "/quirks" quirk_world)) =
     Ok ([("/quirks/c_5.xmp4", Some 0)], "video")).
Proof.
  split; [exact photo_is_candidate_spec |].
  split; [exact video_is_candidate_spec |].
  split; [| split; [| split; [exact entry_name_parts |]]].
  - intros k c root ext Hc Hroot Hext Hsep name.
    pose proof (splitext_dotted k c root ext Hc Hroot Hext Hsep) as Hs.
    fold name in Hs. split; [exact Hs |].
    split.
    + rewrite photo_is_candidate_spec. unfold photo_candidate. rewrite Hs.
      cbn [fst snd]. rewrite <- !contains_spec.
      change (str.contains "jpg" (String os_path.extsep ext))
        with (str.contains "jpg" ext).
      change (str.contains "jpeg" (String os_path.extsep ext))
        with (str.contains "jpeg" ext).
      reflexivity.
    + rewrite video_is_candidate_spec. unfold video_candidate. rewrite Hs.
      cbn [snd]. rewrite <- !contains_spec.
      change (str.contains "mp4" (String os_path.extsep ext))
        with (str.contains "mp4" ext).
      reflexivity.
  - intros k s Hdot Hsep.
    assert (Hs : os_path.splitext (dots k ++ s) = (dots k ++ s, "")).
    { destruct k as [|k].
      - apply splitext_no_dot. exact Hdot.
      - apply splitext_hidden; assumption. }
    split; [exact Hs |].
    unfold PhotoDiscovery.is_candidate, VideoDiscoverer.is_candidate.
    rewrite Hs. split; reflexivity.
  - split; [| split; [| split]].
    + intros path w files f Hdir Hls Hnames Hf. split; [| split].
      * intros rs tag H.
        rewrite (photo_result_entry PhotoDiscovery.cls path w files rs tag f
                   plain_sort_perm plain_photo_path Hdir Hls Hnames Hf H).
        split.
        -- intros (Hin & Hc & _). split; assumption.
        -- intros [Hin Hc]. split; [exact Hin |]. split; [exact Hc |].
           simpl. discriminate.
      * intros rs tag H.
        apply (photo_result_entry ExifPhotoDiscoverer.cls path w files rs tag f
                 exif_sort_perm exif_photo_path Hdir Hls Hnames Hf H).
      * intros rs tag H.
        apply (video_result_entry path w files rs tag f Hdir Hls Hnames Hf H).
    + rewrite <- !photo_is_candidate_spec, <- !video_is_candidate_spec.
      repeat match goal with |- _ /\ _ => split end;
        try (vm_compute; reflexivity);
        intros H; vm_compute in H; discriminate H.
    + rewrite <- !photo_is_candidate_spec, <- !video_is_candidate_spec.
      repeat match goal with |- _ /\ _ => split end;
        try (vm_compute; reflexivity);
        intros H; vm_compute in H; discriminate H.
    + repeat match goal with |- _ /\ _ => split end; vm_compute; reflexivity.
Qed.

Lemma C4_candidates_witness :
  (exists rs,
     fst (@ExifPhotoDiscoverer.discover mixed_exif "/mixed" mixed_world)
       = Ok (rs, "photo") /\
     In "/mixed/clip_3.jpg" (map (fun p : Photo => osc_models.path p) rs) /\
     ~ In "/mixed/thumb_5.jpg" (map (fun p : Photo => osc_models.path p) rs)) /\
  (exists rs,
     fst (VideoDiscoverer.discover "/mixed" mixed_world) = Ok (rs, "video") /\
     In "/mixed/clip_3.mp4" (map (fun v : Video => osc_models.path v) rs) /\
     ~ In "/mixed/clip_3.jpg" (map (fun v : Video => osc_models.path v) rs)).
Proof.
  pose proof (@C4_candidates mixed_exif)
    as (_ & _ & _ & _ & _ & H & (Hthumb & _ & _ & _ & _ & Hjpg & _) & _).
  assert (Hnames : Forall (fun g => is_entry_name g = true)
                     ["clip_3.mp4"; "thumb_5.jpg"; "clip_3.jpg"; "IMG_7.JPG";
                      "Thumb_8.jpeg"; "notes_9.txt"]) by (repeat constructor).
  split.
  - eexists. split; [vm_compute; reflexivity |]. split.
    + simpl. auto.
    + intros Hin.
      apply (proj1 (proj2 (H "/mixed" mixed_world _ "thumb_5.jpg"
                             eq_refl eq_refl Hnames eq_refl)) _ "photo" eq_refl)
        in Hin.
      apply Hthumb. apply Hin.
  - eexists. split; [vm_compute; reflexivity |]. split.
    + simpl. auto.
    + intros Hin.
      apply (proj2 (proj2 (H "/mixed" mixed_world _ "clip_3.jpg"
                             eq_refl eq_refl Hnames eq_refl)) _ "video" eq_refl)
        in Hin.
      apply Hjpg. apply Hin.
Defined.

(** ** The builder of the metadata-validated policy *)

Lemma truthy_true (v : option Q) : truthy v = true <-> present_nonzero v.
Proof.
  unfold truthy, present_nonzero. destruct v as [q|].
  - rewrite negb_true_iff. split.
    + intros H. exists q. split; [reflexivity |].
      intros Hq. apply Qeq_bool_iff in Hq. rewrite Hq in H. discriminate H.
    + intros (q' & Hq' & Hn). injection Hq' as <-.
      destruct (Qeq_bool q 0) eqn:Hb; [| reflexivity].
      exfalso. apply Hn. apply Qeq_bool_iff. exact Hb.
  - split; [discriminate | intros (q & Hq & _); discriminate Hq].
Qed.

Lemma truthy_false (v : option Q) : truthy v = false <-> absent_or_zero v.
Proof.
  unfold truthy, absent_or_zero. destruct v as [q|].
  - rewrite negb_false_iff, Qeq_bool_iff. split.
    + intros H. right. exists q. split; [reflexivity | exact H].
    + intros [H | (q' & Hq' & H)]; [discriminate H |].
      injection Hq' as <-. exact H.
  - split; [intros _; left; reflexivity | reflexivity].
Qed.

Section ExifBuilder.

Context {E : exif_processing.ExifProcessing}.

Lemma exif_photo_from_path_eq (p : string) :
  ExifPhotoDiscoverer._photo_from_path p =
  if mandatory_truthy p then Some (exif_photo p) else None.
Proof.
  unfold ExifPhotoDiscoverer._photo_from_path, mandatory_truthy, exif_photo.
  cbn.
  destruct (truthy (exif_processing.gps_latitude _)); simpl; [| reflexivity].
  destruct (truthy (exif_processing.gps_longitude _)); simpl; [| reflexivity].
  destruct (truthy (exif_processing.gps_timestamp _)); reflexivity.
Qed.

Lemma mandatory_truthy_true (p : string) :
  mandatory_truthy p = true <->
  present_nonzero (exif_processing.gps_timestamp (exif_processing.all_tags p)) /\
  present_nonzero (exif_processing.gps_latitude (exif_processing.all_tags p)) /\
  present_nonzero (exif_processing.gps_longitude (exif_processing.all_tags p)).
Proof.
  unfold mandatory_truthy. rewrite !andb_true_iff, !truthy_true. tauto.
Qed.

Lemma mandatory_truthy_false (p : string) :
  mandatory_truthy p = false <->
  absent_or_zero (exif_processing.gps_timestamp (exif_processing.all_tags p)) \/
  absent_or_zero (exif_processing.gps_latitude (exif_processing.all_tags p)) \/
  absent_or_zero (exif_processing.gps_longitude (exif_processing.all_tags p)).
Proof.
  unfold mandatory_truthy. rewrite !andb_false_iff, !truthy_false. tauto.
Qed.

Lemma exif_built_iff (p : string) :
  ExifPhotoDiscoverer._photo_from_path p <> None <-> mandatory_truthy p = true.
Proof.
  rewrite exif_photo_from_path_eq.
  destruct (mandatory_truthy p); split; try discriminate; try reflexivity.
  intros H. exfalso. apply H. reflexivity.
Qed.

End ExifBuilder.

(** C1: the code departs from the claim where a mandatory derivation is
    present and zero.  The claim wants a candidate returned whenever its
    three mandatory derivations are present; those of [/equator/shot_1.jpg]
    all are, the latitude being 0, and yet the builder returns no record and
    discovery drops the candidate: the guard of the builder tests the truth
    of each value, and [0.0] is false. *)
Lemma C1_zero_latitude_dropped :
  (let tags := @exif_processing.all_tags equator_exif "/equator/shot_1.jpg" in
   @exif_processing.gps_timestamp equator_exif tags = Some (1000 # 1) /\
   @exif_processing.gps_latitude equator_exif tags = Some (0 # 1) /\
   @exif_processing.gps_longitude equator_exif tags = Some (10 # 1)) /\
  PhotoDiscovery.is_candidate "shot_1.jpg" = true /\
  @ExifPhotoDiscoverer._photo_from_path equator_exif "/equator/shot_1.jpg" = None /\
  fst (@ExifPhotoDiscoverer.discover equator_exif "/equator" equator_world) =
    Ok ([], "photo").
Proof. repeat split; vm_compute; reflexivity. Qed.

(** X14: what the builder of metadata-validated discovery does check.  It
    returns a record, and discovery returns the candidate, if and only if
    all three mandatory derivations (gpsTimestamp, latitude, longitude) are
    present and different from zero.  If any one of the three is absent the
    builder returns no record and the candidate is dropped, also when the
    other two are present.  The optional derivations (exifTimestamp,
    gpsSpeed, gpsAltitude, gpsCompass) are stored as they come, absent or
    not, and never cause the candidate to be dropped. *)
Theorem X14_mandatory_trio {E : exif_processing.ExifProcessing} :
  (forall p,
     ExifPhotoDiscoverer._photo_from_path p <> None <->
     present_nonzero (exif_processing.gps_timestamp (exif_processing.all_tags p)) /\
     present_nonzero (exif_processing.gps_latitude (exif_processing.all_tags p)) /\
     present_nonzero (exif_processing.gps_longitude (exif_processing.all_tags p))) /\
  (forall p,
     exif_processing.gps_timestamp (exif_processing.all_tags p) = None \/
     exif_processing.gps_latitude (exif_processing.all_tags p) = None \/
     exif_processing.gps_longitude (exif_processing.all_tags p) = None ->
     ExifPhotoDiscoverer._photo_from_path p = None) /\
  (forall p photo,
     ExifPhotoDiscoverer._photo_from_path p = Some photo ->
     photo = exif_photo p) /\
  (forall path w files f,
     isdir w path = true ->
     listdir w path = Ok files ->
     Forall (fun g => is_entry_name g = true) files ->
     In f files ->
     photo_candidate f ->
     exists rs,
       fst (ExifPhotoDiscoverer.discover path w) = Ok (rs, "photo") /\
       (In (os_path.join path f) (map (fun p : Photo => osc_models.path p) rs) <->
        present_nonzero (exif_processing.gps_timestamp
                           (exif_processing.all_tags (os_path.join path f))) /\
        present_nonzero (exif_processing.gps_latitude
                           (exif_processing.all_tags (os_path.join path f))) /\
        present_nonzero (exif_processing.gps_longitude
                           (exif_processing.all_tags (os_path.join path f))))).
Proof.
  split; [| split; [| split]].
  - intros p. rewrite exif_built_iff. apply mandatory_truthy_true.
  - intros p H. rewrite exif_photo_from_path_eq.
    replace (mandatory_truthy p) with false; [reflexivity |].
    symmetry. apply mandatory_truthy_false.
    destruct H as [H | [H | H]]; [left | right; left | right; right];
      left; exact H.
  - intros p photo. rewrite exif_photo_from_path_eq.
    destruct (mandatory_truthy p); [| discriminate].
    intros H. injection H as <-. reflexivity.
  - intros path w files f Hdir Hls Hnames Hin Hc.
    destruct (exif_returns path w files Hdir Hls) as (sorted & _ & Hr).
    eexists. split; [exact Hr |].
    assert (Hf : is_entry_name f = true).
    { rewrite Forall_forall in Hnames. apply Hnames. exact Hin. }
    rewrite (photo_result_entry ExifPhotoDiscoverer.cls path w files _ _ f
               exif_sort_perm exif_photo_path Hdir Hls Hnames Hf Hr).
    cbn [cls_photo_from_path ExifPhotoDiscoverer.cls].
    rewrite exif_built_iff, mandatory_truthy_true. tauto.
Qed.

Lemma X14_mandatory_trio_witness :
  exists rs,
    fst (@ExifPhotoDiscoverer.discover trip_exif "/trip_2019" trip_world)
      = Ok (rs, "photo") /\
    In "/trip_2019/img_2.jpg" (map (fun p : Photo => osc_models.path p) rs) /\
    ~ In "/trip_2019/img_1.jpg" (map (fun p : Photo => osc_models.path p) rs).
Proof.
  pose proof (@X14_mandatory_trio trip_exif) as (_ & _ & _ & H).
  assert (Hnames : Forall (fun g => is_entry_name g = true)
                     ["img_2.jpg"; "clip_3.mp4"; "img_10.jpg"; "thumb_5.jpg";
                      "img_1.jpg"]) by (repeat constructor).
  assert (Hc : photo_candidate "img_1.jpg").
  { apply photo_is_candidate_spec. reflexivity. }
  destruct (H "/trip_2019" trip_world _ "img_1.jpg" eq_refl eq_refl Hnames
              (or_intror (or_intror (or_intror (or_intror (or_introl eq_refl))))) Hc)
    as (rs & Hrs & Hiff).
  exists rs. split; [exact Hrs |]. split.
  - assert (Hv : fst (@ExifPhotoDiscoverer.discover trip_exif "/trip_2019" trip_world)
                 = Ok (PhotoDiscovery.assign_index
                         [@exif_photo trip_exif "/trip_2019/img_10.jpg";
                          @exif_photo trip_exif "/trip_2019/img_2.jpg"] 0, "photo"))
      by (vm_compute; reflexivity).
    rewrite Hv in Hrs. injection Hrs as <-. simpl. auto.
  - intros Hin. apply Hiff in Hin.
    destruct Hin as (_ & (q & Hq & _) & _). discriminate Hq.
Defined.

(** C9: the check of the mandatory trio is a truth test and not a test for
    absence.  The builder of metadata-validated discovery returns no record
    exactly when one of latitude, longitude and gpsTimestamp is absent or is
    zero; so a candidate whose latitude, longitude or gpsTimestamp is
    present and equal to 0 gets no record and is missing from the result of
    discovery, exactly as a candidate that lacks the field. *)
Theorem C9_zero_counts_as_absent {E : exif_processing.ExifProcessing} :
  (forall p,
     ExifPhotoDiscoverer._photo_from_path p = None <->
     absent_or_zero (exif_processing.gps_timestamp (exif_processing.all_tags p)) \/
     absent_or_zero (exif_processing.gps_latitude (exif_processing.all_tags p)) \/
     absent_or_zero (exif_processing.gps_longitude (exif_processing.all_tags p))) /\
  (forall p q,
     q == 0 ->
     exif_processing.gps_latitude (exif_processing.all_tags p) = Some q \/
     exif_processing.gps_longitude (exif_processing.all_tags p) = Some q \/
     exif_processing.gps_timestamp (exif_processing.all_tags p) = Some q ->
     ExifPhotoDiscoverer._photo_from_path p = None) /\
  (forall path w files f rs tag,
     isdir w path = true ->
     listdir w path = Ok files ->
     Forall (fun g => is_entry_name g = true) files ->
     is_entry_name f = true ->
     ExifPhotoDiscoverer._photo_from_path (os_path.join path f) = None ->
     fst (ExifPhotoDiscoverer.discover path w) = Ok (rs, tag) ->
     ~ In (os_path.join path f) (map (fun p : Photo => osc_models.path p) rs)).
Proof.
  assert (H1 : forall p,
             ExifPhotoDiscoverer._photo_from_path p = None <->
             mandatory_truthy p = false).
  { intros p. rewrite exif_photo_from_path_eq.
    destruct (mandatory_truthy p); split; try discriminate; reflexivity. }
  split; [| split].
  - intros p. rewrite H1. apply mandatory_truthy_false.
  - intros p q Hq H. apply H1. apply mandatory_truthy_false.
    destruct H as [H | [H | H]]; [right; left | right; right | left];
      right; exists q; split; assumption.
  - intros path w files f rs tag Hdir Hls Hnames Hf Hb Hr Hin.
    apply (photo_result_entry ExifPhotoDiscoverer.cls path w files rs tag f
             exif_sort_perm exif_photo_path Hdir Hls Hnames Hf Hr) in Hin.
    destruct Hin as (_ & _ & Hin). apply Hin. exact Hb.
Qed.

Lemma C9_zero_counts_as_absent_witness :
  @exif_processing.gps_latitude equator_exif
    (@exif_processing.all_tags equator_exif "/equator/shot_1.jpg") = Some (0 # 1) /\
  @ExifPhotoDiscoverer._photo_from_path equator_exif "/equator/shot_1.jpg" = None.
Proof.
  split; [reflexivity |].
  refine (proj1 (proj2 (@C9_zero_counts_as_absent equator_exif))
            "/equator/shot_1.jpg" (0 # 1) _ (or_introl eq_refl)).
  reflexivity.
Defined.

(** ** The timestamp order *)

Lemma float_lt_asym (a b : option Q) :
  float_lt a b = true -> float_lt b a = false.
Proof.
  destruct a as [x|], b as [y|]; simpl; try discriminate.
  rewrite negb_true_iff, negb_false_iff. intros H.
  apply Qle_bool_iff. apply Qlt_le_weak. apply Qnot_le_lt.
  intros Hle. apply Qle_bool_iff in Hle. rewrite Hle in H. discriminate H.
Qed.

Lemma timestamp_is_class (t : Q) (a b : option Q) :
  float_lt a b = true -> timestamp_is t b = true -> timestamp_is t a = false.
Proof.
  destruct a as [x|], b as [y|]; simpl; try discriminate.
  rewrite negb_true_iff. intros Hlt Hy.
  apply Qeq_bool_iff in Hy.
  destruct (Qeq_bool x t) eqn:Hx; [| reflexivity].
  apply Qeq_bool_iff in Hx.
  assert (Hle : Qle_bool y x = true).
  { apply Qle_bool_iff. rewrite Hx, Hy. apply Qle_refl. }
  rewrite Hle in Hlt. discriminate Hlt.
Qed.

Lemma Sorted_float_keys (ks : list (option Q)) :
  Forall (fun k => exists x, k = Some x) ks ->
  Sorted (fun a b => float_lt b a = false) ks ->
  exists ts, ks = map Some ts /\ Sorted Qle ts.
Proof.
  intros HF HS. induction HS as [|k ks HS IH Hk].
  - exists []. split; [reflexivity | constructor].
  - inversion HF as [|? ? [x ->] HF']; subst.
    destruct (IH HF') as (ts & -> & Hts).
    exists (x :: ts). split; [reflexivity |].
    constructor; [exact Hts |].
    destruct ts as [|y ts]; constructor.
    inversion Hk as [|? ? Hxy]; subst. simpl in Hxy.
    rewrite negb_false_iff in Hxy. apply Qle_bool_iff. exact Hxy.
Qed.

Lemma photo_assign_index_has_timestamp (t : Q) (photos : list Photo) (i : Z) :
  map (fun p : Photo => osc_models.path p)
      (filter (has_timestamp t) (PhotoDiscovery.assign_index photos i)) =
  map (fun p : Photo => osc_models.path p) (filter (has_timestamp t) photos).
Proof.
  revert i. induction photos as [|p l IH]; intros i.
  - reflexivity.
  - cbn [PhotoDiscovery.assign_index filter].
    replace (has_timestamp t (photo_set_index p i)) with (has_timestamp t p)
      by reflexivity.
    destruct (has_timestamp t p); cbn [map]; rewrite IH; reflexivity.
Qed.

Lemma exif_scan_timestamps {E : exif_processing.ExifProcessing}
    (path : string) (files : list string) :
  Forall (fun p : Photo => exists x, osc_models.gps_timestamp p = Some x)
         (photo_scan ExifPhotoDiscoverer.cls path files).
Proof.
  apply Forall_forall. intros ph Hin. unfold photo_scan in Hin.
  apply in_flat_map in Hin. destruct Hin as (g & _ & Hph).
  cbn [cls_photo_from_path ExifPhotoDiscoverer.cls] in Hph.
  rewrite exif_photo_from_path_eq in Hph.
  destruct (mandatory_truthy (os_path.join path g)) eqn:Hm;
    simpl in Hph; [| contradiction].
  destruct Hph as [<- | []].
  apply mandatory_truthy_true in Hm. destruct Hm as [(x & Hx & _) _].
  exists x. exact Hx.
Qed.

(** What the metadata-validated discoverer returns for a listed directory:
    the records of the scan, in ascending order of [gps_timestamp], equal
    timestamps in the order of the scan. *)
Lemma exif_discover_sorted {E : exif_processing.ExifProcessing}
    (path : string) (w : World) (files : list string) :
  isdir w path = true ->
  listdir w path = Ok files ->
  exists rs ts,
    fst (ExifPhotoDiscoverer.discover path w) = Ok (rs, "photo") /\
    Permutation (map (fun p : Photo => osc_models.path p) rs)
                (map (fun p : Photo => osc_models.path p)
                     (photo_scan ExifPhotoDiscoverer.cls path files)) /\
    map osc_models.gps_timestamp rs = map Some ts /\
    Sorted Qle ts /\
    (forall t,
       map (fun p : Photo => osc_models.path p) (filter (has_timestamp t) rs) =
       map (fun p : Photo => osc_models.path p)
           (filter (has_timestamp t)
                   (photo_scan ExifPhotoDiscoverer.cls path files))).
Proof.
  intros Hdir Hls.
  destruct (exif_returns path w files Hdir Hls) as (sorted & Hs & Hr).
  unfold ExifPhotoDiscoverer._sort_photo_list in Hs.
  destruct (list_sort_keys _ _ _ _ float_lt_asym Hs) as (ks & Hks & Hsorted).
  assert (Hks' : ks = map osc_models.gps_timestamp sorted).
  { clear - Hks. revert ks Hks. induction sorted as [|p l IH]; intros ks H.
    - destruct ks; [reflexivity | discriminate H].
    - destruct ks as [|k ks]; [discriminate H |].
      simpl in H. injection H as <- H. simpl. f_equal. apply IH. exact H. }
  assert (HF : Forall (fun k : option Q => exists x, k = Some x) ks).
  { subst ks. apply Forall_forall. intros k Hk.
    apply in_map_iff in Hk. destruct Hk as (p & <- & Hp).
    pose proof (exif_scan_timestamps path files) as Hall.
    rewrite Forall_forall in Hall. apply Hall.
    apply (Permutation_in _ (list_sort_perm _ _ _ _ Hs)). exact Hp. }
  destruct (Sorted_float_keys ks HF Hsorted) as (ts & Hts & Hle).
  exists (PhotoDiscovery.assign_index sorted 0), ts.
  split; [exact Hr |]. split; [| split; [| split]].
  - rewrite photo_assign_index_path. apply Permutation_map.
    apply (list_sort_perm _ _ _ _ Hs).
  - rewrite photo_assign_index_timestamp, <- Hks'. exact Hts.
  - exact Hle.
  - intros t. rewrite photo_assign_index_has_timestamp. f_equal.
    apply (list_sort_stable float_lt
             (fun p : Photo => Ok (osc_models.gps_timestamp p))
             (timestamp_is t) _ _ (timestamp_is_class t) Hs).
Qed.

(** C5: metadata-validated photo discovery returns the surviving records in
    ascending order of gpsTimestamp, and records whose timestamps are equal
    stay in the order in which the scan of the listing built them (the sort
    is stable).  Two candidates with GPS timestamps T1 < T2 come back as
    [T1-record, T2-record] with the indices 0 and 1, whichever of the two
    the listing gives first. *)
Theorem C5_timestamp_order {E : exif_processing.ExifProcessing} :
  (forall path w files,
     isdir w path = true ->
     listdir w path = Ok files ->
     exists rs ts,
       fst (ExifPhotoDiscoverer.discover path w) = Ok (rs, "photo") /\
       Permutation (map (fun p : Photo => osc_models.path p) rs)
                   (map (fun p : Photo => osc_models.path p)
                        (photo_scan ExifPhotoDiscoverer.cls path files)) /\
       map osc_models.gps_timestamp rs = map Some ts /\
       Sorted Qle ts /\
       (forall t,
          map (fun p : Photo => osc_models.path p) (filter (has_timestamp t) rs) =
          map (fun p : Photo => osc_models.path p)
              (filter (has_timestamp t)
                      (photo_scan ExifPhotoDiscoverer.cls path files)))) /\
  (forall path w files f1 f2 t1 t2,
     isdir w path = true ->
     listdir w path = Ok files ->
     Permutation files [f1; f2] ->
     photo_candidate f1 ->
     photo_candidate f2 ->
     ExifPhotoDiscoverer._photo_from_path (os_path.join path f1) <> None ->
     ExifPhotoDiscoverer._photo_from_path (os_path.join path f2) <> None ->
     exif_processing.gps_timestamp
       (exif_processing.all_tags (os_path.join path f1)) = Some t1 ->
     exif_processing.gps_timestamp
       (exif_processing.all_tags (os_path.join path f2)) = Some t2 ->
     (t1 < t2)%Q ->
     photo_summary (fst (ExifPhotoDiscoverer.discover path w)) =
     Ok ([(os_path.join path f1, Some 0); (os_path.join path f2, Some 1)],
         "photo")).
Proof.
  split; [exact exif_discover_sorted |].
  intros path w files f1 f2 t1 t2 Hdir Hls Hp Hc1 Hc2 Hb1 Hb2 Ht1 Ht2 Hlt.
  apply photo_is_candidate_spec in Hc1, Hc2.
  apply exif_built_iff in Hb1, Hb2.
  assert (H12 : Qle_bool t1 t2 = true).
  { apply Qle_bool_iff. apply Qlt_le_weak. exact Hlt. }
  assert (H21 : Qle_bool t2 t1 = false).
  { destruct (Qle_bool t2 t1) eqn:H; [| reflexivity].
    apply Qle_bool_iff in H. exfalso. apply (Qlt_not_le _ _ Hlt). exact H. }
  unfold ExifPhotoDiscoverer.discover.
  rewrite (photo_discover_listed _ path w files Hdir Hls).
  unfold photo_scan.
  cbn [cls_sort_photo_list cls_photo_from_path ExifPhotoDiscoverer.cls].
  unfold ExifPhotoDiscoverer._sort_photo_list, list_sort.
  apply Permutation_sym, Permutation_length_2_inv in Hp.
  destruct Hp as [-> | ->]; cbn [filter]; rewrite Hc1, Hc2; cbn [flat_map];
    rewrite !exif_photo_from_path_eq, Hb1, Hb2;
    cbn [option_list app decorate bind sort_decorated insert fst snd
         exif_photo osc_models.gps_timestamp];
    rewrite Ht1, Ht2; cbn [float_lt]; rewrite ?H12, ?H21; reflexivity.
Qed.

Lemma C5_timestamp_order_witness :
  listdir pair_world "/pair" = Ok ["late.jpg"; "early.jpg"] /\
  photo_summary (fst (@ExifPhotoDiscoverer.discover pair_exif "/pair" pair_world)) =
  Ok ([("/pair/early.jpg", Some 0); ("/pair/late.jpg", Some 1)], "photo").
Proof.
  split; [reflexivity |].
  refine (proj2 (@C5_timestamp_order pair_exif) "/pair" pair_world
            ["late.jpg"; "early.jpg"] "early.jpg" "late.jpg" (100 # 1) (200 # 1)
            eq_refl eq_refl (perm_swap _ _ _) _ _ _ _ eq_refl eq_refl eq_refl).
  - apply photo_is_candidate_spec. reflexivity.
  - apply photo_is_candidate_spec. reflexivity.
  - discriminate.
  - discriminate.
Defined.

(** C8: discovery is deterministic and leaves nothing behind that a later
    call reads.  The result of [discover] is a function of the state of the
    directory alone (whether the path is a directory, and its listing) for a
    given EXIF reader: two worlds that agree on these, whatever their log
    holds, give identical records in identical order with identical
    indices.  The world that a call returns has the file system it was
    given, only the log grows, so a second call returns what the first
    did. *)
Theorem C8_deterministic {E : exif_processing.ExifProcessing} :
  (forall path w w',
     isdir w path = isdir w' path ->
     listdir w path = listdir w' path ->
     fst (PhotoDiscovery_discover path w) = fst (PhotoDiscovery_discover path w') /\
     fst (ExifPhotoDiscoverer.discover path w) =
       fst (ExifPhotoDiscoverer.discover path w') /\
     fst (VideoDiscoverer.discover path w) = fst (VideoDiscoverer.discover path w')) /\
  (forall path w,
     let w1 := snd (PhotoDiscovery_discover path w) in
     let w2 := snd (ExifPhotoDiscoverer.discover path w) in
     let w3 := snd (VideoDiscoverer.discover path w) in
     (isdir w1 = isdir w /\ listdir w1 = listdir w /\
      fst (PhotoDiscovery_discover path w1) = fst (PhotoDiscovery_discover path w)) /\
     (isdir w2 = isdir w /\ listdir w2 = listdir w /\
      fst (ExifPhotoDiscoverer.discover path w2) =
        fst (ExifPhotoDiscoverer.discover path w)) /\
     (w3 = w /\
      fst (VideoDiscoverer.discover path w3) = fst (VideoDiscoverer.discover path w))).
Proof.
  assert (HP : forall cls path w w',
             isdir w path = isdir w' path ->
             listdir w path = listdir w' path ->
             fst (PhotoDiscovery.discover cls path w) =
             fst (PhotoDiscovery.discover cls path w')).
  { intros cls path w w' Hdir Hls. unfold PhotoDiscovery.discover.
    cbn [LOGGER_debug isdir listdir]. rewrite Hdir, Hls.
    destruct (isdir w' path); reflexivity. }
  assert (HW : forall cls path w,
             isdir (snd (PhotoDiscovery.discover cls path w)) = isdir w /\
             listdir (snd (PhotoDiscovery.discover cls path w)) = listdir w).
  { intros cls path w. unfold PhotoDiscovery.discover.
    cbn [LOGGER_debug isdir listdir].
    destruct (isdir w path); split; reflexivity. }
  assert (HV : forall path w, snd (VideoDiscoverer.discover path w) = w).
  { intros path w. unfold VideoDiscoverer.discover.
    destruct (isdir w path); reflexivity. }
  split.
  - intros path w w' Hdir Hls. split; [| split].
    + apply HP; assumption.
    + apply HP; assumption.
    + unfold VideoDiscoverer.discover. rewrite Hdir, Hls.
      destruct (isdir w' path); reflexivity.
  - intros path w w1 w2 w3. split; [| split].
    + destruct (HW PhotoDiscovery.cls path w) as [H1 H2].
      fold (PhotoDiscovery_discover path w) in H1, H2. fold w1 in H1, H2.
      split; [exact H1 |]. split; [exact H2 |].
      apply HP; [rewrite H1 | rewrite H2]; reflexivity.
    + destruct (HW ExifPhotoDiscoverer.cls path w) as [H1 H2].
      fold (ExifPhotoDiscoverer.discover path w) in H1, H2. fold w2 in H1, H2.
      split; [exact H1 |]. split; [exact H2 |].
      apply HP; [rewrite H1 | rewrite H2]; reflexivity.
    + assert (H3 : w3 = w) by apply HV.
      rewrite H3. split; reflexivity.
Qed.

Lemma C8_deterministic_witness :
  debug_log (snd (PhotoDiscovery_discover "/trip_2019" trip_world)) =
    ["searching for photos /trip_2019"] /\
  fst (PhotoDiscovery_discover "/trip_2019"
         (snd (PhotoDiscovery_discover "/trip_2019" trip_world))) =
  fst (PhotoDiscovery_discover "/trip_2019" trip_world).
Proof.
  split; [reflexivity |].
  refine (proj1 (proj1 (@C8_deterministic trip_exif) "/trip_2019" _ trip_world _ _));
    reflexivity.
Defined.

(** * Further properties of the code *)

(** ** The exceptions that leave [discover] *)

Lemma decorate_Raise_inv {A K : Type} (key : A -> result K) (l : list A)
    (e : exn) :
  decorate key l = Raise e -> exists a, In a l /\ key a = Raise e.
Proof.
  induction l as [|a l IH]; simpl.
  - discriminate.
  - destruct (key a) as [k|e0] eqn:Ha; simpl.
    + destruct (decorate key l) as [kl|e1]; simpl; [discriminate |].
      intros H. injection H as ->.
      destruct (IH eq_refl) as (b & Hb & Hkb).
      exists b. split; [right; exact Hb | exact Hkb].
    + intros H. injection H as ->. exists a. split; [left; reflexivity | exact Ha].
Qed.

Lemma list_sort_Raise_inv {A K : Type} (lt : K -> K -> bool)
    (key : A -> result K) (l : list A) (e : exn) :
  list_sort lt key l = Raise e -> exists a, In a l /\ key a = Raise e.
Proof.
  unfold list_sort. destruct (decorate key l) as [kl|e0] eqn:Hd; simpl.
  - discriminate.
  - intros H. injection H as ->. apply decorate_Raise_inv. exact Hd.
Qed.

Lemma int_from_Raise (s : list N) (acc : Z) (e : exn) :
  str.int_from s acc = Raise e -> e = ValueError.
Proof.
  revert acc. induction s as [|c s IH]; intros acc; cbn [str.int_from].
  - discriminate.
  - destruct (unicode.decimal c).
    + apply IH.
    + intros H. injection H as <-. reflexivity.
Qed.

Lemma int_Raise (s : list N) (e : exn) :
  str.int s = Raise e -> e = ValueError.
Proof.
  unfold str.int. destruct s as [|c s].
  - intros H. injection H as <-. reflexivity.
  - apply int_from_Raise.
Qed.

Lemma spells_number_false_iff (name : string) :
  spells_number name = false <->
  exists e, str.int (str.filter str.isdigit name) = Raise e.
Proof.
  split.
  - intros H. exists ValueError. apply int_digits_Raise. exact H.
  - intros [e He]. destruct (spells_number name) eqn:Hd; [| reflexivity].
    destruct (int_digits_Ok name Hd) as [k Hk]. rewrite Hk in He. discriminate He.
Qed.

Lemma listing_error_photo (cls : PhotoCls) (path : string) (w : World) (e : exn) :
  isdir w path = true ->
  listdir w path = Raise e ->
  fst (PhotoDiscovery.discover cls path w) = Raise e.
Proof.
  intros Hdir Hls. unfold PhotoDiscovery.discover.
  cbn [LOGGER_debug isdir listdir]. rewrite Hdir, Hls. reflexivity.
Qed.

Lemma listing_error_video (path : string) (w : World) (e : exn) :
  isdir w path = true ->
  listdir w path = Raise e ->
  fst (VideoDiscoverer.discover path w) = Raise e.
Proof.
  intros Hdir Hls. unfold VideoDiscoverer.discover.
  rewrite Hdir, Hls. reflexivity.
Qed.

(** X1: over a directory whose listing succeeds and holds entry names, plain
    photo discovery raises if and only if the digit characters of some
    candidate's name spell no number (the name has no digit character, or
    has one that is not a decimal digit, such as a superscript two), and the
    only exception it raises then is [ValueError]. *)
Theorem X1_plain_photo_raises (path : string) (w : World) (files : list string)
    (e : exn) :
  isdir w path = true ->
  listdir w path = Ok files ->
  Forall (fun f => is_entry_name f = true) files ->
  (fst (PhotoDiscovery_discover path w) = Raise e <->
   e = ValueError /\ numberless_candidate PhotoDiscovery.is_candidate files).
Proof.
  intros Hdir Hls Hnames. unfold PhotoDiscovery_discover.
  rewrite (photo_discover_listed _ path w files Hdir Hls), plain_photo_scan.
  cbn [cls_sort_photo_list PhotoDiscovery.cls].
  unfold PhotoDiscovery._sort_photo_list.
  rewrite Forall_forall in Hnames. split.
  - intros H.
    destruct (list_sort Z.ltb _ _) as [sorted|e0] eqn:Hs; [discriminate H |].
    simpl in H. injection H as ->.
    apply list_sort_Raise_inv in Hs. destruct Hs as (ph & Hin & Hk).
    apply in_map_iff in Hin. destruct Hin as (f & <- & Hf).
    apply filter_In in Hf. destruct Hf as [Hf Hc].
    rewrite digit_key_new_Photo in Hk by (apply Hnames; exact Hf).
    split; [apply (int_Raise _ _ Hk) |].
    exists f. repeat split; try assumption.
    apply spells_number_false_iff. exists e. exact Hk.
  - intros [-> (f & Hf & Hc & Hd)].
    destruct (list_sort_raises Z.ltb (fun p : Photo => digit_key p)
                (map (fun f => new_Photo (os_path.join path f))
                     (filter PhotoDiscovery.is_candidate files))
                (new_Photo (os_path.join path f)) ValueError) as [e' He'].
    + apply (in_map (fun f => new_Photo (os_path.join path f))).
      apply filter_In. split; assumption.
    + rewrite digit_key_new_Photo by (apply Hnames; exact Hf).
      apply int_digits_Raise, Hd.
    + rewrite He'. simpl. f_equal.
      apply list_sort_Raise_inv in He'. destruct He' as (ph & Hin & Hk).
      apply in_map_iff in Hin. destruct Hin as (g & <- & Hg).
      apply filter_In in Hg. destruct Hg as [Hg _].
      rewrite digit_key_new_Photo in Hk by (apply Hnames; exact Hg).
      apply (int_Raise _ _ Hk).
Qed.

Lemma X1_plain_photo_raises_witness :
  (fst (PhotoDiscovery_discover "/album" album_world) = Raise ValueError <->
   ValueError = ValueError /\
   numberless_candidate PhotoDiscovery.is_candidate
     ["holiday.jpg"; "clip.mp4"; "dir1.jpg"; "dir2.mp4"]) /\
  (fst (PhotoDiscovery_discover "/powers" scans_world) = Raise ValueError <->
   ValueError = ValueError /\
   numberless_candidate PhotoDiscovery.is_candidate ["img_²1.jpg"; "img_3.jpg"]).
Proof.
  split.
  - apply (X1_plain_photo_raises "/album" album_world
             ["holiday.jpg"; "clip.mp4"; "dir1.jpg"; "dir2.mp4"] ValueError).
    + reflexivity.
    + reflexivity.
    + repeat constructor.
  - apply (X1_plain_photo_raises "/powers" scans_world
             ["img_²1.jpg"; "img_3.jpg"] ValueError).
    + reflexivity.
    + reflexivity.
    + repeat constructor.
Defined.

Lemma not_a_directory_photo (cls : PhotoCls) (path : string) (w : World) :
  isdir w path = false ->
  fst (PhotoDiscovery.discover cls path w) = Ok ([], "photo").
Proof.
  intros Hdir. unfold PhotoDiscovery.discover.
  cbn [LOGGER_debug isdir]. rewrite Hdir. reflexivity.
Qed.

Lemma not_a_directory_video (path : string) (w : World) :
  isdir w path = false ->
  fst (VideoDiscoverer.discover path w) = Ok ([], "video").
Proof.
  intros Hdir. unfold VideoDiscoverer.discover. rewrite Hdir. reflexivity.
Qed.

Lemma video_raises_inv (path : string) (w : World) (files : list string)
    (e : exn) :
  isdir w path = true ->
  listdir w path = Ok files ->
  Forall (fun f => is_entry_name f = true) files ->
  fst (VideoDiscoverer.discover path w) = Raise e ->
  e = ValueError /\ undecimal_candidate VideoDiscoverer.is_candidate files.
Proof.
  intros Hdir Hls Hnames H.
  rewrite (video_discover_listed path w files Hdir Hls) in H.
  unfold VideoDiscoverer._sort_list, video_scan in H.
  rewrite Forall_forall in Hnames.
  destruct (list_sort Z.ltb _ _) as [sorted|e0] eqn:Hs; [discriminate H |].
  simpl in H. injection H as ->.
  apply list_sort_Raise_inv in Hs. destruct Hs as (v & Hin & Hk).
  apply in_map_iff in Hin. destruct Hin as (f & <- & Hf).
  apply filter_In in Hf. destruct Hf as [Hf Hc].
  rewrite digit_key_new_Video in Hk by (apply Hnames; exact Hf).
  split; [apply (int_Raise _ _ Hk) |].
  exists f. repeat split; try assumption.
  assert (Hn : spells_number f = false).
  { apply spells_number_false_iff. exists e. exact Hk. }
  unfold spells_number in Hn.
  rewrite (video_candidate_has_digit f Hc) in Hn. exact Hn.
Qed.

Lemma undecimal_video_raises (path : string) (w : World) (files : list string) :
  isdir w path = true ->
  listdir w path = Ok files ->
  Forall (fun f => is_entry_name f = true) files ->
  undecimal_candidate VideoDiscoverer.is_candidate files ->
  fst (VideoDiscoverer.discover path w) = Raise ValueError.
Proof.
  intros Hdir Hls Hnames (f & Hf & Hc & Hd).
  pose proof Hnames as Hnames'. rewrite Forall_forall in Hnames'.
  destruct (list_sort_raises Z.ltb (fun v : Video => digit_key v)
              (map (fun f => new_Video (os_path.join path f))
                   (filter VideoDiscoverer.is_candidate files))
              (new_Video (os_path.join path f)) ValueError) as [e' He'].
  - apply (in_map (fun f => new_Video (os_path.join path f))).
    apply filter_In. split; assumption.
  - rewrite digit_key_new_Video by (apply Hnames'; exact Hf).
    apply int_digits_Raise. unfold spells_number. rewrite Hd.
    apply andb_false_r.
  - assert (Hr : fst (VideoDiscoverer.discover path w) = Raise e').
    { rewrite (video_discover_listed path w files Hdir Hls).
      unfold VideoDiscoverer._sort_list, video_scan. rewrite He'. reflexivity. }
    rewrite Hr. f_equal.
    apply (video_raises_inv path w files e' Hdir Hls Hnames Hr).
Qed.

(** X2: an error of the directory listing passes through every discoverer
    unchanged.  Video discovery raises nothing else but the [ValueError] of
    the digit sort: it raises [e] if and only if the path is a directory and
    either its listing raises [e], or [e] is [ValueError] and some digit
    character in the name of some video candidate is not a decimal digit (as
    the superscript two of [clip².mp4]), given that a listing holds entry
    names. *)
Theorem X2_listing_error_passes {E : exif_processing.ExifProcessing}
    (path : string) (w : World) (e : exn) :
  (forall files, listdir w path = Ok files ->
                 Forall (fun f => is_entry_name f = true) files) ->
  (isdir w path = true /\ listdir w path = Raise e ->
   fst (PhotoDiscovery_discover path w) = Raise e) /\
  (isdir w path = true /\ listdir w path = Raise e ->
   fst (ExifPhotoDiscoverer.discover path w) = Raise e) /\
  (fst (VideoDiscoverer.discover path w) = Raise e <->
   isdir w path = true /\
   (listdir w path = Raise e \/
    exists files,
      listdir w path = Ok files /\ e = ValueError /\
      undecimal_candidate VideoDiscoverer.is_candidate files)).
Proof.
  intros Hnames. split; [| split].
  - intros [Hdir Hls]. apply listing_error_photo; assumption.
  - intros [Hdir Hls]. apply listing_error_photo; assumption.
  - split.
    + intros H. destruct (isdir w path) eqn:Hdir.
      * split; [reflexivity |].
        destruct (listdir w path) as [files|e0] eqn:Hls.
        -- right. exists files. split; [reflexivity |].
           apply (video_raises_inv path w files e Hdir Hls (Hnames files eq_refl) H).
        -- rewrite (listing_error_video path w e0 Hdir Hls) in H.
           injection H as ->. left. reflexivity.
      * rewrite (not_a_directory_video path w Hdir) in H. discriminate H.
    + intros [Hdir [Hls | (files & Hls & -> & Hu)]].
      * apply listing_error_video; assumption.
      * apply (undecimal_video_raises path w files Hdir Hls (Hnames files Hls) Hu).
Qed.

Lemma X2_listing_error_passes_witness :
  listdir locked_world "/locked" = Raise OSError /\
  fst (PhotoDiscovery_discover "/locked" locked_world) = Raise OSError /\
  fst (@ExifPhotoDiscoverer.discover trip_exif "/locked" locked_world) = Raise OSError /\
  fst (VideoDiscoverer.discover "/locked" locked_world) = Raise OSError /\
  fst (VideoDiscoverer.discover "/reel" reel_world) = Raise ValueError.
Proof.
  split; [reflexivity |].
  assert (Hnames : forall files, listdir locked_world "/locked" = Ok files ->
                                 Forall (fun f => is_entry_name f = true) files)
    by (intros files H; discriminate H).
  pose proof (@X2_listing_error_passes trip_exif "/locked" locked_world OSError Hnames)
    as (H1 & H2 & H3).
  split; [| split; [| split]].
  - apply H1. split; reflexivity.
  - apply H2. split; reflexivity.
  - apply H3. split; [reflexivity | left; reflexivity].
  - assert (Hnames' : forall files, listdir reel_world "/reel" = Ok files ->
                                    Forall (fun f => is_entry_name f = true) files).
    { intros files H. injection H as <-. repeat constructor. }
    apply (proj2 (proj2 (@X2_listing_error_passes trip_exif "/reel" reel_world
                           ValueError Hnames'))).
    split; [reflexivity |]. right.
    exists ["clip².mp4"; "dir2.mp4"]. split; [reflexivity |].
    split; [reflexivity |].
    exists "clip².mp4". split; [left; reflexivity |]. split; reflexivity.
Defined.

(** ** Equal digit keys keep the order of the listing *)

Lemma filter_map_comm {A B : Type} (g : A -> B) (P : B -> bool) (l : list A) :
  filter P (map g l) = map g (filter (fun a => P (g a)) l).
Proof.
  induction l as [|a l IH]; simpl.
  - reflexivity.
  - destruct (P (g a)); simpl; rewrite IH; reflexivity.
Qed.

Lemma filter_filter_andb {A : Type} (P Q : A -> bool) (l : list A) :
  filter P (filter Q l) = filter (fun a => Q a && P a) l.
Proof.
  induction l as [|a l IH]; simpl.
  - reflexivity.
  - destruct (Q a); simpl.
    + destruct (P a); rewrite IH; reflexivity.
    + exact IH.
Qed.

Lemma Zeqb_class (k a b : Z) :
  (a <? b) = true -> (b =? k) = true -> (a =? k) = false.
Proof.
  intros Hlt Hb. apply Z.ltb_lt in Hlt. apply Z.eqb_eq in Hb.
  apply Z.eqb_neq. lia.
Qed.

Lemma photo_assign_index_has_digit_key (k : Z) (photos : list Photo) (i : Z) :
  map (fun p : Photo => osc_models.path p)
      (filter (fun p : Photo => has_digit_key k p)
              (PhotoDiscovery.assign_index photos i)) =
  map (fun p : Photo => osc_models.path p)
      (filter (fun p : Photo => has_digit_key k p) photos).
Proof.
  revert i. induction photos as [|p l IH]; intros i.
  - reflexivity.
  - cbn [PhotoDiscovery.assign_index filter].
    replace (has_digit_key k (photo_set_index p i)) with (has_digit_key k p)
      by reflexivity.
    destruct (has_digit_key k p); cbn [map]; rewrite IH; reflexivity.
Qed.

Lemma video_assign_index_has_digit_key (k : Z) (videos : list Video) (i : Z) :
  map (fun v : Video => osc_models.path v)
      (filter (fun v : Video => has_digit_key k v)
              (VideoDiscoverer.assign_index videos i)) =
  map (fun v : Video => osc_models.path v)
      (filter (fun v : Video => has_digit_key k v) videos).
Proof.
  revert i. induction videos as [|v l IH]; intros i.
  - reflexivity.
  - cbn [VideoDiscoverer.assign_index filter].
    replace (has_digit_key k (video_set_index v i)) with (has_digit_key k v)
      by reflexivity.
    destruct (has_digit_key k v); cbn [map]; rewrite IH; reflexivity.
Qed.

(** The candidates of a listing of entry names whose records have the digit
    key [k] are those whose names spell [k]. *)
Lemma keyed_candidates {A : Type} (build : string -> A) (data : A -> VisualData)
    (candidate : string -> bool) (path : string) (k : Z) (files : list string) :
  (forall f, osc_models.path (data (build (os_path.join path f))) =
             os_path.join path f) ->
  Forall (fun f => is_entry_name f = true) files ->
  map (fun a => osc_models.path (data a))
      (filter (fun a => has_digit_key k (data a))
              (map (fun f => build (os_path.join path f)) (filter candidate files))) =
  map (os_path.join path)
      (filter (fun f => candidate f && name_spells k f) files).
Proof.
  intros Hpath Hnames.
  rewrite filter_map_comm, map_map, filter_filter_andb.
  rewrite (map_ext _ (os_path.join path)) by exact Hpath.
  f_equal. apply filter_ext_in. intros f Hf. f_equal.
  rewrite Forall_forall in Hnames.
  unfold has_digit_key, key_passes, name_spells, digit_key.
  rewrite Hpath, basename_join by (apply Hnames; exact Hf). reflexivity.
Qed.

(** X3: the digit order is stable.  In the result of plain photo discovery
    and of video discovery over a listing of entry names, the records whose
    filenames spell one and the same integer [k] come in the order in which
    the listing gives their entries. *)
Theorem X3_digit_ties_in_listing_order (path : string) (w : World)
    (files : list string) (k : Z) :
  isdir w path = true ->
  listdir w path = Ok files ->
  Forall (fun f => is_entry_name f = true) files ->
  (forall rs tag,
     fst (PhotoDiscovery_discover path w) = Ok (rs, tag) ->
     map (fun p : Photo => osc_models.path p)
         (filter (fun p : Photo => has_digit_key k p) rs) =
     map (os_path.join path)
         (filter (fun f => PhotoDiscovery.is_candidate f && name_spells k f) files)) /\
  (forall rs tag,
     fst (VideoDiscoverer.discover path w) = Ok (rs, tag) ->
     map (fun v : Video => osc_models.path v)
         (filter (fun v : Video => has_digit_key k v) rs) =
     map (os_path.join path)
         (filter (fun f => VideoDiscoverer.is_candidate f && name_spells k f) files)).
Proof.
  intros Hdir Hls Hnames. split.
  - intros rs tag H. unfold PhotoDiscovery_discover in H.
    rewrite (photo_discover_listed _ path w files Hdir Hls), plain_photo_scan in H.
    apply bind_Ok_inv in H. destruct H as (sorted & Hs & H).
    injection H as <- _.
    rewrite photo_assign_index_has_digit_key.
    cbn [cls_sort_photo_list PhotoDiscovery.cls] in Hs.
    apply (list_sort_stable Z.ltb (fun p : Photo => digit_key p)
             (fun k' => Z.eqb k' k) _ _ (Zeqb_class k)) in Hs.
    change (filter (fun p : Photo => has_digit_key k p) sorted =
            filter (fun p : Photo => has_digit_key k p)
                   (map (fun f => new_Photo (os_path.join path f))
                        (filter PhotoDiscovery.is_candidate files))) in Hs.
    rewrite Hs.
    apply (keyed_candidates new_Photo (fun p : Photo => visual_data p)
             PhotoDiscovery.is_candidate path k files);
      [reflexivity | exact Hnames].
  - intros rs tag H.
    rewrite (video_discover_listed path w files Hdir Hls) in H.
    apply bind_Ok_inv in H. destruct H as (sorted & Hs & H).
    injection H as <- _.
    rewrite video_assign_index_has_digit_key.
    apply (list_sort_stable Z.ltb (fun v : Video => digit_key v)
             (fun k' => Z.eqb k' k) _ _ (Zeqb_class k)) in Hs.
    change (filter (fun v : Video => has_digit_key k v) sorted =
            filter (fun v : Video => has_digit_key k v) (video_scan path files)) in Hs.
    rewrite Hs. unfold video_scan.
    apply (keyed_candidates new_Video (fun v : Video => video_data v)
             VideoDiscoverer.is_candidate path k files);
      [reflexivity | exact Hnames].
Qed.

Lemma X3_digit_ties_in_listing_order_witness :
  photo_summary (fst (PhotoDiscovery_discover "/ties" tie_world)) =
    Ok ([("/ties/b_01.jpg", Some 0); ("/ties/a_1.jpg", Some 1);
         ("/ties/c_001.jpg", Some 2); ("/ties/z_2.jpg", Some 3)], "photo") /\
  (exists rs,
     fst (PhotoDiscovery_discover "/ties" tie_world) = Ok (rs, "photo") /\
     map (fun p : Photo => osc_models.path p)
         (filter (fun p : Photo => has_digit_key 1 p) rs) =
     ["/ties/b_01.jpg"; "/ties/a_1.jpg"; "/ties/c_001.jpg"]).
Proof.
  split; [vm_compute; reflexivity |].
  eexists. split; [vm_compute; reflexivity |].
  refine (proj1 (X3_digit_ties_in_listing_order "/ties" tie_world
                   ["b_01.jpg"; "clip_7.mp4"; "a_1.jpg"; "c_001.jpg";
                    "clip_07.mp4"; "z_2.jpg"] 1 eq_refl eq_refl _) _ "photo" _).
  - repeat constructor.
  - vm_compute. reflexivity.
Defined.

(** ** What the returned records hold *)

Lemma photo_assign_index_Forall (P : Photo -> Prop) (photos : list Photo) (i : Z) :
  (forall p j, P p -> P (photo_set_index p j)) ->
  Forall P photos -> Forall P (PhotoDiscovery.assign_index photos i).
Proof.
  intros Hset H. revert i. induction H as [|p l Hp _ IH]; intros i; simpl.
  - constructor.
  - constructor; [apply Hset; exact Hp | apply IH].
Qed.

Lemma photo_result_Forall (cls : PhotoCls) (P : Photo -> Prop)
    (path : string) (w : World) (rs : list Photo) (tag : string) :
  (forall l s, cls_sort_photo_list cls l = Ok s -> Permutation s l) ->
  (forall p j, P p -> P (photo_set_index p j)) ->
  (forall files, Forall P (photo_scan cls path files)) ->
  fst (PhotoDiscovery.discover cls path w) = Ok (rs, tag) ->
  Forall P rs.
Proof.
  intros Hsort Hset Hscan H.
  apply photo_discover_Ok_inv in H.
  destruct H as [_ [[_ ->] | [_ (files & sorted & _ & Hs & ->)]]].
  - constructor.
  - apply photo_assign_index_Forall; [exact Hset |].
    apply Forall_forall. intros p Hp.
    pose proof (Hscan files) as HF. rewrite Forall_forall in HF.
    apply HF. apply (Permutation_in _ (Hsort _ _ Hs)). exact Hp.
Qed.

Lemma exif_scan_matches_tags {E : exif_processing.ExifProcessing}
    (path : string) (files : list string) :
  Forall matches_tags (photo_scan ExifPhotoDiscoverer.cls path files).
Proof.
  apply Forall_forall. intros ph Hin. unfold photo_scan in Hin.
  apply in_flat_map in Hin. destruct Hin as (g & _ & Hph).
  cbn [cls_photo_from_path ExifPhotoDiscoverer.cls] in Hph.
  rewrite exif_photo_from_path_eq in Hph.
  destruct (mandatory_truthy (os_path.join path g)) eqn:Hm;
    simpl in Hph; [| contradiction].
  destruct Hph as [<- | []].
  apply mandatory_truthy_true in Hm. destruct Hm as (Hts & Hlat & Hlon).
  unfold matches_tags, exif_photo. cbn.
  repeat split; try reflexivity; assumption.
Qed.

(** X4: every record that metadata-validated photo discovery returns
    carries, in each of its seven metadata fields, the value that the EXIF
    reader derives from the tags of the record's own path, and its
    gps_timestamp, latitude and longitude are present and not zero. *)
Theorem X4_exif_records_match_tags {E : exif_processing.ExifProcessing}
    (path : string) (w : World) (rs : list Photo) (tag : string) :
  fst (ExifPhotoDiscoverer.discover path w) = Ok (rs, tag) ->
  Forall matches_tags rs.
Proof.
  apply (photo_result_Forall ExifPhotoDiscoverer.cls matches_tags path w rs tag).
  - apply exif_sort_perm.
  - intros p j H. exact H.
  - apply exif_scan_matches_tags.
Qed.

Lemma X4_exif_records_match_tags_witness :
  exists rs,
    fst (@ExifPhotoDiscoverer.discover trip_exif "/trip_2019" trip_world)
      = Ok (rs, "photo") /\
    length rs = 2%nat /\
    Forall (@matches_tags trip_exif) rs.
Proof.
  eexists. split; [vm_compute; reflexivity |]. split; [reflexivity |].
  refine (@X4_exif_records_match_tags trip_exif "/trip_2019" trip_world _ "photo" _).
  vm_compute. reflexivity.
Defined.

(** X5: plain photo discovery reads no metadata: every record it returns
    has all seven metadata fields unset. *)
Theorem X5_plain_records_have_no_metadata (path : string) (w : World)
    (rs : list Photo) (tag : string) :
  fst (PhotoDiscovery_discover path w) = Ok (rs, tag) ->
  Forall no_metadata rs.
Proof.
  apply (photo_result_Forall PhotoDiscovery.cls no_metadata path w rs tag).
  - apply plain_sort_perm.
  - intros p j H. exact H.
  - intros files. rewrite plain_photo_scan. apply Forall_forall.
    intros ph Hin. apply in_map_iff in Hin. destruct Hin as (f & <- & _).
    repeat split.
Qed.

Lemma X5_plain_records_have_no_metadata_witness :
  exists rs,
    fst (PhotoDiscovery_discover "/trip_2019" trip_world) = Ok (rs, "photo") /\
    length rs = 3%nat /\
    Forall no_metadata rs.
Proof.
  eexists. split; [vm_compute; reflexivity |]. split; [reflexivity |].
  refine (X5_plain_records_have_no_metadata "/trip_2019" trip_world _ "photo" _).
  vm_compute. reflexivity.
Defined.

(** X6: metadata-validated discovery selects among the candidates of plain
    discovery: when both return for the same path and world, every path in
    the metadata-validated result is a path in the plain result. *)
Theorem X6_exif_result_within_plain {E : exif_processing.ExifProcessing}
    (path : string) (w : World) (ers prs : list Photo) (etag ptag : string) :
  fst (ExifPhotoDiscoverer.discover path w) = Ok (ers, etag) ->
  fst (PhotoDiscovery_discover path w) = Ok (prs, ptag) ->
  incl (map (fun p : Photo => osc_models.path p) ers)
       (map (fun p : Photo => osc_models.path p) prs).
Proof.
  intros He Hp x Hx.
  pose proof He as He'. apply photo_discover_Ok_inv in He'.
  destruct He' as [_ [[_ ->] | [Hdir (files & sorted & Hls & _ & _)]]].
  - contradiction.
  - pose proof (photo_result_paths _ path w files ers etag exif_sort_perm Hdir Hls He)
      as Hpe.
    apply (Permutation_in _ Hpe) in Hx.
    apply (photo_scan_paths _ path files x exif_photo_path) in Hx.
    destruct Hx as (g & Hg & Hc & _ & ->).
    apply (Permutation_in _
             (Permutation_sym (plain_photo_result_paths path w files prs ptag
                                 Hdir Hls Hp))).
    apply in_map. apply filter_In. split; assumption.
Qed.

Lemma X6_exif_result_within_plain_witness :
  exists ers prs,
    map (fun p : Photo => osc_models.path p) ers =
      ["/trip_2019/img_10.jpg"; "/trip_2019/img_2.jpg"] /\
    map (fun p : Photo => osc_models.path p) prs =
      ["/trip_2019/img_1.jpg"; "/trip_2019/img_2.jpg"; "/trip_2019/img_10.jpg"] /\
    incl (map (fun p : Photo => osc_models.path p) ers)
         (map (fun p : Photo => osc_models.path p) prs).
Proof.
  eexists. eexists. split; [| split].
  3: refine (@X6_exif_result_within_plain trip_exif "/trip_2019" trip_world
               _ _ "photo" "photo" _ _); vm_compute; reflexivity.
  - reflexivity.
  - reflexivity.
Defined.

(** ** The digits of the directory path play no part in the order *)

(** X7: the sort key of a record built from an entry name reads the name
    alone: it is the integer that the digits of the name spell, whatever
    digits the directory path holds, so the same name has the same key in
    any two directories. *)
Theorem X7_key_reads_name_only (dir1 dir2 name : string) :
  is_entry_name name = true ->
  digit_key (new_Photo (os_path.join dir1 name)) =
    str.int (str.filter str.isdigit name) /\
  digit_key (new_Video (os_path.join dir1 name)) =
    str.int (str.filter str.isdigit name) /\
  digit_key (new_Photo (os_path.join dir1 name)) =
    digit_key (new_Photo (os_path.join dir2 name)).
Proof.
  intros Hname.
  rewrite !digit_key_new_Photo, digit_key_new_Video by exact Hname.
  repeat split.
Qed.

Lemma X7_key_reads_name_only_witness :
  digit_key (new_Photo (os_path.join "/2019/07" "img_3.jpg")) = Ok 3 /\
  digit_key (new_Video (os_path.join "/2019/07" "img_3.jpg")) = Ok 3 /\
  digit_key (new_Photo (os_path.join "/2019/07" "img_3.jpg")) =
    digit_key (new_Photo (os_path.join "relative" "img_3.jpg")).
Proof.
  exact (X7_key_reads_name_only "/2019/07" "relative" "img_3.jpg" eq_refl).
Defined.

(** ** Names without an extension *)

(** X8: an entry gets an extension only from a dot that follows another
    character of its name.  A name with no dot at all, and a name that is a
    run of dots followed by text without a dot or a separator (a hidden file
    such as [.jpg] or [.mp4]), has the empty extension, so it is a candidate
    of neither the photo policies nor the video policy. *)
Theorem X8_no_extension_no_candidate (name : string) :
  lacks_char os_path.extsep name = true \/
  (exists k s, name = dots (S k) ++ s /\
               lacks_char os_path.extsep s = true /\
               lacks_char os_path.sep s = true) ->
  os_path.splitext name = (name, "") /\
  PhotoDiscovery.is_candidate name = false /\
  VideoDiscoverer.is_candidate name = false.
Proof.
  intros H.
  assert (Hs : os_path.splitext name = (name, "")).
  { destruct H as [H | (k & s & -> & Hdot & Hsep)].
    - apply splitext_no_dot. exact H.
    - apply splitext_hidden; assumption. }
  split; [exact Hs |].
  unfold PhotoDiscovery.is_candidate, VideoDiscoverer.is_candidate.
  rewrite Hs. split; reflexivity.
Qed.

Lemma X8_no_extension_no_candidate_witness :
  os_path.splitext ".jpg" = (".jpg", "") /\
  PhotoDiscovery.is_candidate ".jpg" = false /\
  VideoDiscoverer.is_candidate ".jpg" = false.
Proof.
  apply (X8_no_extension_no_candidate ".jpg").
  right. exists 0%nat, "jpg". repeat split.
Defined.

(** ** The order of the listing does not matter when the keys differ *)

Lemma Permutation_filter_compat {A : Type} (P : A -> bool) (l1 l2 : list A) :
  Permutation l1 l2 -> Permutation (filter P l1) (filter P l2).
Proof.
  induction 1 as [| x l l' _ IH | x y l | l l' l'' _ IH1 _ IH2]; simpl.
  - constructor.
  - destruct (P x); [apply perm_skip |]; exact IH.
  - destruct (P x), (P y); try apply Permutation_refl. apply perm_swap.
  - apply perm_trans with (filter P l'); assumption.
Qed.

(** Two sorted lists with the same elements are equal when no two different
    elements are each in front of the other. *)
Lemma sorted_perm_eq {A : Type} (R : A -> A -> Prop) (l1 l2 : list A) :
  StronglySorted R l1 ->
  StronglySorted R l2 ->
  Permutation l1 l2 ->
  (forall a b, In a l1 -> In b l1 -> R a b -> R b a -> a = b) ->
  l1 = l2.
Proof.
  intros H1. revert l2. induction H1 as [|a l1 Hs1 IH Ha]; intros l2 H2 Hp Hanti.
  - apply Permutation_nil in Hp. symmetry. exact Hp.
  - destruct l2 as [|b l2].
    + apply Permutation_sym, Permutation_nil in Hp. discriminate Hp.
    + inversion H2 as [|? ? Hs2 Hb]; subst.
      assert (Hab : a = b).
      { assert (Hin_a : In a (b :: l2))
          by (apply (Permutation_in _ Hp); left; reflexivity).
        assert (Hin_b : In b (a :: l1))
          by (apply (Permutation_in _ (Permutation_sym Hp)); left; reflexivity).
        destruct Hin_a as [Heq | Hin_a]; [symmetry; exact Heq |].
        destruct Hin_b as [Heq | Hin_b]; [exact Heq |].
        rewrite Forall_forall in Ha, Hb.
        apply Hanti.
        - left. reflexivity.
        - right. exact Hin_b.
        - apply Ha. exact Hin_b.
        - apply Hb. exact Hin_a. }
      subst b. f_equal. apply IH.
      * exact Hs2.
      * apply Permutation_cons_inv with a. exact Hp.
      * intros x y Hx Hy. apply Hanti; right; assumption.
Qed.

Lemma StronglySorted_ordered_by {A K K' : Type} (proj : A -> K') (inj : K -> K')
    (le : K -> K -> Prop) (s : list A) (ks : list K) :
  map proj s = map inj ks ->
  StronglySorted le ks ->
  StronglySorted (ordered_by proj inj le) s.
Proof.
  intros Hmap Hs. revert s Hmap.
  induction Hs as [|k ks Hs IH Hk]; intros s Hmap.
  - destruct s; [constructor | discriminate Hmap].
  - destruct s as [|a s]; [discriminate Hmap |].
    simpl in Hmap. injection Hmap as Ha Hmap.
    constructor; [apply IH; exact Hmap |].
    clear IH Hs. revert s Hmap.
    induction Hk as [|k' ks Hkk' _ IHk]; intros s Hmap.
    + destruct s; [constructor | discriminate Hmap].
    + destruct s as [|b s]; [discriminate Hmap |].
      simpl in Hmap. injection Hmap as Hb Hmap.
      constructor; [| apply IHk; exact Hmap].
      exists k, k'. repeat split; assumption.
Qed.

(** The digit sort returns the same list for two orders of the same
    elements when equal keys belong to equal elements. *)
Lemma digit_sort_order_free {A : Type} (key : A -> result Z)
    (l1 l2 s1 s2 : list A) :
  Permutation l1 l2 ->
  (forall a b, In a l1 -> In b l1 -> key a = key b -> a = b) ->
  list_sort Z.ltb key l1 = Ok s1 ->
  list_sort Z.ltb key l2 = Ok s2 ->
  s1 = s2.
Proof.
  intros Hp Hinj H1 H2.
  destruct (digit_sort_keys key l1 s1 H1) as (ks1 & Hk1 & Hs1).
  destruct (digit_sort_keys key l2 s2 H2) as (ks2 & Hk2 & Hs2).
  pose proof (list_sort_perm _ _ _ _ H1) as Hp1.
  pose proof (list_sort_perm _ _ _ _ H2) as Hp2.
  apply (sorted_perm_eq (ordered_by key Ok Z.le)).
  - apply (StronglySorted_ordered_by key Ok Z.le s1 ks1 Hk1).
    apply Sorted_StronglySorted; [exact Z.le_trans | exact Hs1].
  - apply (StronglySorted_ordered_by key Ok Z.le s2 ks2 Hk2).
    apply Sorted_StronglySorted; [exact Z.le_trans | exact Hs2].
  - apply perm_trans with l1; [exact Hp1 |].
    apply perm_trans with l2; [exact Hp | apply Permutation_sym; exact Hp2].
  - intros a b Ha Hb (x & y & Hx & Hy & Hxy) (y' & x' & Hy' & Hx' & Hyx).
    apply Hinj.
    + apply (Permutation_in _ Hp1). exact Ha.
    + apply (Permutation_in _ Hp1). exact Hb.
    + rewrite Hx, Hy. rewrite Hx in Hx'. rewrite Hy in Hy'.
      injection Hx' as <-. injection Hy' as <-. f_equal. lia.
Qed.

(** X9: the result of plain photo discovery and of video discovery does not
    depend on the order in which the file system lists the directory, as
    long as the digit characters of every candidate's name spell a number
    and no two candidates spell the same integer: two worlds whose listings
    of the path are permutations of each other give the same records in the
    same order with the same indices. *)
Theorem X9_listing_order_is_irrelevant (path : string) (w1 w2 : World)
    (files1 files2 : list string) :
  isdir w1 path = true ->
  isdir w2 path = true ->
  listdir w1 path = Ok files1 ->
  listdir w2 path = Ok files2 ->
  Permutation files1 files2 ->
  (digits_in_candidates PhotoDiscovery.is_candidate files1 ->
   distinct_numbers PhotoDiscovery.is_candidate files1 ->
   exists rs,
     fst (PhotoDiscovery_discover path w1) = Ok (rs, "photo") /\
     fst (PhotoDiscovery_discover path w2) = Ok (rs, "photo")) /\
  (decimal_in_candidates VideoDiscoverer.is_candidate files1 ->
   distinct_numbers VideoDiscoverer.is_candidate files1 ->
   exists rs,
     fst (VideoDiscoverer.discover path w1) = Ok (rs, "video") /\
     fst (VideoDiscoverer.discover path w2) = Ok (rs, "video")).
Proof.
  intros Hdir1 Hdir2 Hls1 Hls2 Hp. split.
  - intros Hd1 Hdist.
    assert (Hd2 : digits_in_candidates PhotoDiscovery.is_candidate files2).
    { unfold digits_in_candidates in *. rewrite <- Hp. exact Hd1. }
    destruct (plain_photo_returns path w1 files1 Hdir1 Hls1 Hd1) as (s1 & Hs1 & Hr1).
    destruct (plain_photo_returns path w2 files2 Hdir2 Hls2 Hd2) as (s2 & Hs2 & Hr2).
    assert (Heq : s1 = s2).
    { unfold PhotoDiscovery._sort_photo_list in Hs1, Hs2.
      rewrite plain_photo_scan in Hs1, Hs2.
      refine (digit_sort_order_free _ _ _ _ _
                (Permutation_map _ (Permutation_filter_compat _ _ _ Hp))
                _ Hs1 Hs2).
      intros a b Ha Hb Hk.
      apply in_map_iff in Ha, Hb.
      destruct Ha as (f & <- & Hf). destruct Hb as (g & <- & Hg).
      apply filter_In in Hf, Hg. destruct Hf as [Hf Hcf], Hg as [Hg Hcg].
      unfold digits_in_candidates in Hd1. rewrite Forall_forall in Hd1.
      rewrite !digit_key_new_Photo in Hk
        by (first [apply (Hd1 f Hf) | apply (Hd1 g Hg)]).
      rewrite (Hdist f g Hf Hg Hcf Hcg Hk). reflexivity. }
    subst s2. eexists. split; [exact Hr1 | exact Hr2].
  - intros Hd1 Hdist.
    assert (Hd2 : decimal_in_candidates VideoDiscoverer.is_candidate files2).
    { unfold decimal_in_candidates in *. rewrite <- Hp. exact Hd1. }
    pose proof (digits_in_candidates_names _ _
                  (video_digits_in_candidates files1 Hd1)) as Hn1.
    destruct (video_returns path w1 files1 Hdir1 Hls1
                (video_digits_in_candidates files1 Hd1)) as (s1 & Hs1 & Hr1).
    destruct (video_returns path w2 files2 Hdir2 Hls2
                (video_digits_in_candidates files2 Hd2)) as (s2 & Hs2 & Hr2).
    assert (Heq : s1 = s2).
    { unfold VideoDiscoverer._sort_list, video_scan in Hs1, Hs2.
      refine (digit_sort_order_free _ _ _ _ _
                (Permutation_map _ (Permutation_filter_compat _ _ _ Hp))
                _ Hs1 Hs2).
      intros a b Ha Hb Hk.
      apply in_map_iff in Ha, Hb.
      destruct Ha as (f & <- & Hf). destruct Hb as (g & <- & Hg).
      apply filter_In in Hf, Hg. destruct Hf as [Hf Hcf], Hg as [Hg Hcg].
      rewrite Forall_forall in Hn1.
      rewrite !digit_key_new_Video in Hk
        by (first [apply (Hn1 f Hf) | apply (Hn1 g Hg)]).
      rewrite (Hdist f g Hf Hg Hcf Hcg Hk). reflexivity. }
    subst s2. eexists. split; [exact Hr1 | exact Hr2].
Qed.

Lemma X9_listing_order_is_irrelevant_witness :
  listdir trip_world "/trip_2019" <> listdir trip_world_reversed "/trip_2019" /\
  (exists rs,
     fst (PhotoDiscovery_discover "/trip_2019" trip_world) = Ok (rs, "photo") /\
     fst (PhotoDiscovery_discover "/trip_2019" trip_world_reversed) = Ok (rs, "photo")) /\
  (exists rs,
     fst (VideoDiscoverer.discover "/trip_2019" trip_world) = Ok (rs, "video") /\
     fst (VideoDiscoverer.discover "/trip_2019" trip_world_reversed) = Ok (rs, "video")).
Proof.
  split; [discriminate |].
  pose proof (X9_listing_order_is_irrelevant "/trip_2019"
                trip_world trip_world_reversed
                ["img_2.jpg"; "clip_3.mp4"; "img_10.jpg"; "thumb_5.jpg"; "img_1.jpg"]
                ["img_1.jpg"; "thumb_5.jpg"; "img_10.jpg"; "clip_3.mp4"; "img_2.jpg"]
                eq_refl eq_refl eq_refl eq_refl
                (Permutation_rev
                   ["img_2.jpg"; "clip_3.mp4"; "img_10.jpg"; "thumb_5.jpg";
                    "img_1.jpg"])) as [H1 H2].
  split; [apply H1 | apply H2].
  - repeat (constructor; [split; [reflexivity | intros _; reflexivity] |]).
    constructor.
  - intros f g Hf Hg Hcf Hcg Hk. simpl in Hf, Hg.
    repeat (destruct Hf as [<- | Hf]); try contradiction;
      repeat (destruct Hg as [<- | Hg]); try contradiction;
      try reflexivity;
      try (vm_compute in Hcf; discriminate Hcf);
      try (vm_compute in Hcg; discriminate Hcg);
      vm_compute in Hk; discriminate Hk.
  - repeat (constructor; [split; [reflexivity | intros _; reflexivity] |]).
    constructor.
  - intros f g Hf Hg Hcf Hcg Hk. simpl in Hf, Hg.
    repeat (destruct Hf as [<- | Hf]); try contradiction;
      repeat (destruct Hg as [<- | Hg]); try contradiction;
      try reflexivity;
      try (vm_compute in Hcf; discriminate Hcf);
      try (vm_compute in Hcg; discriminate Hcg);
      vm_compute in Hk; discriminate Hk.
Defined.

Lemma exif_sort_strongly_sorted {E : exif_processing.ExifProcessing}
    (l s : list Photo) :
  Forall (fun p : Photo => exists x, osc_models.gps_timestamp p = Some x) l ->
  ExifPhotoDiscoverer._sort_photo_list l = Ok s ->
  StronglySorted (ordered_by osc_models.gps_timestamp Some Qle) s.
Proof.
  intros Hall Hs. unfold ExifPhotoDiscoverer._sort_photo_list in Hs.
  destruct (list_sort_keys _ _ _ _ float_lt_asym Hs) as (ks & Hks & Hsorted).
  assert (Hks' : ks = map osc_models.gps_timestamp s).
  { clear - Hks. revert ks Hks. induction s as [|p s IH]; intros ks H.
    - destruct ks; [reflexivity | discriminate H].
    - destruct ks as [|k ks]; [discriminate H |].
      simpl in H. injection H as <- H. simpl. f_equal. apply IH. exact H. }
  assert (HF : Forall (fun k : option Q => exists x, k = Some x) ks).
  { subst ks. apply Forall_forall. intros k Hk.
    apply in_map_iff in Hk. destruct Hk as (p & <- & Hp).
    rewrite Forall_forall in Hall. apply Hall.
    apply (Permutation_in _ (list_sort_perm _ _ _ _ Hs)). exact Hp. }
  destruct (Sorted_float_keys ks HF Hsorted) as (ts & Hts & Hle).
  apply (StronglySorted_ordered_by osc_models.gps_timestamp Some Qle s ts).
  - rewrite <- Hks'. exact Hts.
  - apply Sorted_StronglySorted; [exact Qle_trans | exact Hle].
Qed.

(** X10: the result of metadata-validated photo discovery does not depend
    on the order in which the file system lists the directory, as long as
    no two candidates that are built have equal GPS timestamps: two worlds
    whose listings of the path are permutations of each other give the same
    records in the same order with the same indices. *)
Theorem X10_exif_listing_order_is_irrelevant {E : exif_processing.ExifProcessing}
    (path : string) (w1 w2 : World) (files1 files2 : list string) :
  isdir w1 path = true ->
  isdir w2 path = true ->
  listdir w1 path = Ok files1 ->
  listdir w2 path = Ok files2 ->
  Permutation files1 files2 ->
  distinct_timestamps path files1 ->
  exists rs,
    fst (ExifPhotoDiscoverer.discover path w1) = Ok (rs, "photo") /\
    fst (ExifPhotoDiscoverer.discover path w2) = Ok (rs, "photo").
Proof.
  intros Hdir1 Hdir2 Hls1 Hls2 Hp Hdist.
  destruct (exif_returns path w1 files1 Hdir1 Hls1) as (s1 & Hs1 & Hr1).
  destruct (exif_returns path w2 files2 Hdir2 Hls2) as (s2 & Hs2 & Hr2).
  assert (Hscan : Permutation (photo_scan ExifPhotoDiscoverer.cls path files1)
                              (photo_scan ExifPhotoDiscoverer.cls path files2)).
  { unfold photo_scan. apply Permutation_flat_map.
    apply Permutation_filter_compat. exact Hp. }
  assert (Heq : s1 = s2).
  { apply (sorted_perm_eq (ordered_by osc_models.gps_timestamp Some Qle)).
    - apply (exif_sort_strongly_sorted _ _ (exif_scan_timestamps path files1) Hs1).
    - apply (exif_sort_strongly_sorted _ _ (exif_scan_timestamps path files2) Hs2).
    - apply perm_trans with (photo_scan ExifPhotoDiscoverer.cls path files1);
        [apply (exif_sort_perm _ _ Hs1) |].
      apply perm_trans with (photo_scan ExifPhotoDiscoverer.cls path files2);
        [exact Hscan | apply Permutation_sym, (exif_sort_perm _ _ Hs2)].
    - intros a b Ha Hb (x & y & Hx & Hy & Hxy) (y' & x' & Hy' & Hx' & Hyx).
      rewrite Hx in Hx'. injection Hx' as <-.
      rewrite Hy in Hy'. injection Hy' as <-.
      apply (Permutation_in _ (exif_sort_perm _ _ Hs1)) in Ha, Hb.
      unfold photo_scan in Ha, Hb.
      apply in_flat_map in Ha, Hb.
      destruct Ha as (f & Hf & Ha). destruct Hb as (g & Hg & Hb).
      apply filter_In in Hf, Hg. destruct Hf as [Hf Hcf], Hg as [Hg Hcg].
      cbn [cls_photo_from_path ExifPhotoDiscoverer.cls] in Ha, Hb.
      assert (Hbf : ExifPhotoDiscoverer._photo_from_path (os_path.join path f) <> None).
      { intros Hn. rewrite Hn in Ha. contradiction. }
      assert (Hbg : ExifPhotoDiscoverer._photo_from_path (os_path.join path g) <> None).
      { intros Hn. rewrite Hn in Hb. contradiction. }
      rewrite exif_photo_from_path_eq in Ha, Hb.
      destruct (mandatory_truthy (os_path.join path f)); [| contradiction].
      destruct (mandatory_truthy (os_path.join path g)); [| contradiction].
      destruct Ha as [<- | []]. destruct Hb as [<- | []].
      cbn [exif_photo osc_models.gps_timestamp] in Hx, Hy.
      rewrite (Hdist f g x y Hf Hg Hcf Hcg Hbf Hbg Hx Hy
                 (Qle_antisym _ _ Hxy Hyx)).
      reflexivity. }
  subst s2. eexists. split; [exact Hr1 | exact Hr2].
Qed.

Lemma X10_exif_listing_order_is_irrelevant_witness :
  exists rs,
    fst (@ExifPhotoDiscoverer.discover trip_exif "/trip_2019" trip_world)
      = Ok (rs, "photo") /\
    fst (@ExifPhotoDiscoverer.discover trip_exif "/trip_2019" trip_world_reversed)
      = Ok (rs, "photo").
Proof.
  refine (@X10_exif_listing_order_is_irrelevant trip_exif "/trip_2019"
            trip_world trip_world_reversed
            ["img_2.jpg"; "clip_3.mp4"; "img_10.jpg"; "thumb_5.jpg"; "img_1.jpg"]
            ["img_1.jpg"; "thumb_5.jpg"; "img_10.jpg"; "clip_3.mp4"; "img_2.jpg"]
            eq_refl eq_refl eq_refl eq_refl _ _).
  - apply Permutation_rev.
  - intros f g x y Hf Hg Hcf Hcg Hbf Hbg Hx Hy Hxy. simpl in Hf, Hg.
    repeat (destruct Hf as [<- | Hf]); try contradiction;
      repeat (destruct Hg as [<- | Hg]); try contradiction;
      try reflexivity;
      try (vm_compute in Hcf; discriminate Hcf);
      try (vm_compute in Hcg; discriminate Hcg);
      try (exfalso; apply Hbf; reflexivity);
      try (exfalso; apply Hbg; reflexivity);
      vm_compute in Hx; vm_compute in Hy;
      injection Hx as <-; injection Hy as <-;
      vm_compute in Hxy; discriminate Hxy.
Defined.

(** ** Plain names: a root, a dot, an extension *)

(** X11: for a plain name, made of a root that begins with a character
    other than a dot, one dot, and an extension without dot or separator,
    the extension that the filters read is the text after that dot.  Such an
    entry is a photo candidate exactly when the extension holds [jpg] or
    [jpeg] somewhere (so [jpgx] or [myjpeg] pass as well) and the root in
    lower case does not hold [thumb]; it is a video candidate exactly when
    the extension holds [mp4] somewhere. *)
Theorem X11_plain_names (c : ascii) (root ext : string) :
  Ascii.eqb c os_path.extsep = false ->
  lacks_char os_path.sep (String c root) = true ->
  lacks_char os_path.extsep ext = true ->
  lacks_char os_path.sep ext = true ->
  let name := String c root ++ String os_path.extsep ext in
  os_path.splitext name = (String c root, String os_path.extsep ext) /\
  (PhotoDiscovery.is_candidate name = true <->
   (substring_of "jpg" ext \/ substring_of "jpeg" ext) /\
   ~ substring_of "thumb" (str.lower (String c root))) /\
  (VideoDiscoverer.is_candidate name = true <-> substring_of "mp4" ext).
Proof.
  intros Hc Hroot Hext Hsep name.
  pose proof (splitext_plain c root ext Hc Hroot Hext Hsep) as Hs.
  fold name in Hs. split; [exact Hs |].
  split.
  - rewrite photo_is_candidate_spec. unfold photo_candidate. rewrite Hs.
    cbn [fst snd]. rewrite <- !contains_spec.
    change (str.contains "jpg" (String os_path.extsep ext))
      with (str.contains "jpg" ext).
    change (str.contains "jpeg" (String os_path.extsep ext))
      with (str.contains "jpeg" ext).
    reflexivity.
  - rewrite video_is_candidate_spec. unfold video_candidate. rewrite Hs.
    cbn [snd]. rewrite <- !contains_spec.
    change (str.contains "mp4" (String os_path.extsep ext))
      with (str.contains "mp4" ext).
    reflexivity.
Qed.

Lemma X11_plain_names_witness :
  os_path.splitext "pic_4.myjpegx" = ("pic_4", ".myjpegx") /\
  (PhotoDiscovery.is_candidate "pic_4.myjpegx" = true <->
   (substring_of "jpg" "myjpegx" \/ substring_of "jpeg" "myjpegx") /\
   ~ substring_of "thumb" (str.lower "pic_4")) /\
  (VideoDiscoverer.is_candidate "pic_4.myjpegx" = true <->
   substring_of "mp4" "myjpegx").
Proof.
  exact (X11_plain_names "p" "ic_4" "myjpegx" eq_refl eq_refl eq_refl eq_refl).
Defined.

(** ** The key of a video named [root.mp4] *)

Lemma int_from_app (a b : list N) (acc : Z) :
  str.int_from (a ++ b)%list acc = (n <- str.int_from a acc ;; str.int_from b n).
Proof.
  revert acc. induction a as [|c a IH]; intros acc.
  - reflexivity.
  - change ((c :: a) ++ b)%list with (c :: (a ++ b)%list).
    cbn [str.int_from].
    destruct (unicode.decimal c); [apply IH | reflexivity].
Qed.

Lemma decimal_in_nonneg (zeros : list N) (c : N) (v : Z) :
  unicode.decimal_in zeros c = Some v -> 0 <= v.
Proof.
  induction zeros as [|z zeros IH]; cbn [unicode.decimal_in].
  - discriminate.
  - destruct ((z <=? c) && (c <? z + 10))%N; [| exact IH].
    intros H. injection H as <-. apply N2Z.is_nonneg.
Qed.

Lemma int_from_nonneg (s : list N) (acc k : Z) :
  0 <= acc -> str.int_from s acc = Ok k -> 0 <= k.
Proof.
  revert acc. induction s as [|c s IH]; intros acc Hacc; cbn [str.int_from].
  - intros H. injection H as <-. exact Hacc.
  - destruct (unicode.decimal c) as [v|] eqn:Hc; [| discriminate].
    apply IH. apply decimal_in_nonneg in Hc. lia.
Qed.

Lemma filter_mp4 (root : string) :
  str.filter str.isdigit (root ++ ".mp4") =
  (str.filter str.isdigit root ++ [52%N])%list.
Proof.
  rewrite filter_app_ascii by reflexivity. reflexivity.
Qed.

(** X12: the digit 4 of the extension is part of the key of a video.  For an
    entry named [root.mp4] whose root has decimal digits only among its
    digit characters, the sort key is [10 * n + 4], where [n] is the integer
    that the digits of [root] spell (0 when it has none); so such videos are
    ordered by the numbers in their roots, and a root without digits comes
    first instead of raising.  When some digit character of the root is not
    a decimal digit, the key raises [ValueError]. *)
Theorem X12_mp4_key (dir root : string) :
  is_entry_name (root ++ ".mp4") = true ->
  (decimal_digits root = true ->
   exists n,
     str.int_from (str.filter str.isdigit root) 0 = Ok n /\
     0 <= n /\
     digit_key (new_Video (os_path.join dir (root ++ ".mp4"))) = Ok (10 * n + 4)) /\
  (decimal_digits root = false ->
   digit_key (new_Video (os_path.join dir (root ++ ".mp4"))) = Raise ValueError).
Proof.
  intros Hname.
  assert (Hkey : digit_key (new_Video (os_path.join dir (root ++ ".mp4"))) =
                 (n <- str.int_from (str.filter str.isdigit root) 0 ;;
                  Ok (10 * n + 4))).
  { rewrite digit_key_new_Video by exact Hname.
    rewrite filter_mp4. unfold str.int.
    destruct (str.filter str.isdigit root ++ [52%N])%list as [|c s] eqn:Hd.
    - destruct (str.filter str.isdigit root); discriminate Hd.
    - rewrite <- Hd, int_from_app. reflexivity. }
  split.
  - intros Hdec.
    destruct (int_from_decimal (str.filter str.isdigit root) 0 Hdec) as [n Hn].
    exists n. split; [exact Hn |]. split.
    + apply (int_from_nonneg (str.filter str.isdigit root) 0 n); [lia | exact Hn].
    + rewrite Hkey, Hn. reflexivity.
  - intros Hdec.
    rewrite Hkey, (int_from_undecimal (str.filter str.isdigit root) 0 Hdec).
    reflexivity.
Qed.

Lemma X12_mp4_key_witness :
  (exists n,
     str.int_from (str.filter str.isdigit "clip_12") 0 = Ok n /\
     0 <= n /\
     digit_key (new_Video (os_path.join "/trip_2019" ("clip_12" ++ ".mp4"))) =
       Ok (10 * n + 4)) /\
  digit_key (new_Video (os_path.join "/reel" ("clip²" ++ ".mp4"))) =
    Raise ValueError.
Proof.
  split.
  - exact (proj1 (X12_mp4_key "/trip_2019" "clip_12" eq_refl) eq_refl).
  - exact (proj2 (X12_mp4_key "/reel" "clip²" eq_refl) eq_refl).
Defined.

(** ** The indices follow the keys *)

Section IndexOrder.

Context {A : Type}.
Variable idx : A -> option Z.
Variable set_idx : A -> Z -> A.
Variable assign : list A -> Z -> list A.
Variable R : A -> A -> Prop.

Hypothesis assign_nil : forall i, assign [] i = [].
Hypothesis assign_cons :
  forall a l i, assign (a :: l) i = set_idx a i :: assign l (i + 1).
Hypothesis idx_set : forall a i, idx (set_idx a i) = Some i.
Hypothesis R_set : forall a b i j, R a b -> R (set_idx a i) (set_idx b j).

Lemma assign_In (l : list A) (i : Z) (b : A) :
  In b (assign l i) -> exists b0 k, In b0 l /\ b = set_idx b0 k /\ i <= k.
Proof.
  revert i. induction l as [|a l IH]; intros i.
  - rewrite assign_nil. contradiction.
  - rewrite assign_cons. intros [<- | Hin].
    + exists a, i. repeat split; [left; reflexivity | lia].
    + destruct (IH _ Hin) as (b0 & k & Hb0 & -> & Hk).
      exists b0, k. repeat split; [right; exact Hb0 | lia].
Qed.

Lemma assign_sorted (l : list A) (i : Z) :
  StronglySorted R l ->
  StronglySorted (fun a b => index_before idx a b /\ R a b) (assign l i).
Proof.
  intros H. revert i. induction H as [|a l Hs IH Ha]; intros i.
  - rewrite assign_nil. constructor.
  - rewrite assign_cons. constructor; [apply IH |].
    apply Forall_forall. intros b Hb.
    destruct (assign_In _ _ _ Hb) as (b0 & k & Hb0 & -> & Hk).
    split.
    + exists i, k. rewrite !idx_set. repeat split. lia.
    + apply R_set. rewrite Forall_forall in Ha. apply Ha. exact Hb0.
Qed.

Lemma strongly_sorted_pair (S : A -> A -> Prop) (l : list A) (a b : A) :
  StronglySorted S l -> In a l -> In b l -> a = b \/ S a b \/ S b a.
Proof.
  induction 1 as [|x l Hs IH Hx]; intros Ha Hb.
  - contradiction.
  - rewrite Forall_forall in Hx.
    destruct Ha as [<- | Ha], Hb as [<- | Hb].
    + left. reflexivity.
    + right. left. apply Hx. exact Hb.
    + right. right. apply Hx. exact Ha.
    + apply IH; assumption.
Qed.

Lemma assign_index_follows (l : list A) (i0 : Z) (a b : A) (i j : Z) :
  StronglySorted R l ->
  In a (assign l i0) -> In b (assign l i0) ->
  idx a = Some i -> idx b = Some j -> i < j ->
  R a b.
Proof.
  intros Hs Ha Hb Hi Hj Hlt.
  destruct (strongly_sorted_pair _ _ a b (assign_sorted l i0 Hs) Ha Hb)
    as [<- | [[_ H] | [(j' & i' & Hj' & Hi' & Hlt') _]]].
  - rewrite Hi in Hj. injection Hj as <-. lia.
  - exact H.
  - rewrite Hi in Hi'. rewrite Hj in Hj'.
    injection Hi' as <-. injection Hj' as <-. lia.
Qed.

End IndexOrder.

Lemma photo_index_follows (R : Photo -> Photo -> Prop)
    (sorted : list Photo) (a b : Photo) (i j : Z) :
  (forall a b i j, R a b -> R (photo_set_index a i) (photo_set_index b j)) ->
  StronglySorted R sorted ->
  In a (PhotoDiscovery.assign_index sorted 0) ->
  In b (PhotoDiscovery.assign_index sorted 0) ->
  index a = Some i -> index b = Some j -> i < j ->
  R a b.
Proof.
  intros HR. 
  apply (assign_index_follows (fun p : Photo => index p) photo_set_index
           PhotoDiscovery.assign_index R); try reflexivity. exact HR.
Qed.

(** X13: the indices follow the sort keys.  Of two records in one result,
    the one with the smaller index has the smaller or equal key: the digit
    key for plain photo discovery and for video discovery, the GPS timestamp
    for metadata-validated photo discovery. *)
Theorem X13_index_follows_key {E : exif_processing.ExifProcessing}
    (path : string) (w : World) :
  (forall rs tag a b i j,
     fst (PhotoDiscovery_discover path w) = Ok (rs, tag) ->
     In a rs -> In b rs -> index a = Some i -> index b = Some j -> i < j ->
     ordered_by (fun p : Photo => digit_key p) Ok Z.le a b) /\
  (forall rs tag a b i j,
     fst (ExifPhotoDiscoverer.discover path w) = Ok (rs, tag) ->
     In a rs -> In b rs -> index a = Some i -> index b = Some j -> i < j ->
     ordered_by osc_models.gps_timestamp Some Qle a b) /\
  (forall rs tag a b i j,
     fst (VideoDiscoverer.discover path w) = Ok (rs, tag) ->
     In a rs -> In b rs -> index a = Some i -> index b = Some j -> i < j ->
     ordered_by (fun v : Video => digit_key v) Ok Z.le a b).
Proof.
  split; [| split].
  - intros rs tag a b i j H.
    apply photo_discover_Ok_inv in H.
    destruct H as [_ [[_ ->] | [_ (files & sorted & _ & Hs & ->)]]];
      [contradiction |].
    apply photo_index_follows.
    + intros x y ? ? Hxy. exact Hxy.
    + cbn [cls_sort_photo_list PhotoDiscovery.cls] in Hs.
      destruct (digit_sort_keys _ _ _ Hs) as (ks & Hk & Hsorted).
      apply (StronglySorted_ordered_by _ Ok Z.le sorted ks Hk).
      apply Sorted_StronglySorted; [exact Z.le_trans | exact Hsorted].
  - intros rs tag a b i j H.
    apply photo_discover_Ok_inv in H.
    destruct H as [_ [[_ ->] | [_ (files & sorted & _ & Hs & ->)]]];
      [contradiction |].
    apply photo_index_follows.
    + intros x y ? ? Hxy. exact Hxy.
    + apply (exif_sort_strongly_sorted _ _ (exif_scan_timestamps path files) Hs).
  - intros rs tag a b i j H.
    apply video_discover_Ok_inv in H.
    destruct H as [_ [[_ ->] | [_ (files & sorted & _ & Hs & ->)]]];
      [contradiction |].
    apply (assign_index_follows (fun v : Video => index v) video_set_index
             VideoDiscoverer.assign_index
             (ordered_by (fun v : Video => digit_key v) Ok Z.le));
      try reflexivity.
    + intros x y ? ? Hxy. exact Hxy.
    + destruct (digit_sort_keys _ _ _ Hs) as (ks & Hk & Hsorted).
      apply (StronglySorted_ordered_by _ Ok Z.le sorted ks Hk).
      apply Sorted_StronglySorted; [exact Z.le_trans | exact Hsorted].
Qed.

Lemma X13_index_follows_key_witness :
  ordered_by (fun p : Photo => digit_key p) Ok Z.le
    (photo_set_index (new_Photo "/trip_2019/img_1.jpg") 0)
    (photo_set_index (new_Photo "/trip_2019/img_10.jpg") 2).
Proof.
  refine (proj1 (@X13_index_follows_key trip_exif "/trip_2019" trip_world)
            _ "photo"
            (photo_set_index (new_Photo "/trip_2019/img_1.jpg") 0)
            (photo_set_index (new_Photo "/trip_2019/img_10.jpg") 2)
            0 2 _ _ _ eq_refl eq_refl _).
  - vm_compute. reflexivity.
  - simpl. auto.
  - simpl. auto.
  - reflexivity.
Defined.
